(** * Connection and profile management of the AWS Toolkit (auth/connection.ts)

    A shallow embedding of the profile store, the scope predicates and the two
    reconcilers of [auth/connection.ts], and the properties its specification
    states about them.

    Conventions of the embedding.
    - A JavaScript object used as a dictionary (the ['auth.profiles'] blob, the
      result of [getCredentialProviderNames]) is a [gmap string _] of its own
      properties. Reading [obj[key]] also finds what a plain object inherits
      from [Object.prototype]: see [js_get].
    - An object carries the properties its declared type lists. An optional
      property ([scopes?], [label?], [source?]) is an [Optional]: left out,
      written as [undefined], or written with a value; an object spread tells
      the first from the other two.
    - [Object.entries] and [Object.keys] enumerate such an object in an order
      the embedding does not fix: they are a parameter [object_entries] of the
      development, known only to list every binding once.
    - Everything the module mutates (the memento, the store's de-duplication
      cell, the telemetry sink, the logger, the [warnOnce] cell) lives in one
      record [World], threaded by a state-and-exception monad [M]. An
      exception leaves the state as it was when it was thrown.
    - [await] is sequencing: the specification requires callers to serialise
      their use of a store. *)

From Stdlib Require Import String List Bool Arith Lia.
From stdpp Require Import base option list strings gmap fin_maps.

Local Open Scope string_scope.
Local Open Scope list_scope.

(** ** Data model *)

(** [ProfileMetadata['connectionState']]. *)
Inductive ConnectionState : Type :=
  | valid
  | invalid
  | unauthenticated
  | authenticating.

(** [ProfileMetadata['source']]. *)
Inductive ProfileSource : Type :=
  | amazonq
  | toolkit.

(** An optional property of an object: the key is left out, the key is there
    with the value [undefined], or it is there with a value. *)
Inductive Optional (A : Type) : Type :=
  | absent
  | undefined
  | present (a : A).
Arguments absent {A}.
Arguments undefined {A}.
Arguments present {A} a.

(** [obj.key] for an optional property: [undefined] unless a value is there. *)
Definition read {A} (o : Optional A) : option A :=
  match o with
  | present a => Some a
  | absent | undefined => None
  end.

(** The property [key] of [{ ...old, ...new }]: a spread copies every own
    property, also one whose value is [undefined], so only a key that [new]
    leaves out keeps what [old] has. *)
Definition spread {A} (old new : Optional A) : Optional A :=
  match new with
  | absent => old
  | undefined | present _ => new
  end.

Record ProfileMetadata : Type := mkMetadata {
  label : Optional string;
  connectionState : ConnectionState;
  source : Optional ProfileSource;
}.

(** The discriminant [type] of a profile. *)
Inductive ProfileType : Type :=
  | type_sso
  | type_iam.

Record SsoProfile : Type := mkSso {
  ssoRegion : string;
  startUrl : string;
  scopes : Optional (list string);
}.

Record LinkedIamProfile : Type := mkLinked {
  name : string;
  ssoSession : string;
  ssoRoleName : string;
  ssoAccountId : string;
}.

(** An [UnknownIamProfile] declares [name] only, but the object can carry
    more: [updateProfile] spreads the new profile over the stored one, so an
    [unknown] profile written over a [linked] one keeps the properties
    [ssoSession], [ssoRoleName] and [ssoAccountId] of the latter.
    [sso_properties] holds these three, in this order, when they are there. *)
Record UnknownIamProfile : Type := mkUnknown {
  unknown_name : string;
  sso_properties : option (string * string * string);
}.

(** [type Profile = IamProfile | SsoProfile], a union tagged by [type] and,
    for [iam], by [subtype]. *)
Inductive Profile : Type :=
  | Sso (p : SsoProfile)
  | IamLinked (p : LinkedIamProfile)
  | IamUnknown (p : UnknownIamProfile).

(** [StoredProfile<T> = T & { metadata }]. *)
Record StoredProfile : Type := mkStored {
  profile : Profile;
  metadata : ProfileMetadata;
}.

#[global] Instance ConnectionState_eq_dec : EqDecision ConnectionState.
Proof. solve_decision. Defined.
#[global] Instance ProfileSource_eq_dec : EqDecision ProfileSource.
Proof. solve_decision. Defined.
#[global] Instance ProfileType_eq_dec : EqDecision ProfileType.
Proof. solve_decision. Defined.
#[global] Instance Optional_eq_dec {A} `{EqDecision A} : EqDecision (Optional A).
Proof. solve_decision. Defined.
#[global] Instance ProfileMetadata_eq_dec : EqDecision ProfileMetadata.
Proof. solve_decision. Defined.
#[global] Instance SsoProfile_eq_dec : EqDecision SsoProfile.
Proof. solve_decision. Defined.
#[global] Instance LinkedIamProfile_eq_dec : EqDecision LinkedIamProfile.
Proof. solve_decision. Defined.
#[global] Instance UnknownIamProfile_eq_dec : EqDecision UnknownIamProfile.
Proof. solve_decision. Defined.
#[global] Instance Profile_eq_dec : EqDecision Profile.
Proof. solve_decision. Defined.
#[global] Instance StoredProfile_eq_dec : EqDecision StoredProfile.
Proof. solve_decision. Defined.

(** [profile.type]. *)
Definition type (p : Profile) : ProfileType :=
  match p with
  | Sso _ => type_sso
  | IamLinked _ | IamUnknown _ => type_iam
  end.

Definition type_name (t : ProfileType) : string :=
  match t with
  | type_sso => "sso"
  | type_iam => "iam"
  end.

(** ** Reading a dictionary

    The ['auth.profiles'] blob and the result of [getCredentialProviderNames]
    are plain objects. [obj[key]] gives the own property [key] when there is
    one, and otherwise what every plain object inherits from
    [Object.prototype] under that name: a function, or the prototype itself
    for [__proto__]. None of these members has a property [metadata] or
    [type]. *)
Definition object_prototype_names : list string :=
  ["constructor"; "__defineGetter__"; "__defineSetter__"; "hasOwnProperty";
   "__lookupGetter__"; "__lookupSetter__"; "isPrototypeOf"; "propertyIsEnumerable";
   "toString"; "valueOf"; "__proto__"; "toLocaleString"].

(** Does a key that is not an own property resolve through the prototype? *)
Definition inherited (key : string) : bool :=
  bool_decide (key ∈ object_prototype_names).

(** What [obj[key]] evaluates to: an own property, an inherited member, or
    [undefined]. *)
Inductive Lookup (A : Type) : Type :=
  | Own (a : A)
  | Inherited
  | Missing.
Arguments Own {A} a.
Arguments Inherited {A}.
Arguments Missing {A}.

Definition js_get {A} (obj : gmap string A) (key : string) : Lookup A :=
  match obj !! key with
  | Some a => Own a
  | None => if inherited key then Inherited else Missing
  end.

(** ** Scope predicates *)

Definition scopesSsoAccountAccess : list string := ["sso:account:access"].

(** [IamConnection] and [SsoConnection] without their methods
    ([getCredentials], [getToken], [getRegistration]), which this module
    only passes on. An [SsoConnection] extends [SsoProfile]. *)
Record IamConnection : Type := mkIamConnection {
  iam_id : string;
  iam_label : string;
}.

Record SsoConnection : Type := mkSsoConnection {
  sso_id : string;
  sso_label : string;
  sso_profile : SsoProfile;
}.

(** The first argument of [hasScopes] and [hasExactScopes]:
    [SsoConnection | SsoProfile | string[]]. *)
Inductive ScopeTarget : Type :=
  | TargetArray (a : list string)
  | TargetProfile (p : SsoProfile)
  | TargetConnection (c : SsoConnection).

(** [Array.prototype.includes] on strings. *)
Definition includes (l : list string) (s : string) : bool :=
  bool_decide (s ∈ l).

(** [Array.isArray(target) ? target : target.scopes]. *)
Definition target_scopes (target : ScopeTarget) : option (list string) :=
  match target with
  | TargetArray a => Some a
  | TargetProfile p => read (scopes p)
  | TargetConnection c => read (scopes (sso_profile c))
  end.

(** [scopes.every((s) => (...)?.includes(s))]: on an absent scope list the
    optional call gives [undefined], which [every] reads as false. *)
Definition hasScopes (target : ScopeTarget) (required : list string) : bool :=
  forallb
    (fun s =>
       match target_scopes target with
       | Some l => includes l s
       | None => false
       end)
    required.

Definition hasExactScopes (target : ScopeTarget) (required : list string) : bool :=
  let targetScopes := default [] (target_scopes target) in
  Nat.eqb (length required) (length targetScopes)
  && forallb (fun s => includes targetScopes s) required.

(** ** Errors, telemetry and the world *)

(** What the module throws. The type change in [updateProfile] is a plain
    [Error] in the source; it is named here after the specification.
    [TypeError] is what the engine throws when a property of [undefined] is
    read. [CredentialsIdError] stands for an exception of [fromString], which
    is imported from [./providers/credentials]. *)
Inductive StoreError : Type :=
  | ProfileNotFoundError (id : string)
  | ProfileTypeMismatch (old new : ProfileType)
  | TypeError
  | CredentialsIdError (id : string).

Definition dquote : string := String (Ascii.ascii_of_nat 34) EmptyString.

(** The message of the two errors constructed in this module. *)
Definition error_message (e : StoreError) : option string :=
  match e with
  | ProfileNotFoundError id => Some ("Profile does not exist: " +:+ id)
  | ProfileTypeMismatch old new =>
      Some ("Cannot change profile type from " +:+ dquote +:+ type_name old
            +:+ dquote +:+ " to " +:+ dquote +:+ type_name new +:+ dquote)
  | TypeError | CredentialsIdError _ => None
  end.

(** [result] of an [auth_modifyConnection] event. *)
Inductive Result : Type :=
  | Succeeded
  | Failed.

(** What [getTelemetryForProfile] contributes to an event: the empty object
    for an absent profile, the connection state for every profile and the
    scopes, start URL and region of an [sso] profile. *)
Record ProfileTelemetry : Type := mkTelemetry {
  t_connectionState : option ConnectionState;
  t_authScopes : option string;
  t_credentialStartUrl : option string;
  t_awsRegion : option string;
}.

Definition no_telemetry : ProfileTelemetry :=
  mkTelemetry None None None None.

(** An [auth_modifyConnection] event as the sink receives it. The [source]
    field (a rendering of the telemetry call stack) is left out; [reason]
    keeps the error that [getTelemetryReason] is applied to. *)
Record AuthModifyConnection : Type := mkEvent {
  action : string;
  event_id : string;
  result : Result;
  details : ProfileTelemetry;
  reason : option StoreError;
}.

(** [getLogger().warn] calls of the discovery, by format string. *)
Inductive LogEntry : Type :=
  | WarnNoAccounts (org : string)
  | WarnNoRoles (org : string) (accounts : string).

Record World : Type := mkWorld {
  (** memento key ['auth.profiles'] *)
  auth_profiles : gmap string StoredProfile;
  (** memento key ['auth.currentProfileId'] *)
  auth_currentProfileId : option string;
  (** [ProfileStore._prevGetProfile] *)
  prevGetProfile : option (string * ConnectionState);
  (** events passed to [telemetry.auth_modifyConnection], oldest first *)
  emitted : list AuthModifyConnection;
  (** warnings written to the logger, oldest first *)
  logged : list LogEntry;
  (** the arguments [warnOnce] ran with last *)
  warnOnce_prev : option (string * string);
  (** messages shown by [showMessageWithUrl], oldest first *)
  shown : list (string * string);
}.

Definition set_profiles (m : gmap string StoredProfile) (w : World) : World :=
  mkWorld m (auth_currentProfileId w) (prevGetProfile w) (emitted w)
          (logged w) (warnOnce_prev w) (shown w).

Definition set_currentProfileId (c : option string) (w : World) : World :=
  mkWorld (auth_profiles w) c (prevGetProfile w) (emitted w)
          (logged w) (warnOnce_prev w) (shown w).

Definition set_prevGetProfile (p : option (string * ConnectionState)) (w : World) : World :=
  mkWorld (auth_profiles w) (auth_currentProfileId w) p (emitted w)
          (logged w) (warnOnce_prev w) (shown w).

Definition push_event (e : AuthModifyConnection) (w : World) : World :=
  mkWorld (auth_profiles w) (auth_currentProfileId w) (prevGetProfile w)
          (emitted w ++ [e]) (logged w) (warnOnce_prev w) (shown w).

Definition push_log (l : LogEntry) (w : World) : World :=
  mkWorld (auth_profiles w) (auth_currentProfileId w) (prevGetProfile w)
          (emitted w) (logged w ++ [l]) (warnOnce_prev w) (shown w).

Definition push_shown (s url : string) (w : World) : World :=
  mkWorld (auth_profiles w) (auth_currentProfileId w) (prevGetProfile w)
          (emitted w) (logged w) (Some (s, url)) (shown w ++ [(s, url)]).

(** A world with nothing stored and nothing emitted yet. *)
Definition fresh_world : World :=
  mkWorld ∅ None None [] [] None [].

(** *** The monad *)

Inductive Outcome (A : Type) : Type :=
  | Ok (a : A)
  | Err (e : StoreError).
Arguments Ok {A} a.
Arguments Err {A} e.

Definition M (A : Type) : Type := World -> Outcome A * World.

Definition ret {A} (a : A) : M A := fun w => (Ok a, w).

Definition throw {A} (e : StoreError) : M A := fun w => (Err e, w).

Definition bind {A B} (c : M A) (k : A -> M B) : M B :=
  fun w =>
    match c w with
    | (Ok a, w') => k a w'
    | (Err e, w') => (Err e, w')
    end.

Definition gets {A} (f : World -> A) : M A := fun w => (Ok (f w), w).

Definition modify (f : World -> World) : M unit := fun w => (Ok tt, f w).

Declare Scope store_scope.
Delimit Scope store_scope with store.
Notation "x <- c ;; k" := (bind c (fun x => k))
  (at level 100, c at next level, right associativity) : store_scope.
Notation "c ;;; k" := (bind c (fun _ => k))
  (at level 100, right associativity) : store_scope.
Local Open Scope store_scope.

(** [for (const x of l) { body(x) }] *)
Fixpoint for_of {A} (l : list A) (body : A -> M unit) : M unit :=
  match l with
  | [] => ret tt
  | x :: l' => body x ;;; for_of l' body
  end.

(** ** The profile store *)

(** [scopes?.join(',')] *)
Definition join (sep : string) (l : list string) : string := String.concat sep l.

Definition getTelemetryForProfile (p : option StoredProfile) : ProfileTelemetry :=
  match p with
  | None => no_telemetry
  | Some sp =>
      let cs := Some (connectionState (metadata sp)) in
      match profile sp with
      | Sso s =>
          mkTelemetry cs (join "," <$> read (scopes s)) (Some (startUrl s)) (Some (ssoRegion s))
      | _ => mkTelemetry cs None None None
      end
  end.

(** [telemetry.auth_modifyConnection.emit] *)
Definition emit (e : AuthModifyConnection) : M unit := modify (push_event e).

(** [telemetry.auth_modifyConnection.run(async (span) => ...)]: the body runs,
    then one event is emitted with what the span recorded and the result of
    the body. In the three callers nothing is recorded between the first
    [span.record] and a throw, so a failing body is given as [Err] and a
    returning one hands back what it recorded after the [action] and [id]. *)
Definition run_span {A} (act id : string) (body : M (A * ProfileTelemetry)) : M A :=
  fun w =>
    match body w with
    | (Ok (a, t), w') => (Ok a, push_event (mkEvent act id Succeeded t None) w')
    | (Err e, w') => (Err e, push_event (mkEvent act id Failed no_telemetry (Some e)) w')
    end.

(** [private getData()] *)
Definition getData : M (gmap string StoredProfile) := gets auth_profiles.

(** [private updateData(state)] *)
Definition updateData (state : gmap string StoredProfile) : M unit :=
  modify (set_profiles state).

(** [this.getData()[id]]: the declared result is [StoredProfile | undefined],
    the value can also be an inherited member. *)
Definition getProfile (id : string) : M (Lookup StoredProfile) :=
  data <- getData ;; ret (js_get data id).

(** [getTelemetryForProfile(data[id])] on what a dictionary read gives. An
    inherited member is not a profile: it passes the test [!profile] and has
    no [metadata], so [profile?.metadata.connectionState] throws. *)
Definition telemetry_of_lookup (v : Lookup StoredProfile) : M ProfileTelemetry :=
  match v with
  | Own p => ret (getTelemetryForProfile (Some p))
  | Missing => ret (getTelemetryForProfile None)
  | Inherited => throw TypeError
  end.

(** An inherited member is not [undefined], so the [try] block ends without
    a throw and without a [Failed] event. What follows reads
    [profile.metadata.connectionState]: in the guard when [_prevGetProfile]
    has this [id], and otherwise in [getTelemetryForProfile(profile)], which
    is evaluated before [emit] is called. Either way a [TypeError] leaves the
    method, with nothing emitted and [_prevGetProfile] as it was. *)
Definition getProfileOrThrow (id : string) : M StoredProfile :=
  found <- getProfile id ;;
  match found with
  | Missing =>
      let err := ProfileNotFoundError id in
      emit (mkEvent "getProfile" id Failed no_telemetry (Some err)) ;;;
      throw err
  | Inherited => throw TypeError
  | Own p =>
      prev <- gets prevGetProfile ;;
      let cs := connectionState (metadata p) in
      (if bool_decide (fst <$> prev ≠ Some id) || bool_decide (snd <$> prev ≠ Some cs)
       then
         emit (mkEvent "getProfile" id Succeeded (getTelemetryForProfile (Some p)) None) ;;;
         modify (set_prevGetProfile (Some (id, cs)))
       else ret tt) ;;;
      ret p
  end.

(** [private putProfile(id, profile)] *)
Definition putProfile (id : string) (p : StoredProfile) : M StoredProfile :=
  data <- getData ;;
  updateData (<[id := p]> data) ;;;
  ret p.

(** [private initMetadata(profile)] *)
Definition initMetadata (p : Profile) : StoredProfile :=
  mkStored p (mkMetadata absent unauthenticated absent).

Definition addProfile (id : string) (p : Profile) : M StoredProfile :=
  run_span "addProfile" id
    (let newProfile := initMetadata p in
     stored <- putProfile id newProfile ;;
     ret (stored, getTelemetryForProfile (Some newProfile))).

(** The properties [ssoSession], [ssoRoleName] and [ssoAccountId] of an [iam]
    profile object, when it has them. *)
Definition sso_properties_of (p : Profile) : option (string * string * string) :=
  match p with
  | Sso _ => None
  | IamLinked l => Some (ssoSession l, ssoRoleName l, ssoAccountId l)
  | IamUnknown u => sso_properties u
  end.

(** [{ ...oldProfile, ...profile }] on two profiles of the same [type]. Every
    property the new profile has is written over the old one and every other
    property of the old one stays: the [metadata], which a [Profile] does not
    have; the [scopes] when the new [sso] profile leaves the key out (a key
    written as [undefined] erases them); and, under an [unknown] profile
    without them, the three [sso...] properties of the old [iam] profile. A
    [linked] profile has every property an [iam] profile can have and so
    replaces the old one. The last case, two profiles of different [type],
    is not reached in [updateProfile]. *)
Definition merge_profile (old : StoredProfile) (new : Profile) : StoredProfile :=
  match profile old, new with
  | Sso o, Sso n =>
      mkStored (Sso (mkSso (ssoRegion n) (startUrl n) (spread (scopes o) (scopes n))))
               (metadata old)
  | (IamLinked _ | IamUnknown _), IamLinked n => mkStored (IamLinked n) (metadata old)
  | (IamLinked _ | IamUnknown _) as o, IamUnknown n =>
      mkStored
        (IamUnknown
           (mkUnknown (unknown_name n)
              (match sso_properties n with
               | Some link => Some link
               | None => sso_properties_of o
               end)))
        (metadata old)
  | _, _ => mkStored new (metadata old)
  end.

Definition updateProfile (id : string) (p : Profile) : M StoredProfile :=
  run_span "updateProfile" id
    (oldProfile <- getProfileOrThrow id ;;
     if bool_decide (type (profile oldProfile) ≠ type p)
     then throw (ProfileTypeMismatch (type (profile oldProfile)) (type p))
     else
       newProfile <- putProfile id (merge_profile oldProfile p) ;;
       ret (newProfile, getTelemetryForProfile (Some newProfile))).

(** [{ ...profile.metadata, ...metadata }]: [connectionState] is required in
    the argument; [label] and [source] are taken from it when it has the
    key, also when the key holds [undefined]. *)
Definition merge_metadata (old new : ProfileMetadata) : ProfileMetadata :=
  mkMetadata (spread (label old) (label new)) (connectionState new)
             (spread (source old) (source new)).

Definition updateMetadata (id : string) (md : ProfileMetadata) : M StoredProfile :=
  p <- getProfileOrThrow id ;;
  putProfile id (mkStored (profile p) (merge_metadata (metadata p) md)).

(** [delete data[id]] removes an own property and does nothing else. *)
Definition deleteProfile (id : string) : M unit :=
  run_span "deleteProfile" id
    (data <- getData ;;
     recorded <- telemetry_of_lookup (js_get data id) ;;
     updateData (delete id data) ;;;
     ret (tt, recorded)).

Definition getCurrentProfileId : M (option string) := gets auth_currentProfileId.

Definition setCurrentProfileId (id : option string) : M unit :=
  modify (set_currentProfileId id).

(** ** JavaScript sets of strings

    A [Set<string>] keeps its elements in insertion order and ignores a second
    [add] of the same element. *)
Module JsSet.
Definition t : Type := list string.
Definition empty : t := [].
Definition has (s : t) (x : string) : bool := bool_decide (x ∈ s).
Definition add (x : string) (s : t) : t := if has s x then s else s ++ [x].
Definition size (s : t) : nat := length s.
End JsSet.

(** ** The federation client

    [client.listAccounts().catch(...).flatten()] is given as the account ids
    it delivers (a failing listing is cut short by the [catch] handler, which
    logs it and ends the sequence) and [listAccountRoles({ accountId }).flatten()]
    as the roles it delivers for an account. *)
Record RoleInfo : Type := mkRole {
  roleName : string;
  accountId : string;
}.

Record SsoClient : Type := mkClient {
  listAccounts : list string;
  listAccountRoles : string -> list RoleInfo;
}.

(** What pulling on the composed [stream] does, in order: the [map] callback
    runs once per account (and records it in [accounts]) before the roles of
    that account are delivered. *)
Inductive StreamItem : Type :=
  | AccountSeen (account : string)
  | Role (info : RoleInfo).

Definition role_stream (client : SsoClient) : list StreamItem :=
  flat_map (fun a => AccountSeen a :: map Role (listAccountRoles client a))
           (listAccounts client).

(** The roles a stream delivers. *)
Definition stream_roles (items : list StreamItem) : list RoleInfo :=
  omap (fun i => match i with Role info => Some info | AccountSeen _ => None end) items.

(** The accounts a stream passes. *)
Definition stream_accounts (items : list StreamItem) : list string :=
  omap (fun i => match i with AccountSeen a => Some a | Role _ => None end) items.

(** [`${info.roleName}-${info.accountId}`] *)
Definition linkedName (info : RoleInfo) : string :=
  roleName info +:+ "-" +:+ accountId info.

(** [`sso:${sourceId}#${name}`] *)
Definition linkedId (sourceId : string) (info : RoleInfo) : string :=
  "sso:" +:+ sourceId +:+ "#" +:+ linkedName info.

Definition linkedProfile (sourceId : string) (info : RoleInfo) : Profile :=
  IamLinked (mkLinked (linkedName info) sourceId (roleName info) (accountId info)).

(** The async generator made by [loadLinkedProfilesIntoStore], suspended at
    its start or at its [yield]: its arguments, what is left of the stream and
    its two local sets. *)
Record Generator : Type := mkGenerator {
  g_sourceId : string;
  g_ssoProfile : SsoProfile;
  g_pending : list StreamItem;
  g_accounts : JsSet.t;
  g_found : JsSet.t;
}.

(** What one [next()] gives: a yielded pair and the generator suspended after
    it, or completion. [Done] shows the two sets as they were at the end. *)
Inductive Step : Type :=
  | Yield (id : string) (p : StoredProfile) (rest : Generator)
  | Done (accounts found : JsSet.t).

(** [warnOnce = onceChanged(...)]. The body of [onceChanged] is imported from
    [shared/utilities/functionUtils]; it is given here as the source documents
    [warnOnce]: the message is shown unless it is the same as the last one
    shown. *)
Definition warnOnce (s url : string) : M unit :=
  prev <- gets warnOnce_prev ;;
  if bool_decide (prev = Some (s, url)) then ret tt else modify (push_shown s url).

Definition warn (l : LogEntry) : M unit := modify (push_log l).

Definition no_roles_message (org : string) : string :=
  "IAM Identity Center (" +:+ org
  +:+ ") returned no roles. Ensure the user is assigned to an account with a Permission Set.".

Definition getting_started_url : string :=
  "https://docs.aws.amazon.com/singlesignon/latest/userguide/getting-started.html".

(** [!!ssoProfile.scopes?.some((s) => !scopesSsoAccountAccess.includes(s))] *)
Definition hasOtherScopes (ssoProfile : SsoProfile) : bool :=
  match read (scopes ssoProfile) with
  | Some l => existsb (fun s => negb (includes scopesSsoAccountAccess s)) l
  | None => false
  end.

(** ** Connections *)

Definition scopesCodeCatalyst : list string := ["codecatalyst:read_write"].

Definition defaultSsoRegion : string := "us-east-1".

(** [type Connection = IamConnection | SsoConnection], tagged by [type]. *)
Inductive Connection : Type :=
  | IamConn (c : IamConnection)
  | SsoConn (c : SsoConnection).

Inductive SsoType : Type :=
  | sso_any
  | sso_idc
  | sso_builderId.

Section ConnectionModel.

(** [builderIdStartUrl], imported from [./sso/constants]. *)
Variable builderIdStartUrl : string.

(** [conn?.type === 'iam'] *)
Definition isIamConnection (conn : option Connection) : bool :=
  match conn with
  | Some (IamConn _) => true
  | _ => false
  end.

(** [isSsoConnection(conn, type)]. The case ['idc'] calls
    [isBuilderIdConnection(conn)], which is [isSsoConnection(conn, 'builderId')]
    on the same connection: the comparison of the case ['builderId']. *)
Definition isSsoConnection (conn : option Connection) (type : SsoType) : bool :=
  match conn with
  | Some (SsoConn c) =>
      match type with
      | sso_idc => negb (bool_decide (startUrl (sso_profile c) = builderIdStartUrl))
      | sso_builderId => bool_decide (startUrl (sso_profile c) = builderIdStartUrl)
      | sso_any => true
      end
  | _ => false
  end.

Definition isAnySsoConnection (conn : option Connection) : bool :=
  isSsoConnection conn sso_any.

Definition isIdcSsoConnection (conn : option Connection) : bool :=
  isSsoConnection conn sso_idc.

Definition isBuilderIdConnection (conn : option Connection) : bool :=
  isSsoConnection conn sso_builderId.

(** [isSsoConnection(conn) && hasScopes(conn, scopesCodeCatalyst)] *)
Definition isValidCodeCatalystConnection (conn : option Connection) : bool :=
  isSsoConnection conn sso_any
  && match conn with
     | Some (SsoConn c) => hasScopes (TargetConnection c) scopesCodeCatalyst
     | _ => false
     end.

(** [createBuilderIdProfile(scopes = [...scopesSsoAccountAccess])]; an
    argument left out is [None]. *)
Definition createBuilderIdProfile (scopes : option (list string)) : SsoProfile :=
  mkSso defaultSsoRegion builderIdStartUrl (present (default scopesSsoAccountAccess scopes)).

(** [createSsoProfile(startUrl, region = 'us-east-1', scopes = [...scopesSsoAccountAccess])] *)
Definition createSsoProfile (startUrl : string) (region : option string)
    (scopes : option (list string)) : SsoProfile :=
  mkSso (default "us-east-1" region) startUrl (present (default scopesSsoAccountAccess scopes)).

End ConnectionModel.

(** ** Paginated listings of the Lambda client *)

(** A response of [listFunctions] or [listLayerVersions] as the generators
    read it: the items, when the field is there, and [NextMarker]. *)
Record Page (A : Type) : Type := mkPage {
  page_items : option (list A);
  NextMarker : option string;
}.
Arguments mkPage {A} page_items NextMarker.
Arguments page_items {A} p.
Arguments NextMarker {A} p.

(** Is an optional string truthy? [undefined] and the empty string are not. *)
Definition truthy (s : option string) : bool :=
  match s with
  | Some s => negb (bool_decide (s = EmptyString))
  | None => false
  end.

(** What a consumer that drains a listing has when it stops: everything was
    listed, a request was rejected, or the bound on requests was reached. *)
Inductive Listing (A : Type) : Type :=
  | Listed (yielded : list A)
  | Rejected (yielded : list A)
  | Unfinished (yielded : list A).
Arguments Listed {A} yielded.
Arguments Rejected {A} yielded.
Arguments Unfinished {A} yielded.

Definition yielded_before {A} (here : list A) (rest : Listing A) : Listing A :=
  match rest with
  | Listed l => Listed (here ++ l)
  | Rejected l => Rejected (here ++ l)
  | Unfinished l => Unfinished (here ++ l)
  end.

(** The loop [do { response = await request(marker); if (items) yield* items;
    marker = response.NextMarker } while (marker)] of [listFunctions] and
    [listLayerVersions], drained by a consumer that allows [fuel] requests.
    [request] is the SDK call for a marker; [None] is a rejected promise. *)
Fixpoint paginate {A} (fuel : nat) (request : option string -> option (Page A))
    (marker : option string) : Listing A :=
  match fuel with
  | 0 => Unfinished []
  | S fuel' =>
      match request marker with
      | None => Rejected []
      | Some response =>
          let here := default [] (page_items response) in
          if truthy (NextMarker response)
          then yielded_before here (paginate fuel' request (NextMarker response))
          else Listed here
      end
  end.

(** [listFunctions()]: the first request has no marker. *)
Definition listFunctions {A} (fuel : nat) (client : option string -> option (Page A))
    : Listing A :=
  paginate fuel client None.

(** [listLayerVersions(name)]: every request carries [LayerName: name]. *)
Definition listLayerVersions {A} (fuel : nat)
    (client : string -> option string -> option (Page A)) (name : string) : Listing A :=
  paginate fuel (client name) None.

(** The service answers [marker] with the pages [pages], each naming the
    next by a truthy [NextMarker], and then with [last], which names none. *)
Fixpoint pages_from {A} (request : option string -> option (Page A))
    (marker : option string) (pages : list (Page A)) (last : Page A) : Prop :=
  match pages with
  | [] => request marker = Some last /\ truthy (NextMarker last) = false
  | p :: pages' =>
      request marker = Some p
      /\ truthy (NextMarker p) = true
      /\ pages_from request (NextMarker p) pages' last
  end.

(** The items of some pages, in order; a page without the field has none. *)
Definition items_of {A} (pages : list (Page A)) : list A :=
  concat (map (fun p => default [] (page_items p)) pages).

(** ** The State Machine Graph cache *)

(** What the cache throws: the error of [httpsGetRequestWrapper] on missing
    or empty content, a rethrown error of [makeDir] with its [code], a
    rethrown error of [writeFile], and the error of [confirmCacheExists]. *)
Inductive CacheError : Type :=
  | NoContent
  | MakeDirError (code : option string)
  | WriteFileError
  | AssetsMissing.

(** [logger.error] calls of the cache. *)
Inductive CacheLog : Type :=
  | LogWriteFailed
  | LogMissingCss (path : string)
  | LogMissingJs (path : string).

(** The paths of a [StateMachineGraphCache]. *)
Record GraphCachePaths : Type := mkPaths {
  cssFilePath : string;
  jsFilePath : string;
  dirPath : string;
}.

Record UpdateCachedScriptOptions : Type := mkUpdateOptions {
  lastDownloadedURLKey : string;
  currentURL : string;
  filePath : string;
}.

(** The collaborators of the cache, as the default options behave: the text
    a fetch of a URL gives ([None] when there is none), the error [makeDir]
    rejects with for a directory ([None]: it resolves; [Some code]: it
    rejects with an error whose [code] is [code]), and whether [writeFile]
    rejects for a path. *)
Record CacheEnv : Type := mkCacheEnv {
  fetch : string -> option string;
  mkdir_error : string -> option (option string);
  write_rejects : string -> bool;
}.

Record CacheWorld : Type := mkCacheWorld {
  (** [globals.globalState] *)
  globalState : gmap string string;
  (** the files [fileExists] finds and [writeFile] writes, by path *)
  files : gmap string string;
  (** the URLs [getFileData] was called with, oldest first *)
  fetched : list string;
  (** the [logger.error] calls, oldest first *)
  cache_errors : list CacheLog;
}.

(** [httpsGetRequestWrapper(url)], the default [getFileData]. *)
Definition httpsGetRequestWrapper (env : CacheEnv) (url : string) (w : CacheWorld)
    : (CacheError + string) * CacheWorld :=
  let w1 := mkCacheWorld (globalState w) (files w) (fetched w ++ [url]) (cache_errors w) in
  match fetch env url with
  | Some val => if bool_decide (val = EmptyString) then (inl NoContent, w1) else (inr val, w1)
  | None => (inl NoContent, w1)
  end.

(** [fileExists(path)] *)
Definition fileExists (path : string) (w : CacheWorld) : bool :=
  bool_decide (is_Some (files w !! path)).

(** [writeToLocalStorage(destinationPath, data)]: [None] is a normal return. *)
Definition writeToLocalStorage (paths : GraphCachePaths) (env : CacheEnv)
    (destinationPath data : string) (w : CacheWorld) : option CacheError * CacheWorld :=
  let write :=
    if write_rejects env destinationPath
    then (Some WriteFileError,
          mkCacheWorld (globalState w) (files w) (fetched w) (cache_errors w ++ [LogWriteFailed]))
    else (None,
          mkCacheWorld (globalState w) (<[destinationPath := data]> (files w))
                       (fetched w) (cache_errors w)) in
  match mkdir_error env (dirPath paths) with
  | Some code =>
      if truthy code && negb (bool_decide (code = Some "EEXIST"))
      then (Some (MakeDirError code), w)
      else write
  | None => write
  end.

Definition updateCachedFile (paths : GraphCachePaths) (env : CacheEnv)
    (options : UpdateCachedScriptOptions) (w : CacheWorld) : option CacheError * CacheWorld :=
  let downloadedUrl := globalState w !! lastDownloadedURLKey options in
  let cachedFileExists := fileExists (filePath options) w in
  if bool_decide (downloadedUrl ≠ Some (currentURL options)) || negb cachedFileExists
  then
    match httpsGetRequestWrapper env (currentURL options) w with
    | (inl e, w1) => (Some e, w1)
    | (inr response, w1) =>
        match writeToLocalStorage paths env (filePath options) response w1 with
        | (Some e, w2) => (Some e, w2)
        | (None, w2) =>
            (None,
             mkCacheWorld
               (<[lastDownloadedURLKey options := currentURL options]> (globalState w2))
               (files w2) (fetched w2) (cache_errors w2))
        end
    end
  else (None, w).

Definition confirmCacheExists (paths : GraphCachePaths) (w : CacheWorld)
    : (CacheError + bool) * CacheWorld :=
  let cssExists := fileExists (cssFilePath paths) w in
  let jsExists := fileExists (jsFilePath paths) w in
  if cssExists && jsExists then (inr true, w)
  else
    (inl AssetsMissing,
     mkCacheWorld (globalState w) (files w) (fetched w)
       (cache_errors w
        ++ (if cssExists then [] else [LogMissingCss (cssFilePath paths)])
        ++ (if jsExists then [] else [LogMissingJs (jsFilePath paths)]))).

(** Does [writeToLocalStorage] rethrow the error [makeDir] rejects with? *)
Definition makeDir_fatal (error : option (option string)) : bool :=
  match error with
  | Some code => truthy code && negb (bool_decide (code = Some "EEXIST"))
  | None => false
  end.

(** Does [updateCachedFile] have to download: the recorded URL is not the
    current one, or the file is not there. *)
Definition update_due (options : UpdateCachedScriptOptions) (w : CacheWorld) : bool :=
  bool_decide (globalState w !! lastDownloadedURLKey options ≠ Some (currentURL options))
  || negb (fileExists (filePath options) w).

(** ** Further observations *)

(** Is a string free of the character [-]? *)
Fixpoint hyphen_free (s : string) : bool :=
  match s with
  | EmptyString => true
  | String c s' => negb (Ascii.eqb c (Ascii.ascii_of_nat 45)) && hyphen_free s'
  end.

(** No two messages next to each other in a list are the same. *)
Fixpoint no_repeat_in_a_row (l : list (string * string)) : Prop :=
  match l with
  | a :: (b :: _) as rest => a ≠ b /\ no_repeat_in_a_row rest
  | _ => True
  end.

(** The [warnOnce] cell holds the message shown last, and no message was
    shown twice in a row. *)
Definition popups_consistent (w : World) : Prop :=
  warnOnce_prev w = last (shown w) /\ no_repeat_in_a_row (shown w).

(** ** Sample data of the examples *)

(** An enumeration of the bindings of an object, here in the order of
    [map_to_list]. *)
Definition entries_by_key : forall A : Type, gmap string A -> list (string * A) :=
  fun A m => map_to_list m.

(** [truncateStartUrl] on start URLs that it leaves as they are. *)
Definition whole_url : string -> string := fun url => url.

Definition sample_sso : SsoProfile := mkSso "us-east-1" "https://x" absent.

Definition other_sso : SsoProfile := mkSso "us-east-1" "https://y" absent.

(** One account, [111], with one role, [Admin]. *)
Definition sample_client : SsoClient :=
  mkClient ["111"] (fun a => [mkRole "Admin" a]).

(** A catalog without accounts. *)
Definition empty_client : SsoClient := mkClient [] (fun _ => []).

(** A linked profile of the session [sso:1] for a role the catalog no longer
    has, with metadata a user has worked with. *)
Definition old_linked : StoredProfile :=
  mkStored (IamLinked (mkLinked "Old-222" "sso:1" "Old" "222"))
           (mkMetadata (present "old role") valid (present toolkit)).

(** A store with the session [sso:1] and the linked profile [old_linked]. *)
Definition sample_world : World :=
  set_profiles
    (<["sso:sso:1#Old-222" := old_linked]> (<["sso:1" := initMetadata (Sso sample_sso)]> ∅))
    fresh_world.

(** [sample_world] after one [getProfileOrThrow("sso:1")]. *)
Definition seen_world : World := snd (getProfileOrThrow "sso:1" sample_world).

(** A store for the unmanaged-profile sync: a session, a linked profile of
    it, a linked profile of a session that is not stored, and two unknown
    profiles. *)
Definition sync_world : World :=
  set_profiles
    (<["profile:b" := initMetadata (IamUnknown (mkUnknown "b" None))]>
       (<["profile:a" := initMetadata (IamUnknown (mkUnknown "a" None))]>
          (<["sso:gone#Dev-333" :=
               initMetadata (IamLinked (mkLinked "Dev-333" "gone" "Dev" "333"))]>
             (<["sso:sso:1#Admin-111" :=
                  initMetadata (IamLinked (mkLinked "Admin-111" "sso:1" "Admin" "111"))]>
                (<["sso:1" := initMetadata (Sso sample_sso)]> ∅)))))
    fresh_world.

(** An enumeration of credential providers, each named by its own id. *)
Definition sample_providers : gmap string string :=
  <["sso:sso:1#Admin-111" := "Admin-111"]>
    (<["profile:new" := "new"]> (<["profile:a" := "a"]> ∅)).

(** A catalog with the one role [r-x] of the account [a]. *)
Definition hyphen_client : SsoClient :=
  mkClient ["a"] (fun account => [mkRole "r-x" account]).

(** A linked profile of the session [s] for the role [r] of the account
    [x-a], stored under the id the discovery derives for it. *)
Definition hyphen_linked : StoredProfile :=
  initMetadata (IamLinked (mkLinked "r-x-a" "s" "r" "x-a")).

Definition hyphen_world : World :=
  set_profiles (<["sso:s#r-x-a" := hyphen_linked]> ∅) fresh_world.

(** A store with an unknown profile under the id [constructor], and an
    enumeration that lists the id [toString] only. *)
Definition named_world : World :=
  set_profiles (<["constructor" := initMetadata (IamUnknown (mkUnknown "c" None))]> ∅)
               fresh_world.

Definition named_providers : gmap string string := <["toString" := "t"]> ∅.

(** A linked profile of the session [sso:1] for the role the sample catalog
    has. *)
Definition admin_linked : StoredProfile :=
  initMetadata (IamLinked (mkLinked "Admin-111" "sso:1" "Admin" "111")).

(** An Identity Center profile with a scope of its own. *)
Definition scoped_sso : SsoProfile :=
  mkSso "eu-west-1" "https://x" (present ["codecatalyst:read_write"]).

(** Metadata that only sets the connection state. *)
Definition now_valid : ProfileMetadata := mkMetadata absent valid absent.

(** A service with two pages of functions and a last page without the
    [Functions] field. *)
Definition two_pages (marker : option string) : option (Page string) :=
  match marker with
  | None => Some (mkPage (Some ["f1"; "f2"]) (Some "m1"))
  | Some "m1" => Some (mkPage (Some ["f3"]) (Some "m2"))
  | Some _ => Some (mkPage None None)
  end.

(** A service that answers every request with the same marker. *)
Definition same_marker (marker : option string) : option (Page string) :=
  Some (mkPage (Some ["f"]) (Some "again")).

Definition sample_paths : GraphCachePaths :=
  mkPaths "cache/graph.css" "cache/sfn.js" "cache".

Definition script_options : UpdateCachedScriptOptions :=
  mkUpdateOptions "SCRIPT_LAST_DOWNLOADED_URL" "https://cdn/sfn.js" "cache/sfn.js".

Definition css_options : UpdateCachedScriptOptions :=
  mkUpdateOptions "CSS_LAST_DOWNLOADED_URL" "https://cdn/graph.css" "cache/graph.css".

(** A network that serves every URL and a directory that is already there. *)
Definition sample_env : CacheEnv :=
  mkCacheEnv (fun url => Some ("content of " +:+ url)) (fun _ => Some (Some "EEXIST"))
             (fun _ => false).

(** The same network with a directory that cannot be made. *)
Definition readonly_env : CacheEnv :=
  mkCacheEnv (fun url => Some ("content of " +:+ url)) (fun _ => Some (Some "EACCES"))
             (fun _ => false).

Definition empty_cache : CacheWorld := mkCacheWorld ∅ ∅ [] [].

Section Reconcilers.

Set Default Proof Using "Type".

(** [Object.entries] *)
Variable object_entries : forall A : Type, gmap string A -> list (string * A).
Hypothesis object_entries_perm :
  forall (A : Type) (m : gmap string A), object_entries A m ≡ₚ map_to_list m.

(** [truncateStartUrl], imported from [./sso/model]. *)
Variable truncateStartUrl : string -> string.

(** [CredentialsProviderId] with its field [credentialTypeId], and
    [fromString], imported from [./providers/credentials]; [None] is a
    thrown exception. *)
Variable CredentialsId : Type.
Variable credentialTypeId : CredentialsId -> string.
Variable fromString : string -> option CredentialsId.

Definition listProfiles : M (list (string * StoredProfile)) :=
  data <- getData ;; ret (object_entries StoredProfile data).

(** *** Unmanaged-profile sync *)

(** The body of the first loop of [loadIamProfilesIntoStore]. [removed]
    collects the arguments of [manager.removeProvider], oldest first. A
    [source] that is an inherited member is not [undefined], and its [type]
    is: [source.type !== 'sso'] holds. [providers[id] === undefined] is a
    read of a plain object too. *)
Definition sync_stored (providers : gmap string CredentialsId)
    (removed : list CredentialsId) (entry : string * StoredProfile)
    : M (list CredentialsId) :=
  let '(id, p) := entry in
  match profile p with
  | Sso _ => ret removed
  | IamLinked l =>
      src <- getProfile (ssoSession l) ;;
      if match src with
         | Missing => true
         | Inherited => true
         | Own s => bool_decide (type (profile s) ≠ type_sso)
         end
      then
        deleteProfile id ;;;
        match fromString id with
        | Some c => ret (removed ++ [c])
        | None => throw (CredentialsIdError id)
        end
      else ret removed
  | IamUnknown _ =>
      match js_get providers id with
      | Missing => deleteProfile id ;;; ret removed
      | Inherited | Own _ => ret removed
      end
  end.

(** A [for...of] loop that carries an accumulator. *)
Fixpoint fold_of {A S : Type} (l : list A) (body : S -> A -> M S) (s : S) : M S :=
  match l with
  | [] => ret s
  | x :: l' => s' <- body s x ;; fold_of l' body s'
  end.

(** The body of the second loop; [Object.keys(providers)] with
    [providers[id]] is read as the entries of [providers]. *)
Definition sync_provider (entry : string * CredentialsId) : M unit :=
  let '(id, c) := entry in
  existing <- getProfile id ;;
  match existing with
  | Missing =>
      if negb (String.prefix "sso:" id)
      then addProfile id (IamUnknown (mkUnknown (credentialTypeId c) None)) ;;; ret tt
      else ret tt
  | Inherited | Own _ => ret tt
  end.

(** [providers] is the result of [manager.getCredentialProviderNames()];
    the result lists the calls of [manager.removeProvider]. *)
Definition loadIamProfilesIntoStore (providers : gmap string CredentialsId)
    : M (list CredentialsId) :=
  entries <- listProfiles ;;
  removed <- fold_of entries (sync_stored providers) [] ;;
  for_of (object_entries CredentialsId providers) sync_provider ;;;
  ret removed.

(** *** Linked-profile discovery *)

(** The zero-result diagnostic after the loop. *)
Definition diagnose (ssoProfile : SsoProfile) (accounts found : JsSet.t) : M unit :=
  if negb (hasOtherScopes ssoProfile)
     && (Nat.eqb (JsSet.size accounts) 0 || Nat.eqb (JsSet.size found) 0)
  then
    let org := truncateStartUrl (startUrl ssoProfile) in
    (if Nat.eqb (JsSet.size accounts) 0 then warn (WarnNoAccounts org)
     else if Nat.eqb (JsSet.size found) 0 then warn (WarnNoRoles org (join "," accounts))
     else ret tt) ;;;
    warnOnce (no_roles_message org) getting_started_url
  else ret tt.

(** Is an entry of the store a stale reference of the session? *)
Definition stale (sourceId : string) (found : JsSet.t) (id : string) (p : StoredProfile) : bool :=
  match profile p with
  | IamLinked l => bool_decide (ssoSession l = sourceId) && negb (JsSet.has found id)
  | _ => false
  end.

(** The clean-up loop at the end of the generator. *)
Definition cleanup (sourceId : string) (found : JsSet.t) : M unit :=
  entries <- listProfiles ;;
  for_of entries
    (fun '(id, p) => if stale sourceId found id p then deleteProfile id else ret tt).

(** The generator from where it is suspended to its next [yield] or to its
    end: the [for await] loop over what is left of the stream, then the
    diagnostic and the clean-up. *)
Fixpoint resume (sourceId : string) (ssoProfile : SsoProfile)
    (pending : list StreamItem) (accounts found : JsSet.t) : M Step :=
  match pending with
  | [] =>
      diagnose ssoProfile accounts found ;;;
      cleanup sourceId found ;;;
      ret (Done accounts found)
  | AccountSeen a :: rest =>
      resume sourceId ssoProfile rest (JsSet.add a accounts) found
  | Role info :: rest =>
      let id := linkedId sourceId info in
      let found' := JsSet.add id found in
      existing <- getProfile id ;;
      match existing with
      | Own _ | Inherited => resume sourceId ssoProfile rest accounts found'
      | Missing =>
          p <- addProfile id (linkedProfile sourceId info) ;;
          ret (Yield id p (mkGenerator sourceId ssoProfile rest accounts found'))
      end
  end.

Definition loadLinkedProfilesIntoStore (sourceId : string) (ssoProfile : SsoProfile)
    (client : SsoClient) : Generator :=
  mkGenerator sourceId ssoProfile (role_stream client) JsSet.empty JsSet.empty.

(** [generator.next()] *)
Definition next (g : Generator) : M Step :=
  resume (g_sourceId g) (g_ssoProfile g) (g_pending g) (g_accounts g) (g_found g).

(** A consumer that asks for at most [k] items with [next()] and then
    abandons the generator ([return()] on a generator suspended at a
    [yield] runs nothing more of its body). The result is what was yielded
    and, when the generator ran to its end, the sets it ended with. *)
Fixpoint consume (k : nat) (g : Generator)
    : M (list (string * StoredProfile) * option (JsSet.t * JsSet.t)) :=
  match k with
  | 0 => ret ([], None)
  | S k' =>
      step <- next g ;;
      match step with
      | Done accounts found => ret ([], Some (accounts, found))
      | Yield id p rest =>
          r <- consume k' rest ;;
          ret ((id, p) :: fst r, snd r)
      end
  end.

(** A consumer that drains the generator: no more than one [next()] per
    item of the stream and one more are needed. *)
Definition drain (g : Generator)
    : M (list (string * StoredProfile) * option (JsSet.t * JsSet.t)) :=
  consume (S (length (g_pending g))) g.


(** ** Observations used in the statements *)

(** The events a computation adds to the sink when run from [w]. *)
Definition emitted_by {A} (c : M A) (w : World) : list AuthModifyConnection :=
  drop (length (emitted w)) (emitted (snd (c w))).

Definition is_succeeded (e : AuthModifyConnection) : bool :=
  match result e with
  | Succeeded => true
  | Failed => false
  end.

(** The number of [Succeeded] events in a list of events. *)
Definition succeeded_count (l : list AuthModifyConnection) : nat :=
  length (filter (fun e => is_succeeded e = true) l).

(** Is [(id, cs)] the pair recorded at the last [Succeeded] emission of
    [getProfileOrThrow]? *)
Definition deduplicated (w : World) (id : string) (cs : ConnectionState) : bool :=
  bool_decide (prevGetProfile w = Some (id, cs)).

(** The loop of the discovery on a map of profiles: a role whose id is
    stored is skipped, any other is added. *)
Definition discover_map (sourceId : string) (infos : list RoleInfo)
    (m : gmap string StoredProfile) : gmap string StoredProfile :=
  fold_left
    (fun m info =>
       match m !! linkedId sourceId info with
       | Some _ => m
       | None => <[linkedId sourceId info := initMetadata (linkedProfile sourceId info)]> m
       end)
    infos m.

(** The pairs the loop yields, in order. *)
Fixpoint discover_yields (sourceId : string) (infos : list RoleInfo)
    (m : gmap string StoredProfile) : list (string * StoredProfile) :=
  match infos with
  | [] => []
  | info :: infos' =>
      let id := linkedId sourceId info in
      let p := initMetadata (linkedProfile sourceId info) in
      match m !! id with
      | Some _ => discover_yields sourceId infos' m
      | None => (id, p) :: discover_yields sourceId infos' (<[id := p]> m)
      end
  end.

(** The set [found] after the loop. *)
Definition discover_found (sourceId : string) (infos : list RoleInfo)
    (found : JsSet.t) : JsSet.t :=
  fold_left (fun f info => JsSet.add (linkedId sourceId info) f) infos found.

(** The set [accounts] after the loop. *)
Definition discover_accounts (accts : list string) (accounts : JsSet.t) : JsSet.t :=
  fold_left (fun s a => JsSet.add a s) accts accounts.

(** One step of a loop that deletes the entries of a snapshot chosen by [P]. *)
Definition delete_if (P : string -> StoredProfile -> bool)
    (m : gmap string StoredProfile) (kv : string * StoredProfile) : gmap string StoredProfile :=
  if P kv.1 kv.2 then delete kv.1 m else m.

(** The entries of a map that [P] does not choose. *)
Definition keep_unless (P : string -> StoredProfile -> bool)
    (m : gmap string StoredProfile) : gmap string StoredProfile :=
  filter (fun kv => P kv.1 kv.2 = false) m.

(** A map of profiles without the stale references of a session. *)
Definition cleaned (sourceId : string) (found : JsSet.t)
    (m : gmap string StoredProfile) : gmap string StoredProfile :=
  keep_unless (stale sourceId found) m.

(** Does [m] hold an [sso] profile under [id]? *)
Definition has_sso (m : gmap string StoredProfile) (id : string) : bool :=
  match m !! id with
  | Some s => bool_decide (type (profile s) = type_sso)
  | None => false
  end.

(** The entries the first loop of [loadIamProfilesIntoStore] deletes. *)
Definition doomed (m : gmap string StoredProfile) (providers : gmap string CredentialsId)
    (id : string) (p : StoredProfile) : bool :=
  match profile p with
  | Sso _ => false
  | IamLinked l => negb (has_sso m (ssoSession l))
  | IamUnknown _ => bool_decide (providers !! id = None) && negb (inherited id)
  end.

(** What the zero-result diagnostic logs. *)
Definition diagnostic_log (ssoProfile : SsoProfile) (accounts found : JsSet.t) : list LogEntry :=
  if negb (hasOtherScopes ssoProfile)
  then
    if Nat.eqb (JsSet.size accounts) 0
    then [WarnNoAccounts (truncateStartUrl (startUrl ssoProfile))]
    else if Nat.eqb (JsSet.size found) 0
         then [WarnNoRoles (truncateStartUrl (startUrl ssoProfile)) (join "," accounts)]
         else []
  else [].

(** Does the zero-result diagnostic ask for the pop-up warning? *)
Definition diagnostic_due (ssoProfile : SsoProfile) (accounts found : JsSet.t) : bool :=
  negb (hasOtherScopes ssoProfile)
  && (Nat.eqb (JsSet.size accounts) 0 || Nat.eqb (JsSet.size found) 0).

(** The pop-up of a session. *)
Definition diagnostic_popup (ssoProfile : SsoProfile) : string * string :=
  (no_roles_message (truncateStartUrl (startUrl ssoProfile)), getting_started_url).

(** What the state outside the memento looks like after a reconciler step:
    the logger and the pop-ups are the same in [w] and [w']. *)
Definition same_diagnostics (w w' : World) : Prop :=
  logged w' = logged w /\ shown w' = shown w /\ warnOnce_prev w' = warnOnce_prev w.

(** What the pop-up cell and the list of shown messages are after [warnOnce]
    was asked to show [popup] (when [due]) in a world [w]. *)
Definition shown_after (due : bool) (popup : string * string) (w : World)
    : list (string * string) :=
  if due && negb (bool_decide (warnOnce_prev w = Some popup))
  then shown w ++ [popup]
  else shown w.

Definition warnOnce_prev_after (due : bool) (popup : string * string) (w : World)
    : option (string * string) :=
  if due then Some popup else warnOnce_prev w.

(** A [next()] that yields [(id, p)] from [w], leaving [rest] and [w']. *)
Definition yield_post (sourceId : string) (ssoProfile : SsoProfile)
    (pending : list StreamItem) (accounts found : JsSet.t) (w : World)
    (id : string) (p : StoredProfile) (rest : Generator) (w' : World) : Prop :=
  g_sourceId rest = sourceId
  /\ g_ssoProfile rest = ssoProfile
  /\ length (g_pending rest) < length pending
  /\ auth_profiles w !! id = None
  /\ auth_profiles w' = <[id := p]> (auth_profiles w)
  /\ discover_map sourceId (stream_roles pending) (auth_profiles w)
     = discover_map sourceId (stream_roles (g_pending rest)) (auth_profiles w')
  /\ discover_yields sourceId (stream_roles pending) (auth_profiles w)
     = (id, p) :: discover_yields sourceId (stream_roles (g_pending rest)) (auth_profiles w')
  /\ discover_found sourceId (stream_roles pending) found
     = discover_found sourceId (stream_roles (g_pending rest)) (g_found rest)
  /\ discover_accounts (stream_accounts pending) accounts
     = discover_accounts (stream_accounts (g_pending rest)) (g_accounts rest)
  /\ same_diagnostics w w'.

(** A [next()] that runs the generator from [w] to its end in [w']. *)
Definition done_post (sourceId : string) (ssoProfile : SsoProfile)
    (pending : list StreamItem) (accounts found : JsSet.t) (w : World)
    (accounts' found' : JsSet.t) (w' : World) : Prop :=
  accounts' = discover_accounts (stream_accounts pending) accounts
  /\ found' = discover_found sourceId (stream_roles pending) found
  /\ discover_map sourceId (stream_roles pending) (auth_profiles w) = auth_profiles w
  /\ discover_yields sourceId (stream_roles pending) (auth_profiles w) = []
  /\ auth_profiles w' = cleaned sourceId found' (auth_profiles w)
  /\ logged w' = logged w ++ diagnostic_log ssoProfile accounts' found'
  /\ shown w'
     = shown_after (diagnostic_due ssoProfile accounts' found') (diagnostic_popup ssoProfile) w
  /\ warnOnce_prev w'
     = warnOnce_prev_after (diagnostic_due ssoProfile accounts' found')
         (diagnostic_popup ssoProfile) w.

(** What a consumer has seen and done when it leaves the generator [g],
    started in [w], in [w']: either it abandoned the generator at a [yield]
    ([fin = None]), or the generator ran to its end with the sets [fin]. *)
Definition consume_post (g : Generator) (w : World)
    (ys : list (string * StoredProfile)) (fin : option (JsSet.t * JsSet.t)) (w' : World) : Prop :=
  match fin with
  | None =>
      auth_profiles w ⊆ auth_profiles w' /\ same_diagnostics w w'
  | Some (accounts', found') =>
      ys = discover_yields (g_sourceId g) (stream_roles (g_pending g)) (auth_profiles w)
      /\ accounts' = discover_accounts (stream_accounts (g_pending g)) (g_accounts g)
      /\ found' = discover_found (g_sourceId g) (stream_roles (g_pending g)) (g_found g)
      /\ auth_profiles w'
         = cleaned (g_sourceId g) found'
             (discover_map (g_sourceId g) (stream_roles (g_pending g)) (auth_profiles w))
      /\ logged w' = logged w ++ diagnostic_log (g_ssoProfile g) accounts' found'
      /\ shown w'
         = shown_after (diagnostic_due (g_ssoProfile g) accounts' found')
             (diagnostic_popup (g_ssoProfile g)) w
      /\ warnOnce_prev w'
         = warnOnce_prev_after (diagnostic_due (g_ssoProfile g) accounts' found')
             (diagnostic_popup (g_ssoProfile g)) w
  end.

(** [m] is [m0] without some of its [iam] profiles. *)
Definition only_iam_deleted (m0 m : gmap string StoredProfile) : Prop :=
  forall id,
    m !! id = m0 !! id
    \/ (m !! id = None /\ exists p, m0 !! id = Some p /\ type (profile p) = type_iam).

(** ** Scope predicates *)

Lemma includes_true (l : list string) (s : string) : includes l s = true <-> s ∈ l.
Proof. unfold includes. rewrite bool_decide_eq_true. reflexivity. Qed.

Lemma every_includes (l required : list string) :
  forallb (fun s => includes l s) required = true <-> (forall s, s ∈ required -> s ∈ l).
Proof.
  rewrite forallb_forall. split; intros H s Hs.
  - apply includes_true, H, list_elem_of_In, Hs.
  - apply includes_true, H, list_elem_of_In, Hs.
Qed.

Lemma hasScopes_subset (target : ScopeTarget) (required : list string) :
  hasScopes target required = true
  <-> (forall s, s ∈ required -> s ∈ default [] (target_scopes target)).
Proof.
  unfold hasScopes. destruct (target_scopes target) as [l|]; simpl.
  - apply every_includes.
  - destruct required as [|s r]; simpl.
    + split; [intros _ s Hs; inversion Hs | reflexivity].
    + split; [discriminate |].
      intros H. specialize (H s (list_elem_of_here s r)). inversion H.
Qed.

Lemma hasExactScopes_char (target : ScopeTarget) (required : list string) :
  hasExactScopes target required = true
  <-> length required = length (default [] (target_scopes target))
      /\ (forall s, s ∈ required -> s ∈ default [] (target_scopes target)).
Proof.
  unfold hasExactScopes. cbv zeta.
  rewrite andb_true_iff, Nat.eqb_eq, every_includes. reflexivity.
Qed.

(** C7. The scope collection of a target is the array itself when the
    target is an array, and the [scopes] of a profile or of a connection
    when these are there; it is empty when they are left out or [undefined].
    [hasExactScopes(target, scopes)] is true if and only if [scopes] and the
    target's collection have the same length and every element of [scopes]
    is in the collection; [hasScopes(target, scopes)] is true if and only if
    every element of [scopes] is in the collection. The three examples of
    the specification evaluate as it says, on an array, on a profile and on
    a connection with these scopes. *)
Theorem hasExactScopes_iff (target : ScopeTarget) (required : list string) :
  let collection :=
    match target with
    | TargetArray a => a
    | TargetProfile p =>
        match scopes p with
        | present l => l
        | absent | undefined => []
        end
    | TargetConnection c =>
        match scopes (sso_profile c) with
        | present l => l
        | absent | undefined => []
        end
    end in
  (hasExactScopes target required = true
   <-> length required = length collection
       /\ (forall s, s ∈ required -> s ∈ collection))
  /\ (hasScopes target required = true
      <-> (forall s, s ∈ required -> s ∈ collection))
  /\ hasExactScopes (TargetArray ["a"; "b"]) ["b"; "a"] = true
  /\ hasExactScopes (TargetArray ["a"; "b"]) ["a"] = false
  /\ hasScopes (TargetArray ["a"; "b"; "c"]) ["a"; "c"] = true
  /\ (forall region url,
        hasExactScopes (TargetProfile (mkSso region url (present ["a"; "b"]))) ["b"; "a"] = true
        /\ hasExactScopes (TargetProfile (mkSso region url (present ["a"; "b"]))) ["a"] = false
        /\ hasScopes (TargetProfile (mkSso region url (present ["a"; "b"; "c"]))) ["a"; "c"]
           = true
        /\ hasScopes (TargetProfile (mkSso region url absent)) ["a"] = false
        /\ hasScopes (TargetProfile (mkSso region url undefined)) ["a"] = false
        /\ hasExactScopes (TargetProfile (mkSso region url absent)) [] = true)
  /\ (forall id label region url,
        let connection l := TargetConnection (mkSsoConnection id label (mkSso region url l)) in
        hasExactScopes (connection (present ["a"; "b"])) ["b"; "a"] = true
        /\ hasExactScopes (connection (present ["a"; "b"])) ["a"] = false
        /\ hasScopes (connection (present ["a"; "b"; "c"])) ["a"; "c"] = true
        /\ hasScopes (connection absent) ["a"] = false).
Proof.
  cbv zeta.
  assert (Hcoll : default [] (target_scopes target)
                  = match target with
                    | TargetArray a => a
                    | TargetProfile p =>
                        match scopes p with
                        | present l => l
                        | absent | undefined => []
                        end
                    | TargetConnection c =>
                        match scopes (sso_profile c) with
                        | present l => l
                        | absent | undefined => []
                        end
                    end).
  { destruct target as [a|p|c]; cbn [target_scopes]; [reflexivity | |].
    - destruct (scopes p); reflexivity.
    - destruct (scopes (sso_profile c)); reflexivity. }
  rewrite <- Hcoll.
  split; [apply hasExactScopes_char |]. split; [apply hasScopes_subset |].
  repeat split; reflexivity.
Qed.

(** ** The profile store *)

Lemma js_get_own {A} (obj : gmap string A) (key : string) (a : A) :
  obj !! key = Some a -> js_get obj key = Own a.
Proof. intros H. unfold js_get. rewrite H. reflexivity. Qed.

(** No member of [Object.prototype] has a name that starts with [s]. *)
Lemma inherited_s (rest : string) :
  inherited (String (Ascii.ascii_of_nat 115) rest) = false.
Proof.
  apply bool_decide_eq_false_2. unfold object_prototype_names.
  rewrite !elem_of_cons, elem_of_nil.
  intros H. repeat (destruct H as [H|H]; [discriminate H |]). exact H.
Qed.

(** The ids the discovery makes start with [sso:]. *)
Lemma inherited_linkedId (sourceId : string) (info : RoleInfo) :
  inherited (linkedId sourceId info) = false.
Proof. apply (inherited_s ("so:" +:+ sourceId +:+ "#" +:+ linkedName info)). Qed.

Lemma getProfile_eq (id : string) (w : World) :
  getProfile id w = (Ok (js_get (auth_profiles w) id), w).
Proof. reflexivity. Qed.

Lemma putProfile_eq (id : string) (p : StoredProfile) (w : World) :
  putProfile id p w = (Ok p, set_profiles (<[id := p]> (auth_profiles w)) w).
Proof. reflexivity. Qed.

Lemma addProfile_eq (id : string) (p : Profile) (w : World) :
  addProfile id p w
  = (Ok (initMetadata p),
     push_event
       (mkEvent "addProfile" id Succeeded (getTelemetryForProfile (Some (initMetadata p))) None)
       (set_profiles (<[id := initMetadata p]> (auth_profiles w)) w)).
Proof. reflexivity. Qed.

(** [deleteProfile(id)] returns unless [id] is not stored and names an
    inherited member. *)
Lemma deleteProfile_eq (id : string) (w : World) :
  (auth_profiles w !! id = None -> inherited id = false) ->
  deleteProfile id w
  = (Ok tt,
     push_event
       (mkEvent "deleteProfile" id Succeeded (getTelemetryForProfile (auth_profiles w !! id)) None)
       (set_profiles (delete id (auth_profiles w)) w)).
Proof.
  intros H. unfold deleteProfile, run_span, bind, getData, gets, js_get.
  destruct (auth_profiles w !! id) as [p|]; [reflexivity |].
  rewrite H by reflexivity. reflexivity.
Qed.

Lemma deleteProfile_inherited (id : string) (w : World) :
  auth_profiles w !! id = None ->
  inherited id = true ->
  deleteProfile id w
  = (Err TypeError, push_event (mkEvent "deleteProfile" id Failed no_telemetry (Some TypeError)) w).
Proof.
  intros H Hi. unfold deleteProfile, run_span, bind, getData, gets, js_get.
  rewrite H, Hi. reflexivity.
Qed.

Lemma getProfileOrThrow_miss (id : string) (w : World) :
  auth_profiles w !! id = None ->
  inherited id = false ->
  getProfileOrThrow id w
  = (Err (ProfileNotFoundError id),
     push_event (mkEvent "getProfile" id Failed no_telemetry (Some (ProfileNotFoundError id))) w).
Proof.
  intros H Hi. unfold getProfileOrThrow, bind. rewrite getProfile_eq.
  unfold js_get. rewrite H, Hi. reflexivity.
Qed.

Lemma getProfileOrThrow_inherited (id : string) (w : World) :
  auth_profiles w !! id = None ->
  inherited id = true ->
  getProfileOrThrow id w = (Err TypeError, w).
Proof.
  intros H Hi. unfold getProfileOrThrow, bind. rewrite getProfile_eq.
  unfold js_get. rewrite H, Hi. reflexivity.
Qed.

Lemma getProfileOrThrow_hit (id : string) (p : StoredProfile) (w : World) :
  auth_profiles w !! id = Some p ->
  getProfileOrThrow id w
  = (Ok p,
     if deduplicated w id (connectionState (metadata p)) then w
     else set_prevGetProfile (Some (id, connectionState (metadata p)))
            (push_event
               (mkEvent "getProfile" id Succeeded (getTelemetryForProfile (Some p)) None) w)).
Proof.
  intros H. unfold getProfileOrThrow, bind, deduplicated.
  rewrite getProfile_eq, (js_get_own _ _ _ H). cbn [gets].
  destruct (prevGetProfile w) as [[i c]|]; cbn [fmap option_fmap option_map fst snd].
  - destruct (decide (i = id)) as [->|Hi].
    + destruct (decide (c = connectionState (metadata p))) as [->|Hc].
      * rewrite !bool_decide_eq_false_2 by (intros Hn; apply Hn; reflexivity).
        rewrite bool_decide_eq_true_2 by reflexivity. reflexivity.
      * rewrite (bool_decide_eq_true_2 (Some c ≠ _)) by congruence.
        rewrite orb_true_r.
        rewrite (bool_decide_eq_false_2 (Some (id, c) = _)) by congruence.
        reflexivity.
    + rewrite (bool_decide_eq_true_2 (Some i ≠ _)) by congruence.
      rewrite (bool_decide_eq_false_2 (Some (i, c) = _)) by congruence.
      reflexivity.
  - reflexivity.
Qed.

(** C3. For every id, profile [p] and state of the store, [addProfile(id, p)]
    returns, and [getProfile(id)] afterwards gives, the profile [p] together
    with the metadata [{ connectionState: 'unauthenticated' }] and nothing
    else (no label, no source). *)
Theorem getProfile_after_addProfile (id : string) (p : Profile) (w : World) :
  exists w',
    addProfile id p w = (Ok (mkStored p (mkMetadata absent unauthenticated absent)), w')
    /\ getProfile id w' = (Ok (Own (mkStored p (mkMetadata absent unauthenticated absent))), w').
Proof.
  eexists. split.
  - rewrite addProfile_eq. reflexivity.
  - rewrite getProfile_eq. cbn [auth_profiles push_event set_profiles].
    erewrite js_get_own by apply lookup_insert_eq. reflexivity.
Qed.

(** C10. When a profile is already stored under [id], [addProfile(id, p)]
    neither fails nor looks at it: it returns, the record under [id] is [p]
    with fresh metadata [{ connectionState: 'unauthenticated' }], whatever
    connection state, label and source were stored before, and every other
    record is as it was. *)
Theorem addProfile_overwrites (id : string) (p : Profile) (old : StoredProfile) (w : World) :
  auth_profiles w !! id = Some old ->
  exists w',
    addProfile id p w = (Ok (initMetadata p), w')
    /\ auth_profiles w' !! id = Some (mkStored p (mkMetadata absent unauthenticated absent))
    /\ auth_profiles w' = <[id := initMetadata p]> (auth_profiles w)
    /\ (forall id', id' ≠ id -> auth_profiles w' !! id' = auth_profiles w !! id').
Proof.
  intros _. eexists. split; [apply addProfile_eq |].
  cbn [auth_profiles push_event set_profiles]. split; [| split].
  - rewrite lookup_insert_eq. reflexivity.
  - reflexivity.
  - intros id' Hne. apply lookup_insert_ne. congruence.
Qed.

(** C4. When a profile is stored under [id] and [p] has the other
    discriminant type, [updateProfile(id, p)] throws the type-change error
    and the mapping of stored profiles, the record under [id] included, is
    what it was before the call. *)
Theorem updateProfile_type_mismatch (id : string) (p : Profile) (old : StoredProfile) (w : World) :
  auth_profiles w !! id = Some old ->
  type (profile old) ≠ type p ->
  exists w',
    updateProfile id p w = (Err (ProfileTypeMismatch (type (profile old)) (type p)), w')
    /\ auth_profiles w' = auth_profiles w
    /\ auth_profiles w' !! id = Some old.
Proof.
  intros Hold Hty. unfold updateProfile, run_span, bind.
  rewrite (getProfileOrThrow_hit id old w Hold).
  rewrite bool_decide_eq_true_2 by assumption. cbn [throw].
  eexists. split; [reflexivity |].
  destruct (deduplicated w id (connectionState (metadata old)));
    cbn [auth_profiles push_event set_prevGetProfile]; auto.
Qed.

Lemma emitted_by_nil {A} (c : M A) (w : World) :
  emitted (snd (c w)) = emitted w -> emitted_by c w = [].
Proof.
  intros H. unfold emitted_by. rewrite H. apply drop_all.
Qed.

Lemma emitted_by_one {A} (c : M A) (w : World) (e : AuthModifyConnection) :
  emitted (snd (c w)) = emitted w ++ [e] -> emitted_by c w = [e].
Proof.
  intros H. unfold emitted_by. rewrite H. apply drop_app_length.
Qed.

(** C5, where the code departs from it. When nothing is stored under [id]
    and [id] is the name of a member of [Object.prototype] (["constructor"],
    ["toString"], ...), the read [getData()[id]] finds that member, the test
    [profile === undefined] fails, and [getProfileOrThrow(id)] and
    [updateMetadata(id, m)] throw a [TypeError], not [ProfileNotFoundError],
    without a [Failed] event and without a change of state. *)
Theorem profile_not_found_inherited (id : string) (md : ProfileMetadata) (w : World) :
  auth_profiles w !! id = None ->
  id ∈ object_prototype_names ->
  getProfileOrThrow id w = (Err TypeError, w)
  /\ updateMetadata id md w = (Err TypeError, w)
  /\ emitted_by (getProfileOrThrow id) w = []
  /\ fst (getProfileOrThrow id w) ≠ Err (ProfileNotFoundError id)
  /\ fst (updateMetadata id md w) ≠ Err (ProfileNotFoundError id).
Proof.
  intros Hnone Hin. apply (bool_decide_eq_true_2 _) in Hin. fold (inherited id) in Hin.
  unfold updateMetadata, bind.
  rewrite (getProfileOrThrow_inherited id w Hnone Hin). cbn [fst snd].
  repeat split; try discriminate. apply emitted_by_nil.
  rewrite (getProfileOrThrow_inherited id w Hnone Hin). reflexivity.
Qed.

(** X27. For every id, [getProfileOrThrow(id)] and [updateMetadata(id, m)]
    throw [ProfileNotFoundError] exactly when nothing is stored under [id]
    and [id] does not name a member of [Object.prototype]; the miss of
    [getProfileOrThrow] is first emitted as a [Failed] event. When a profile
    is stored, [getProfileOrThrow] returns it and [updateMetadata] returns
    and stores it with the connection state of [m]. *)
Theorem profile_not_found_iff (id : string) (md : ProfileMetadata) (w : World) :
  match auth_profiles w !! id with
  | None =>
      if bool_decide (id ∈ object_prototype_names)
      then fst (getProfileOrThrow id w) = Err TypeError
           /\ fst (updateMetadata id md w) = Err TypeError
      else fst (getProfileOrThrow id w) = Err (ProfileNotFoundError id)
           /\ fst (updateMetadata id md w) = Err (ProfileNotFoundError id)
           /\ emitted_by (getProfileOrThrow id) w
              = [mkEvent "getProfile" id Failed no_telemetry (Some (ProfileNotFoundError id))]
  | Some p =>
      fst (getProfileOrThrow id w) = Ok p
      /\ exists q,
           fst (updateMetadata id md w) = Ok q
           /\ profile q = profile p
           /\ connectionState (metadata q) = connectionState md
           /\ auth_profiles (snd (updateMetadata id md w)) !! id = Some q
  end
  /\ (auth_profiles w !! id = None /\ id ∉ object_prototype_names
      <-> fst (getProfileOrThrow id w) = Err (ProfileNotFoundError id))
  /\ (auth_profiles w !! id = None /\ id ∉ object_prototype_names
      <-> fst (updateMetadata id md w) = Err (ProfileNotFoundError id)).
Proof.
  unfold updateMetadata, bind, emitted_by.
  destruct (auth_profiles w !! id) as [p|] eqn:Hp.
  - rewrite (getProfileOrThrow_hit id p w Hp). cbn [fst snd].
    rewrite putProfile_eq. cbn [fst snd auth_profiles set_profiles].
    rewrite lookup_insert_eq.
    split; [split; [reflexivity | eexists; repeat split] |].
    split; (split; [intros [H _]; discriminate | discriminate]).
  - destruct (bool_decide (id ∈ object_prototype_names)) eqn:Hin.
    + rewrite (getProfileOrThrow_inherited id w Hp Hin). cbn [fst snd].
      apply bool_decide_eq_true_1 in Hin.
      split; [split; reflexivity |].
      split; (split; [intros [_ H]; contradiction | discriminate]).
    + rewrite (getProfileOrThrow_miss id w Hp Hin). cbn [fst snd emitted push_event].
      rewrite drop_app_length. apply bool_decide_eq_false_1 in Hin.
      repeat split; auto.
Qed.

(** C6, as the code has it. When a profile is stored under [id], two calls
    of [getProfileOrThrow(id)] in succession return it twice and emit at
    most one [Succeeded] event: one, by the first call, when the pair of
    [id] and the connection state differs from the pair recorded at the
    last [Succeeded] emission (or none is recorded), and none when it is
    that pair. The second call never emits. *)
Theorem getProfileOrThrow_twice (id : string) (p : StoredProfile) (w : World) :
  auth_profiles w !! id = Some p ->
  fst ((getProfileOrThrow id ;;; getProfileOrThrow id) w) = Ok p
  /\ emitted_by (getProfileOrThrow id ;;; getProfileOrThrow id) w
     = (if deduplicated w id (connectionState (metadata p)) then []
        else [mkEvent "getProfile" id Succeeded (getTelemetryForProfile (Some p)) None])
  /\ succeeded_count (emitted_by (getProfileOrThrow id ;;; getProfileOrThrow id) w)
     = (if deduplicated w id (connectionState (metadata p)) then 0 else 1)
  /\ emitted_by (getProfileOrThrow id) (snd (getProfileOrThrow id w)) = [].
Proof.
  intros Hp.
  pose proof (getProfileOrThrow_hit id p w Hp) as H1.
  destruct (deduplicated w id (connectionState (metadata p))) eqn:Hd.
  - assert (H2 : (getProfileOrThrow id ;;; getProfileOrThrow id) w = (Ok p, w))
      by (unfold bind; rewrite H1; exact H1).
    unfold emitted_by. rewrite H2, H1. cbn [fst snd].
    rewrite H1. cbn [snd]. rewrite drop_all. repeat split; reflexivity.
  - set (e := mkEvent "getProfile" id Succeeded (getTelemetryForProfile (Some p)) None) in *.
    set (w1 := set_prevGetProfile (Some (id, connectionState (metadata p))) (push_event e w)) in *.
    assert (Hd1 : deduplicated w1 id (connectionState (metadata p)) = true)
      by (apply bool_decide_eq_true_2; reflexivity).
    pose proof (getProfileOrThrow_hit id p w1 Hp) as H1'. rewrite Hd1 in H1'.
    assert (H2 : (getProfileOrThrow id ;;; getProfileOrThrow id) w = (Ok p, w1))
      by (unfold bind; rewrite H1; exact H1').
    unfold emitted_by. rewrite H2, H1. cbn [fst snd]. rewrite H1'. cbn [snd].
    change (emitted w1) with (emitted w ++ [e]).
    rewrite drop_app_length, drop_all. repeat split; reflexivity.
Qed.

(** ** Enumeration of an object *)

Lemma object_entries_lookup {A : Type} (m : gmap string A) (id : string) (x : A) :
  (id, x) ∈ object_entries A m <-> m !! id = Some x.
Proof using object_entries_perm.
  rewrite (object_entries_perm A m). apply elem_of_map_to_list.
Qed.

Lemma object_entries_NoDup {A : Type} (m : gmap string A) :
  NoDup (object_entries A m).*1.
Proof using object_entries_perm.
  rewrite (object_entries_perm A m). apply NoDup_fst_map_to_list.
Qed.

(** ** The clean-up loop *)

Lemma same_diagnostics_refl (w : World) : same_diagnostics w w.
Proof. repeat split. Qed.

Lemma same_diagnostics_trans (w1 w2 w3 : World) :
  same_diagnostics w1 w2 -> same_diagnostics w2 w3 -> same_diagnostics w1 w3.
Proof.
  intros (A1 & A2 & A3) (B1 & B2 & B3). repeat split; congruence.
Qed.

Lemma fold_delete_if_none (P : string -> StoredProfile -> bool) (id : string)
    (l : list (string * StoredProfile)) :
  forall m, m !! id = None -> fold_left (delete_if P) l m !! id = None.
Proof.
  induction l as [|[k q] l IH]; intros m Hm; [exact Hm |].
  cbn [fold_left]. apply IH. unfold delete_if. cbn [fst snd].
  destruct (P k q); [| exact Hm].
  rewrite lookup_delete. case_decide; [reflexivity | exact Hm].
Qed.

Lemma fold_delete_if_hit (P : string -> StoredProfile -> bool) (id : string)
    (l : list (string * StoredProfile)) :
  forall m,
    (exists p, (id, p) ∈ l /\ P id p = true) ->
    fold_left (delete_if P) l m !! id = None.
Proof.
  induction l as [|[k q] l IH]; intros m (p & Hin & Hp).
  - inversion Hin.
  - cbn [fold_left]. apply elem_of_cons in Hin as [Heq|Hin].
    + injection Heq as <- <-. apply fold_delete_if_none.
      unfold delete_if. cbn [fst snd]. rewrite Hp. apply lookup_delete_eq.
    + apply IH. exists p. split; assumption.
Qed.

Lemma fold_delete_if_miss (P : string -> StoredProfile -> bool) (id : string)
    (l : list (string * StoredProfile)) :
  forall m,
    (forall p, (id, p) ∈ l -> P id p = false) ->
    fold_left (delete_if P) l m !! id = m !! id.
Proof.
  induction l as [|[k q] l IH]; intros m Hall.
  - reflexivity.
  - cbn [fold_left]. rewrite IH.
    + unfold delete_if. cbn [fst snd].
      destruct (P k q) eqn:Hs; [| reflexivity].
      apply lookup_delete_ne. intros ->.
      rewrite (Hall q) in Hs; [discriminate | apply list_elem_of_here].
    + intros p Hp. apply Hall. apply list_elem_of_further, Hp.
Qed.

Lemma keep_unless_lookup (P : string -> StoredProfile -> bool)
    (m : gmap string StoredProfile) (id : string) :
  keep_unless P m !! id
  = match m !! id with
    | Some p => if P id p then None else Some p
    | None => None
    end.
Proof.
  unfold keep_unless. destruct (m !! id) as [p|] eqn:Hm.
  - destruct (P id p) eqn:Hs.
    + apply map_lookup_filter_None_2. right. intros x Hx. cbn [fst snd].
      rewrite Hm in Hx. injection Hx as <-. rewrite Hs. discriminate.
    + apply map_lookup_filter_Some_2; [exact Hm | exact Hs].
  - apply map_lookup_filter_None_2. left. exact Hm.
Qed.

(** A loop over the entries of a map that deletes those chosen by [P] leaves
    the others, in whatever order the entries come. *)
Lemma fold_delete_if_entries (P : string -> StoredProfile -> bool)
    (m : gmap string StoredProfile) :
  fold_left (delete_if P) (object_entries StoredProfile m) m = keep_unless P m.
Proof using object_entries_perm.
  apply map_eq. intros id. rewrite keep_unless_lookup.
  destruct (m !! id) as [p|] eqn:Hm.
  - destruct (P id p) eqn:Hs.
    + apply fold_delete_if_hit. exists p.
      split; [apply object_entries_lookup, Hm | exact Hs].
    + rewrite fold_delete_if_miss; [exact Hm |].
      intros q Hq. apply object_entries_lookup in Hq.
      rewrite Hm in Hq. injection Hq as <-. exact Hs.
  - rewrite fold_delete_if_miss; [exact Hm |].
    intros q Hq. apply object_entries_lookup in Hq. congruence.
Qed.

Lemma cleaned_lookup (sourceId : string) (found : JsSet.t)
    (m : gmap string StoredProfile) (id : string) :
  cleaned sourceId found m !! id
  = match m !! id with
    | Some p => if stale sourceId found id p then None else Some p
    | None => None
    end.
Proof. apply keep_unless_lookup. Qed.

(** A loop over a snapshot of the entries deletes own keys only, each once,
    so no [deleteProfile] in it throws. *)
Lemma cleanup_loop (sourceId : string) (found : JsSet.t) (l : list (string * StoredProfile)) :
  forall w,
    NoDup l.*1 ->
    (forall id, id ∈ l.*1 -> is_Some (auth_profiles w !! id)) ->
    exists w',
      for_of l (fun '(id, p) => if stale sourceId found id p then deleteProfile id else ret tt) w
      = (Ok tt, w')
      /\ auth_profiles w' = fold_left (delete_if (stale sourceId found)) l (auth_profiles w)
      /\ same_diagnostics w w'.
Proof.
  induction l as [|[id p] l IH]; intros w Hnd Hown.
  - exists w. repeat split.
  - cbn [fmap list_fmap fst] in Hnd, Hown. apply NoDup_cons in Hnd as [Hfresh Hnd].
    cbn [for_of fold_left]. unfold bind, delete_if at 2. cbn [fst snd].
    destruct (stale sourceId found id p).
    + rewrite deleteProfile_eq.
      2:{ intros Hnone. destruct (Hown id (list_elem_of_here _ _)) as [q Hq]. congruence. }
      destruct (IH (push_event
                      (mkEvent "deleteProfile" id Succeeded
                         (getTelemetryForProfile (auth_profiles w !! id)) None)
                      (set_profiles (delete id (auth_profiles w)) w)) Hnd)
        as (w' & Hrun & Hmap & Hd).
      { intros id' Hin. cbn [auth_profiles push_event set_profiles].
        rewrite lookup_delete_ne by (intros ->; contradiction).
        apply Hown, list_elem_of_further, Hin. }
      exists w'. split; [exact Hrun |]. split; [exact Hmap | exact Hd].
    + cbn [ret]. apply IH; [exact Hnd |].
      intros id' Hin. apply Hown, list_elem_of_further, Hin.
Qed.

Lemma cleanup_eq (sourceId : string) (found : JsSet.t) (w : World) :
  exists w',
    cleanup sourceId found w = (Ok tt, w')
    /\ auth_profiles w' = cleaned sourceId found (auth_profiles w)
    /\ same_diagnostics w w'.
Proof using object_entries_perm.
  unfold cleanup, listProfiles, bind. cbn [getData gets ret].
  destruct (cleanup_loop sourceId found (object_entries StoredProfile (auth_profiles w)) w)
    as (w' & Hrun & Hmap & Hd).
  { apply object_entries_NoDup. }
  { intros id Hin. apply list_elem_of_fmap in Hin as ([k q] & -> & Hin).
    apply object_entries_lookup in Hin. eauto. }
  exists w'. split; [exact Hrun |]. split; [| exact Hd].
  rewrite Hmap. unfold cleaned. apply fold_delete_if_entries.
Qed.

(** ** The discovery generator *)

Lemma warnOnce_eq (msg url : string) (w : World) :
  warnOnce msg url w
  = (Ok tt, if bool_decide (warnOnce_prev w = Some (msg, url)) then w else push_shown msg url w).
Proof.
  unfold warnOnce, bind, gets.
  destruct (bool_decide (warnOnce_prev w = Some (msg, url))); reflexivity.
Qed.

Lemma warnOnce_after (msg url : string) (w0 w : World) :
  shown w = shown w0 ->
  warnOnce_prev w = warnOnce_prev w0 ->
  shown (snd (warnOnce msg url w)) = shown_after true (msg, url) w0
  /\ warnOnce_prev (snd (warnOnce msg url w)) = warnOnce_prev_after true (msg, url) w0.
Proof.
  intros Hs Hp. rewrite warnOnce_eq. unfold shown_after, warnOnce_prev_after.
  cbn [snd andb]. rewrite Hp.
  destruct (bool_decide (warnOnce_prev w0 = Some (msg, url))) eqn:Hd; cbn [negb].
  - apply bool_decide_eq_true_1 in Hd. split; congruence.
  - cbn [shown warnOnce_prev push_shown]. split; congruence.
Qed.

Lemma diagnose_eq (ssoProfile : SsoProfile) (accounts found : JsSet.t) (w : World) :
  exists w',
    diagnose ssoProfile accounts found w = (Ok tt, w')
    /\ auth_profiles w' = auth_profiles w
    /\ logged w' = logged w ++ diagnostic_log ssoProfile accounts found
    /\ shown w'
       = shown_after (diagnostic_due ssoProfile accounts found) (diagnostic_popup ssoProfile) w
    /\ warnOnce_prev w'
       = warnOnce_prev_after (diagnostic_due ssoProfile accounts found)
           (diagnostic_popup ssoProfile) w.
Proof.
  assert (Hwarn : forall entry,
    exists w',
      (warn entry ;;;
       warnOnce (no_roles_message (truncateStartUrl (startUrl ssoProfile))) getting_started_url) w
      = (Ok tt, w')
      /\ auth_profiles w' = auth_profiles w
      /\ logged w' = logged w ++ [entry]
      /\ shown w' = shown_after true (diagnostic_popup ssoProfile) w
      /\ warnOnce_prev w' = warnOnce_prev_after true (diagnostic_popup ssoProfile) w).
  { intros entry. unfold bind, warn, modify.
    destruct (warnOnce_after (no_roles_message (truncateStartUrl (startUrl ssoProfile)))
                getting_started_url w (push_log entry w) eq_refl eq_refl) as [Hs Hp].
    rewrite warnOnce_eq in *. eexists. split; [reflexivity |].
    split; [| split; [| split; [exact Hs | exact Hp]]].
    - destruct (bool_decide _); reflexivity.
    - destruct (bool_decide _); reflexivity. }
  unfold diagnose, diagnostic_log, diagnostic_due.
  destruct (hasOtherScopes ssoProfile); cbn [negb andb].
  - exists w. rewrite app_nil_r. repeat split.
  - destruct (Nat.eqb (JsSet.size accounts) 0) eqn:Ha; cbn [orb].
    + apply Hwarn.
    + destruct (Nat.eqb (JsSet.size found) 0) eqn:Hf.
      * apply Hwarn.
      * exists w. rewrite app_nil_r. repeat split.
Qed.

Lemma stream_roles_account (a : string) (rest : list StreamItem) :
  stream_roles (AccountSeen a :: rest) = stream_roles rest.
Proof. reflexivity. Qed.

Lemma stream_roles_role (info : RoleInfo) (rest : list StreamItem) :
  stream_roles (Role info :: rest) = info :: stream_roles rest.
Proof. reflexivity. Qed.

Lemma stream_accounts_account (a : string) (rest : list StreamItem) :
  stream_accounts (AccountSeen a :: rest) = a :: stream_accounts rest.
Proof. reflexivity. Qed.

Lemma stream_accounts_role (info : RoleInfo) (rest : list StreamItem) :
  stream_accounts (Role info :: rest) = stream_accounts rest.
Proof. reflexivity. Qed.

Lemma discover_map_stored (sourceId : string) (info : RoleInfo) (infos : list RoleInfo)
    (m : gmap string StoredProfile) (q : StoredProfile) :
  m !! linkedId sourceId info = Some q ->
  discover_map sourceId (info :: infos) m = discover_map sourceId infos m
  /\ discover_yields sourceId (info :: infos) m = discover_yields sourceId infos m.
Proof.
  intros H. unfold discover_map. cbn [fold_left discover_yields]. rewrite H. split; reflexivity.
Qed.

Lemma discover_map_new (sourceId : string) (info : RoleInfo) (infos : list RoleInfo)
    (m : gmap string StoredProfile) :
  m !! linkedId sourceId info = None ->
  discover_map sourceId (info :: infos) m
  = discover_map sourceId infos
      (<[linkedId sourceId info := initMetadata (linkedProfile sourceId info)]> m)
  /\ discover_yields sourceId (info :: infos) m
     = (linkedId sourceId info, initMetadata (linkedProfile sourceId info))
       :: discover_yields sourceId infos
            (<[linkedId sourceId info := initMetadata (linkedProfile sourceId info)]> m).
Proof.
  intros H. unfold discover_map. cbn [fold_left discover_yields]. rewrite H. split; reflexivity.
Qed.

Lemma discover_found_cons (sourceId : string) (info : RoleInfo) (infos : list RoleInfo)
    (found : JsSet.t) :
  discover_found sourceId (info :: infos) found
  = discover_found sourceId infos (JsSet.add (linkedId sourceId info) found).
Proof. reflexivity. Qed.

Lemma discover_accounts_cons (a : string) (accts : list string) (accounts : JsSet.t) :
  discover_accounts (a :: accts) accounts = discover_accounts accts (JsSet.add a accounts).
Proof. reflexivity. Qed.

Lemma resume_spec (sourceId : string) (ssoProfile : SsoProfile) (pending : list StreamItem) :
  forall (accounts found : JsSet.t) (w : World),
    (exists id p rest w',
        resume sourceId ssoProfile pending accounts found w = (Ok (Yield id p rest), w')
        /\ yield_post sourceId ssoProfile pending accounts found w id p rest w')
    \/ (exists accounts' found' w',
          resume sourceId ssoProfile pending accounts found w = (Ok (Done accounts' found'), w')
          /\ done_post sourceId ssoProfile pending accounts found w accounts' found' w').
Proof using object_entries_perm.
  induction pending as [|item rest IH]; intros accounts found w.
  - right. cbn [resume]. unfold bind.
    destruct (diagnose_eq ssoProfile accounts found w) as (w1 & Hdiag & Hm1 & Hl1 & Hs1 & Hp1).
    destruct (cleanup_eq sourceId found w1) as (w2 & Hclean & Hm2 & Hl2 & Hs2 & Hp2).
    rewrite Hdiag, Hclean. exists accounts, found, w2.
    split; [reflexivity |]. unfold done_post. cbn.
    repeat split; congruence.
  - destruct item as [a|info].
    + cbn [resume].
      destruct (IH (JsSet.add a accounts) found w)
        as [(id & p & g & w' & Hrun & Hpost)|(accounts' & found' & w' & Hrun & Hpost)].
      * left. exists id, p, g, w'. split; [exact Hrun |].
        unfold yield_post in *.
        rewrite stream_roles_account, stream_accounts_account, discover_accounts_cons.
        cbn [length].
           destruct Hpost as (H1 & H2 & Hlen & H4 & H5 & H6 & H7 & H8 & H9 & H10).
           repeat (split; [first [assumption | lia] |]). exact H10.
      * right. exists accounts', found', w'. split; [exact Hrun |].
        unfold done_post in *.
        rewrite stream_roles_account, stream_accounts_account, discover_accounts_cons.
        exact Hpost.
    + cbn [resume]. unfold bind. rewrite getProfile_eq.
      unfold js_get. rewrite inherited_linkedId.
      destruct (auth_profiles w !! linkedId sourceId info) as [q|] eqn:Hq.
      * destruct (discover_map_stored sourceId info (stream_roles rest) _ q Hq) as [Em Ey].
        destruct (IH accounts (JsSet.add (linkedId sourceId info) found) w)
          as [(id & p & g & w' & Hrun & Hpost)|(accounts' & found' & w' & Hrun & Hpost)].
        -- left. exists id, p, g, w'. split; [exact Hrun |].
           unfold yield_post in *.
           rewrite stream_roles_role, stream_accounts_role, discover_found_cons, Em, Ey.
           cbn [length].
           destruct Hpost as (H1 & H2 & Hlen & H4 & H5 & H6 & H7 & H8 & H9 & H10).
           repeat (split; [first [assumption | lia] |]). exact H10.
        -- right. exists accounts', found', w'. split; [exact Hrun |].
           unfold done_post in *.
           rewrite stream_roles_role, stream_accounts_role, discover_found_cons, Em, Ey.
           exact Hpost.
      * destruct (discover_map_new sourceId info (stream_roles rest) _ Hq) as [Em Ey].
        left. rewrite addProfile_eq. cbn [ret].
        eexists _, _, _, _. split; [reflexivity |].
        unfold yield_post.
        rewrite stream_roles_role, stream_accounts_role, discover_found_cons, Em, Ey.
        cbn [g_sourceId g_ssoProfile g_pending g_found g_accounts length
             auth_profiles push_event set_profiles].
        repeat split; try reflexivity; [lia | exact Hq].
Qed.

Lemma shown_after_same (due : bool) (popup : string * string) (w w1 : World) :
  same_diagnostics w w1 ->
  shown_after due popup w1 = shown_after due popup w
  /\ warnOnce_prev_after due popup w1 = warnOnce_prev_after due popup w.
Proof.
  intros (_ & Hs & Hp). unfold shown_after, warnOnce_prev_after. rewrite Hs, Hp.
  split; reflexivity.
Qed.

(** Every run of a consumer returns, with [consume_post]; a consumer that
    asks more often than the stream is long sees the generator end. *)
Lemma consume_spec (k : nat) :
  forall (g : Generator) (w : World),
    exists ys fin w',
      consume k g w = (Ok (ys, fin), w')
      /\ consume_post g w ys fin w'
      /\ (length (g_pending g) < k -> fin <> None).
Proof using object_entries_perm.
  induction k as [|k IH]; intros g w.
  - exists [], None, w. split; [reflexivity |]. split.
    + split; [reflexivity | apply same_diagnostics_refl].
    + lia.
  - cbn [consume]. unfold bind, next.
    destruct (resume_spec (g_sourceId g) (g_ssoProfile g) (g_pending g)
                (g_accounts g) (g_found g) w)
      as [(id & p & rest & w1 & Hrun & Hpost)|(accounts' & found' & w' & Hrun & Hpost)].
    + rewrite Hrun.
      destruct (IH rest w1) as (ys & fin & w' & Hrest & Hcons & Hfuel).
      rewrite Hrest. cbn [ret fst snd].
      exists ((id, p) :: ys), fin, w'. split; [reflexivity |].
      destruct Hpost as (HS & Hsso & Hlen & Hnone & Hins & Hmap & Hys & Hfound & Hacc & Hdiag).
      split; [| intros Hk; apply Hfuel; lia].
      unfold consume_post in *. destruct fin as [[accounts' found']|].
      * rewrite HS, Hsso in Hcons.
        destruct Hcons as (-> & -> & -> & Hm & Hl & Hs & Hp).
        destruct (shown_after_same
                    (diagnostic_due (g_ssoProfile g)
                       (discover_accounts (stream_accounts (g_pending rest)) (g_accounts rest))
                       (discover_found (g_sourceId g) (stream_roles (g_pending rest)) (g_found rest)))
                    (diagnostic_popup (g_ssoProfile g)) w w1 Hdiag) as [Es Ep].
        destruct Hdiag as (Hl1 & _ & _).
        rewrite Hys, Hacc, Hfound, Hmap.
        repeat split; congruence.
      * destruct Hcons as [Hsub Hd]. split.
        -- transitivity (auth_profiles w1); [| exact Hsub].
           rewrite Hins. apply insert_subseteq, Hnone.
        -- eapply same_diagnostics_trans; eassumption.
    + rewrite Hrun. cbn [ret].
      exists [], (Some (accounts', found')), w'. split; [reflexivity |].
      split; [| discriminate].
      destruct Hpost as (-> & -> & Hmap & Hys & Hm & Hl & Hs & Hp).
      unfold consume_post. rewrite Hmap, Hys. repeat split; assumption.
Qed.

(** Draining returns, and the generator has then run to its end. *)
Lemma drain_completes (g : Generator) (w : World) :
  exists ys accounts' found' w',
    drain g w = (Ok (ys, Some (accounts', found')), w')
    /\ consume_post g w ys (Some (accounts', found')) w'.
Proof using object_entries_perm.
  unfold drain.
  destruct (consume_spec (S (length (g_pending g))) g w) as (ys & fin & w' & Hrun & Hpost & Hfuel).
  destruct fin as [[accounts' found']|]; [| exfalso; apply Hfuel; [lia | reflexivity]].
  exists ys, accounts', found', w'. split; assumption.
Qed.

(** The same facts for a run that is given. *)
Lemma consume_inv (k : nat) (g : Generator) (w w' : World)
    (ys : list (string * StoredProfile)) (fin : option (JsSet.t * JsSet.t)) :
  consume k g w = (Ok (ys, fin), w') -> consume_post g w ys fin w'.
Proof using object_entries_perm.
  intros H. destruct (consume_spec k g w) as (ys0 & fin0 & w0 & Hrun & Hpost & _).
  rewrite H in Hrun. injection Hrun as <- <- <-. exact Hpost.
Qed.

(** ** The loop of the discovery on maps *)

Lemma elem_of_stream_roles (items : list StreamItem) (info : RoleInfo) :
  info ∈ stream_roles items <-> Role info ∈ items.
Proof.
  unfold stream_roles. rewrite list_elem_of_omap. split.
  - intros ([a|i] & Hin & Heq); [discriminate |]. injection Heq as ->. exact Hin.
  - intros Hin. exists (Role info). split; [exact Hin | reflexivity].
Qed.

Lemma JsSet_has_true (s : JsSet.t) (x : string) : JsSet.has s x = true <-> x ∈ s.
Proof. unfold JsSet.has. apply bool_decide_eq_true. Qed.

Lemma elem_of_JsSet_add (x y : string) (s : JsSet.t) :
  x ∈ JsSet.add y s <-> x = y \/ x ∈ s.
Proof.
  unfold JsSet.add. destruct (JsSet.has s y) eqn:Hy.
  - apply JsSet_has_true in Hy. split; [auto |]. intros [->|H]; assumption.
  - rewrite elem_of_app, list_elem_of_singleton.
    split; (intros [H|H]; [right | left]; exact H).
Qed.

Lemma elem_of_discover_found (sourceId : string) (infos : list RoleInfo) :
  forall (found : JsSet.t) (id : string),
    id ∈ discover_found sourceId infos found
    <-> id ∈ found \/ exists info, info ∈ infos /\ id = linkedId sourceId info.
Proof.
  induction infos as [|i infos IH]; intros found id.
  - cbn. split; [auto |]. intros [H|(info & Hin & _)]; [exact H | inversion Hin].
  - rewrite discover_found_cons, IH, elem_of_JsSet_add. split.
    + intros [[->|H]|(info & Hin & ->)].
      * right. exists i. split; [apply list_elem_of_here | reflexivity].
      * left. exact H.
      * right. exists info. split; [apply list_elem_of_further, Hin | reflexivity].
    + intros [H|(info & Hin & ->)]; [auto |].
      apply elem_of_cons in Hin as [->|Hin]; [auto |].
      right. exists info. split; [exact Hin | reflexivity].
Qed.

Lemma discover_map_subseteq (sourceId : string) (infos : list RoleInfo) :
  forall m, m ⊆ discover_map sourceId infos m.
Proof.
  induction infos as [|i infos IH]; intros m.
  - reflexivity.
  - destruct (m !! linkedId sourceId i) as [q|] eqn:Hq.
    + rewrite (proj1 (discover_map_stored sourceId i infos m q Hq)). apply IH.
    + rewrite (proj1 (discover_map_new sourceId i infos m Hq)).
      transitivity (<[linkedId sourceId i := initMetadata (linkedProfile sourceId i)]> m);
        [apply insert_subseteq, Hq | apply IH].
Qed.

Lemma discover_map_present (sourceId : string) (infos : list RoleInfo) :
  forall m info,
    info ∈ infos -> is_Some (discover_map sourceId infos m !! linkedId sourceId info).
Proof.
  induction infos as [|i infos IH]; intros m info Hin.
  - inversion Hin.
  - apply elem_of_cons in Hin as [->|Hin].
    + destruct (m !! linkedId sourceId i) as [q|] eqn:Hq.
      * exists q. eapply lookup_weaken; [exact Hq | apply discover_map_subseteq].
      * rewrite (proj1 (discover_map_new sourceId i infos m Hq)).
        eexists. eapply lookup_weaken; [apply lookup_insert_eq | apply discover_map_subseteq].
    + destruct (m !! linkedId sourceId i) as [q|] eqn:Hq.
      * rewrite (proj1 (discover_map_stored sourceId i infos m q Hq)). apply IH, Hin.
      * rewrite (proj1 (discover_map_new sourceId i infos m Hq)). apply IH, Hin.
Qed.

Lemma discover_map_all_stored (sourceId : string) (infos : list RoleInfo)
    (m : gmap string StoredProfile) :
  (forall info, info ∈ infos -> is_Some (m !! linkedId sourceId info)) ->
  discover_map sourceId infos m = m /\ discover_yields sourceId infos m = [].
Proof.
  induction infos as [|i infos IH]; intros Hall.
  - split; reflexivity.
  - destruct (Hall i (list_elem_of_here i infos)) as [q Hq].
    destruct (discover_map_stored sourceId i infos m q Hq) as [-> ->].
    apply IH. intros info Hin. apply Hall, list_elem_of_further, Hin.
Qed.

(** What the loop yields: each pair once, under an id that was not stored,
    with the profile made for a role of the stream, which is then stored. *)
Lemma discover_yields_spec (sourceId : string) (infos : list RoleInfo) :
  forall m,
    NoDup (discover_yields sourceId infos m).*1
    /\ forall id p,
         (id, p) ∈ discover_yields sourceId infos m ->
         m !! id = None
         /\ discover_map sourceId infos m !! id = Some p
         /\ exists info,
              info ∈ infos /\ id = linkedId sourceId info
              /\ p = initMetadata (linkedProfile sourceId info).
Proof.
  induction infos as [|i infos IH]; intros m.
  - split; [constructor | intros id p Hin; inversion Hin].
  - destruct (m !! linkedId sourceId i) as [q|] eqn:Hq.
    + destruct (discover_map_stored sourceId i infos m q Hq) as [-> ->].
      destruct (IH m) as [Hnd Hys]. split; [exact Hnd |].
      intros id p Hin. destruct (Hys id p Hin) as (Hn & Hm & info & Hi & Hid & Hp).
      repeat split; [exact Hn | exact Hm |].
      exists info. split; [apply list_elem_of_further, Hi | split; assumption].
    + destruct (discover_map_new sourceId i infos m Hq) as [-> ->].
      set (m1 := <[linkedId sourceId i := initMetadata (linkedProfile sourceId i)]> m).
      destruct (IH m1) as [Hnd Hys]. split.
      * cbn [fmap list_fmap fst]. constructor; [| exact Hnd].
        intros Hdup. apply list_elem_of_fmap in Hdup as ([id p] & Heq & Hin).
        cbn in Heq. subst id.
        destruct (Hys _ _ Hin) as (Hn & _). unfold m1 in Hn.
        rewrite lookup_insert_eq in Hn. discriminate.
      * intros id p Hin. apply elem_of_cons in Hin as [Heq|Hin].
        -- injection Heq as -> ->. repeat split; [exact Hq | |].
           ++ eapply lookup_weaken; [apply lookup_insert_eq | apply discover_map_subseteq].
           ++ exists i. split; [apply list_elem_of_here | split; reflexivity].
        -- destruct (Hys id p Hin) as (Hn & Hm & info & Hi & Hid & Hp).
           repeat split; [| exact Hm |].
           ++ unfold m1 in Hn. rewrite lookup_insert in Hn.
              case_decide; [discriminate | exact Hn].
           ++ exists info. split; [apply list_elem_of_further, Hi | split; assumption].
Qed.

Lemma stale_true (sourceId : string) (found : JsSet.t) (id : string) (p : StoredProfile) :
  stale sourceId found id p = true
  <-> exists l, profile p = IamLinked l /\ ssoSession l = sourceId /\ id ∉ found.
Proof.
  unfold stale. destruct (profile p) as [s|l|n].
  - split; [discriminate | intros (l & H & _); discriminate].
  - rewrite andb_true_iff, bool_decide_eq_true, negb_true_iff.
    rewrite <- not_true_iff_false, JsSet_has_true. split.
    + intros [H1 H2]. exists l. auto.
    + intros (l' & Heq & H1 & H2). injection Heq as <-. auto.
  - split; [discriminate | intros (l & H & _); discriminate].
Qed.

Lemma cleaned_found (sourceId : string) (found : JsSet.t)
    (m : gmap string StoredProfile) (id : string) :
  id ∈ found -> cleaned sourceId found m !! id = m !! id.
Proof.
  intros Hin. rewrite cleaned_lookup. destruct (m !! id) as [p|]; [| reflexivity].
  destruct (stale sourceId found id p) eqn:Hs; [| reflexivity].
  apply stale_true in Hs as (l & _ & _ & Hn). contradiction.
Qed.

Lemma cleaned_idemp (sourceId : string) (found : JsSet.t) (m : gmap string StoredProfile) :
  cleaned sourceId found (cleaned sourceId found m) = cleaned sourceId found m.
Proof.
  apply map_eq. intros id. rewrite (cleaned_lookup _ _ (cleaned sourceId found m)).
  rewrite cleaned_lookup. destruct (m !! id) as [p|]; [| reflexivity].
  destruct (stale sourceId found id p) eqn:Hs; [reflexivity | rewrite Hs; reflexivity].
Qed.

(** ** The composed stream *)

Lemma stream_accounts_roles (rs : list RoleInfo) (rest : list StreamItem) :
  stream_accounts (map Role rs ++ rest) = stream_accounts rest
  /\ stream_roles (map Role rs ++ rest) = rs ++ stream_roles rest.
Proof.
  induction rs as [|r rs [IHa IHr]]; [split; reflexivity |].
  cbn [map app]. rewrite stream_accounts_role, stream_roles_role, IHa, IHr.
  split; reflexivity.
Qed.

(** The stream passes the accounts of [listAccounts] and delivers, account
    by account, the roles of [listAccountRoles]. *)
Lemma role_stream_contents (client : SsoClient) :
  stream_accounts (role_stream client) = listAccounts client
  /\ stream_roles (role_stream client)
     = flat_map (listAccountRoles client) (listAccounts client).
Proof.
  unfold role_stream. induction (listAccounts client) as [|a accts [IHa IHr]].
  - split; reflexivity.
  - cbn [flat_map]. rewrite <- app_comm_cons.
    rewrite stream_accounts_account, stream_roles_account.
    destruct (stream_accounts_roles (listAccountRoles client a)
                (flat_map (fun a => AccountSeen a :: map Role (listAccountRoles client a)) accts))
      as [-> ->].
    rewrite IHa, IHr. split; reflexivity.
Qed.

Lemma elem_of_discover_accounts (accts : list string) :
  forall (accounts : JsSet.t) (a : string),
    a ∈ discover_accounts accts accounts <-> a ∈ accounts \/ a ∈ accts.
Proof.
  induction accts as [|x accts IH]; intros accounts a.
  - cbn. rewrite elem_of_nil. split; [intros H; left; exact H | intros [H|[]]; exact H].
  - rewrite discover_accounts_cons, IH, elem_of_JsSet_add, elem_of_cons.
    split.
    + intros [[H|H]|H]; [right; left | left | right; right]; exact H.
    + intros [H|[H|H]]; [left; right | left; left | right]; exact H.
Qed.

Lemma discover_accounts_nil (accts : list string) :
  discover_accounts accts JsSet.empty = [] <-> accts = [].
Proof.
  split.
  - intros H. apply elem_of_nil_inv. intros a Ha.
    assert (Hin : a ∈ discover_accounts accts JsSet.empty)
      by (apply elem_of_discover_accounts; right; exact Ha).
    rewrite H in Hin. inversion Hin.
  - intros ->. reflexivity.
Qed.

Lemma discover_found_nil (sourceId : string) (infos : list RoleInfo) :
  discover_found sourceId infos JsSet.empty = [] <-> infos = [].
Proof.
  split.
  - intros H. destruct infos as [|i infos]; [reflexivity |].
    assert (Hin : linkedId sourceId i ∈ discover_found sourceId (i :: infos) JsSet.empty).
    { apply elem_of_discover_found. right. exists i.
      split; [apply list_elem_of_here | reflexivity]. }
    rewrite H in Hin. inversion Hin.
  - intros ->. reflexivity.
Qed.

(** ** Linked-profile discovery *)

(** C1, as the code has it. Let a linked profile of session [sourceId] be
    stored under [rid], and let no role of the stream have the derived id
    [rid]. Draining the discovery returns; every run in which the generator
    reaches its end leaves nothing stored under [rid]; and a run that the
    consumer abandons before the end deletes nothing: every record stored
    before is stored, unchanged, after. *)
Theorem stale_cleanup (sourceId : string) (ssoProfile : SsoProfile) (client : SsoClient)
    (w : World) (rid : string) (stored : StoredProfile) (l : LinkedIamProfile) :
  auth_profiles w !! rid = Some stored ->
  profile stored = IamLinked l ->
  ssoSession l = sourceId ->
  rid ∉ map (linkedId sourceId) (stream_roles (role_stream client)) ->
  (exists ys fin w',
      drain (loadLinkedProfilesIntoStore sourceId ssoProfile client) w = (Ok (ys, Some fin), w')
      /\ auth_profiles w' !! rid = None)
  /\ (forall k ys fin w',
        consume k (loadLinkedProfilesIntoStore sourceId ssoProfile client) w
        = (Ok (ys, Some fin), w') ->
        auth_profiles w' !! rid = None)
  /\ (forall k ys w',
        consume k (loadLinkedProfilesIntoStore sourceId ssoProfile client) w
        = (Ok (ys, None), w') ->
        forall id q, auth_profiles w !! id = Some q -> auth_profiles w' !! id = Some q).
Proof using object_entries_perm.
  intros Hstored Hlinked Hsession Hfresh.
  assert (Hend : forall k ys fin w',
            consume k (loadLinkedProfilesIntoStore sourceId ssoProfile client) w
            = (Ok (ys, Some fin), w') ->
            auth_profiles w' !! rid = None).
  { intros k ys [accounts' found'] w' Hrun.
    apply consume_inv in Hrun. unfold consume_post, loadLinkedProfilesIntoStore in Hrun.
    cbn [g_sourceId g_ssoProfile g_pending g_accounts g_found] in Hrun.
    destruct Hrun as (_ & _ & Hfound & Hmap & _).
    rewrite Hmap, cleaned_lookup.
    rewrite (lookup_weaken _ _ _ _ Hstored (discover_map_subseteq sourceId _ _)).
    assert (Hs : stale sourceId found' rid stored = true); [| rewrite Hs; reflexivity].
    apply stale_true. exists l. split; [exact Hlinked |]. split; [exact Hsession |].
    rewrite Hfound. intros Hin. apply elem_of_discover_found in Hin as [Hin|(info & Hin & ->)].
    - inversion Hin.
    - apply Hfresh. apply list_elem_of_fmap. exists info. split; [reflexivity | exact Hin]. }
  split; [| split; [exact Hend |]].
  - destruct (drain_completes (loadLinkedProfilesIntoStore sourceId ssoProfile client) w)
      as (ys & accounts' & found' & w' & Hrun & _).
    exists ys, (accounts', found'), w'. split; [exact Hrun |].
    eapply Hend. exact Hrun.
  - intros k ys w' Hrun id q Hq.
    apply consume_inv in Hrun. destruct Hrun as [Hsub _].
    eapply lookup_weaken; eassumption.
Qed.

(** C2. Take two discovery runs over the same catalog for the session
    [sourceId], one after the other, each to the end of the generator. The
    set [found] of the first run is exactly the ids
    [sso:<sourceId>#<roleName>-<accountId>] of the roles of the stream. Each
    pair the first run yields is such an id, not stored before and yielded
    once, with the linked profile of its role, which is then stored. A role
    whose id was stored before is skipped: its record is not written and
    nothing is yielded for it. The second run finds the same set of ids,
    yields nothing and leaves the stored profiles as the first run left
    them. *)
Theorem discovery_idempotent (sourceId : string) (ssoProfile : SsoProfile) (client : SsoClient)
    (w0 w1 w2 : World) (k1 k2 : nat) (ys1 ys2 : list (string * StoredProfile))
    (fin1 fin2 : JsSet.t * JsSet.t) :
  consume k1 (loadLinkedProfilesIntoStore sourceId ssoProfile client) w0
  = (Ok (ys1, Some fin1), w1) ->
  consume k2 (loadLinkedProfilesIntoStore sourceId ssoProfile client) w1
  = (Ok (ys2, Some fin2), w2) ->
  (forall id,
      id ∈ fin1.2
      <-> exists info,
            Role info ∈ role_stream client
            /\ id = "sso:" +:+ sourceId +:+ "#" +:+ roleName info +:+ "-" +:+ accountId info)
  /\ (forall id p,
        (id, p) ∈ ys1 ->
        auth_profiles w0 !! id = None
        /\ auth_profiles w1 !! id = Some p
        /\ exists info,
             Role info ∈ role_stream client
             /\ id = linkedId sourceId info
             /\ p = mkStored
                      (IamLinked (mkLinked (roleName info +:+ "-" +:+ accountId info)
                                    sourceId (roleName info) (accountId info)))
                      (mkMetadata absent unauthenticated absent))
  /\ NoDup ys1.*1
  /\ (forall info q,
        Role info ∈ role_stream client ->
        auth_profiles w0 !! linkedId sourceId info = Some q ->
        auth_profiles w1 !! linkedId sourceId info = Some q
        /\ linkedId sourceId info ∉ ys1.*1)
  /\ (forall info,
        Role info ∈ role_stream client ->
        is_Some (auth_profiles w1 !! linkedId sourceId info))
  /\ fin2.2 = fin1.2
  /\ ys2 = []
  /\ auth_profiles w2 = auth_profiles w1.
Proof using object_entries_perm.
  intros Hrun1 Hrun2. destruct fin1 as [accounts1 found1], fin2 as [accounts2 found2].
  apply consume_inv in Hrun1, Hrun2.
  unfold consume_post, loadLinkedProfilesIntoStore in Hrun1, Hrun2.
  cbn [g_sourceId g_ssoProfile g_pending g_accounts g_found] in Hrun1, Hrun2.
  destruct Hrun1 as (Hys1 & _ & Hfound1 & Hmap1 & _).
  destruct Hrun2 as (Hys2 & _ & Hfound2 & Hmap2 & _).
  cbn [fst snd].
  set (roles := stream_roles (role_stream client)) in *.
  assert (Hfound : forall id,
            id ∈ found1
            <-> exists info, Role info ∈ role_stream client /\ id = linkedId sourceId info).
  { intros id. rewrite Hfound1, elem_of_discover_found. split.
    - intros [Hin|(info & Hin & ->)]; [inversion Hin |].
      exists info. split; [apply elem_of_stream_roles, Hin | reflexivity].
    - intros (info & Hin & ->). right. exists info.
      split; [apply elem_of_stream_roles, Hin | reflexivity]. }
  assert (Hkept : forall info,
            Role info ∈ role_stream client ->
            auth_profiles w1 !! linkedId sourceId info
            = discover_map sourceId roles (auth_profiles w0) !! linkedId sourceId info).
  { intros info Hin. rewrite Hmap1. apply cleaned_found, Hfound. eauto. }
  assert (Hall : forall info,
            Role info ∈ role_stream client ->
            is_Some (auth_profiles w1 !! linkedId sourceId info)).
  { intros info Hin. rewrite (Hkept info Hin).
    apply discover_map_present, elem_of_stream_roles, Hin. }
  destruct (discover_yields_spec sourceId roles (auth_profiles w0)) as [Hnd Hyields].
  rewrite <- Hys1 in Hnd, Hyields.
  split; [exact Hfound |]. split; [| split; [exact Hnd |]].
  - intros id p Hin. destruct (Hyields id p Hin) as (Hnone & Hsome & info & Hi & -> & ->).
    apply elem_of_stream_roles in Hi.
    split; [exact Hnone |]. split; [rewrite (Hkept info Hi); exact Hsome |].
    exists info. repeat split. exact Hi.
  - split; [| split; [exact Hall |]].
    + intros info q Hin Hq. split.
      * rewrite (Hkept info Hin).
        eapply lookup_weaken; [exact Hq | apply discover_map_subseteq].
      * intros Hdup. apply list_elem_of_fmap in Hdup as ([id p] & Heq & Hyp).
        cbn in Heq. subst id. destruct (Hyields _ _ Hyp) as (Hnone & _). congruence.
    + assert (Hsame : found2 = found1) by congruence.
      destruct (discover_map_all_stored sourceId roles (auth_profiles w1)) as [Hm Hy].
      { intros info Hin. apply Hall, elem_of_stream_roles, Hin. }
      split; [exact Hsame |]. split; [congruence |].
      rewrite Hmap2, Hm, Hsame, Hmap1. apply cleaned_idemp.
Qed.

Lemma hasOtherScopes_false (ssoProfile : SsoProfile) :
  hasOtherScopes ssoProfile = false
  <-> (forall s, s ∈ default [] (read (scopes ssoProfile)) -> s ∈ scopesSsoAccountAccess).
Proof.
  unfold hasOtherScopes. destruct (read (scopes ssoProfile)) as [l|]; cbn [default].
  - rewrite <- not_true_iff_false, existsb_exists. split.
    + intros Hno s Hs. destruct (includes scopesSsoAccountAccess s) eqn:Hi.
      * apply includes_true, Hi.
      * exfalso. apply Hno. exists s. split; [apply list_elem_of_In, Hs |].
        rewrite Hi. reflexivity.
    + intros Hall (s & Hs & Hn). apply list_elem_of_In in Hs.
      apply Hall, includes_true in Hs. rewrite Hs in Hn. discriminate.
  - split; [intros _ s Hs; inversion Hs | reflexivity].
Qed.

Lemma diagnostic_log_due (ssoProfile : SsoProfile) (accounts found : JsSet.t) :
  diagnostic_log ssoProfile accounts found
  = if diagnostic_due ssoProfile accounts found
    then [if Nat.eqb (length accounts) 0
          then WarnNoAccounts (truncateStartUrl (startUrl ssoProfile))
          else WarnNoRoles (truncateStartUrl (startUrl ssoProfile)) (join "," accounts)]
    else [].
Proof.
  unfold diagnostic_log, diagnostic_due, JsSet.size.
  destruct (hasOtherScopes ssoProfile); [reflexivity |]. cbn [negb andb].
  destruct (Nat.eqb (length accounts) 0); [reflexivity |]. cbn [orb].
  destruct (Nat.eqb (length found) 0); reflexivity.
Qed.

Lemma shown_after_app (due : bool) (popup : string * string) (w : World) :
  shown_after due popup w
  = shown w ++ (if due && negb (bool_decide (warnOnce_prev w = Some popup)) then [popup] else []).
Proof.
  unfold shown_after.
  destruct (due && negb (bool_decide (warnOnce_prev w = Some popup)));
    [reflexivity | symmetry; apply app_nil_r].
Qed.

(** C9, as the code has it. A run that is abandoned logs and shows nothing.
    A run in which the generator reaches its end logs a warning exactly when
    the session has no scope other than the account-access scope and no
    account was seen or no id was found; the log line tells the two cases
    apart. In exactly these cases [warnOnce] is asked for the pop-up of the
    session, whose text is the same in both cases, and the pop-up is shown
    unless it is the one that was shown last, and becomes the one shown last. *)
Theorem zero_result_diagnostic (sourceId : string) (ssoProfile : SsoProfile)
    (client : SsoClient) (w w' : World) (k : nat) (ys : list (string * StoredProfile))
    (fin : option (JsSet.t * JsSet.t)) :
  consume k (loadLinkedProfilesIntoStore sourceId ssoProfile client) w = (Ok (ys, fin), w') ->
  let org := truncateStartUrl (startUrl ssoProfile) in
  let popup := (no_roles_message org, getting_started_url) in
  match fin with
  | None => logged w' = logged w /\ shown w' = shown w /\ warnOnce_prev w' = warnOnce_prev w
  | Some (accounts, found) =>
      let due :=
        negb (hasOtherScopes ssoProfile)
        && (Nat.eqb (length accounts) 0 || Nat.eqb (length found) 0) in
      (hasOtherScopes ssoProfile = false
       <-> forall s, s ∈ default [] (read (scopes ssoProfile)) -> s ∈ scopesSsoAccountAccess)
      /\ (accounts = [] <-> listAccounts client = [])
      /\ (found = [] <-> flat_map (listAccountRoles client) (listAccounts client) = [])
      /\ logged w'
         = logged w
           ++ (if due
               then [if Nat.eqb (length accounts) 0 then WarnNoAccounts org
                     else WarnNoRoles org (join "," accounts)]
               else [])
      /\ shown w'
         = shown w
           ++ (if due && negb (bool_decide (warnOnce_prev w = Some popup)) then [popup] else [])
      /\ warnOnce_prev w' = (if due then Some popup else warnOnce_prev w)
  end.
Proof using object_entries_perm.
  intros Hrun. cbv zeta. apply consume_inv in Hrun.
  unfold consume_post, loadLinkedProfilesIntoStore in Hrun.
  cbn [g_sourceId g_ssoProfile g_pending g_accounts g_found] in Hrun.
  destruct fin as [[accounts found]|].
  - destruct Hrun as (_ & Hacc & Hfound & _ & Hlog & Hshown & Hprev).
    destruct (role_stream_contents client) as [Ea Er]. rewrite Ea in Hacc. rewrite Er in Hfound.
    split; [apply hasOtherScopes_false |].
    split; [rewrite Hacc; apply discover_accounts_nil |].
    split; [rewrite Hfound; apply discover_found_nil |].
    rewrite diagnostic_log_due in Hlog. rewrite shown_after_app in Hshown.
    split; [exact Hlog |]. split; [exact Hshown | exact Hprev].
  - destruct Hrun as (_ & Hl & Hs & Hp). auto.
Qed.

(** ** Unmanaged-profile sync *)

Lemma has_sso_stable (m0 m : gmap string StoredProfile) (sid : string) :
  only_iam_deleted m0 m -> has_sso m sid = has_sso m0 sid.
Proof.
  intros Hinv. unfold has_sso.
  destruct (Hinv sid) as [->|(-> & p & -> & Hty)]; [reflexivity |].
  rewrite Hty. reflexivity.
Qed.

Lemma only_iam_deleted_delete (m0 m : gmap string StoredProfile) (id : string) (p : StoredProfile) :
  only_iam_deleted m0 m ->
  m0 !! id = Some p ->
  type (profile p) = type_iam ->
  only_iam_deleted m0 (delete id m).
Proof.
  intros Hinv Hp Hty k. rewrite lookup_delete. case_decide as Hk.
  - subst k. right. split; [reflexivity |]. exists p. split; assumption.
  - apply Hinv.
Qed.

Lemma delete_if_other (P : string -> StoredProfile -> bool) (m : gmap string StoredProfile)
    (kv : string * StoredProfile) (k : string) :
  k ≠ kv.1 -> delete_if P m kv !! k = m !! k.
Proof.
  intros Hne. unfold delete_if. destruct (P kv.1 kv.2); [| reflexivity].
  apply lookup_delete_ne. congruence.
Qed.

(** [source === undefined || source.type !== 'sso'], on what the read of
    the session gives. *)
Lemma orphan_test (m : gmap string StoredProfile) (sid : string) :
  match js_get m sid with
  | Missing => true
  | Inherited => true
  | Own s => bool_decide (type (profile s) ≠ type_sso)
  end
  = negb (has_sso m sid).
Proof.
  unfold js_get, has_sso. destruct (m !! sid) as [s|].
  - destruct (decide (type (profile s) = type_sso)) as [Hs|Hs].
    + rewrite (bool_decide_eq_true_2 _ Hs), bool_decide_eq_false_2; [reflexivity | auto].
    + rewrite (bool_decide_eq_false_2 _ Hs), bool_decide_eq_true_2; [reflexivity | auto].
  - destruct (inherited sid); reflexivity.
Qed.

(** [providers[id] === undefined] *)
Lemma unlisted_test (providers : gmap string CredentialsId) (id : string) :
  match js_get providers id with
  | Missing => true
  | Inherited | Own _ => false
  end
  = bool_decide (providers !! id = None) && negb (inherited id).
Proof.
  unfold js_get. destruct (providers !! id) as [c|].
  - rewrite bool_decide_eq_false_2 by discriminate. reflexivity.
  - rewrite bool_decide_eq_true_2 by reflexivity. destruct (inherited id); reflexivity.
Qed.

Lemma sync_stored_step (m0 : gmap string StoredProfile) (providers : gmap string CredentialsId)
    (removed removed' : list CredentialsId) (id : string) (p : StoredProfile) (w w' : World) :
  m0 !! id = Some p ->
  is_Some (auth_profiles w !! id) ->
  only_iam_deleted m0 (auth_profiles w) ->
  sync_stored providers removed (id, p) w = (Ok removed', w') ->
  auth_profiles w' = delete_if (doomed m0 providers) (auth_profiles w) (id, p)
  /\ only_iam_deleted m0 (auth_profiles w')
  /\ (forall c, c ∈ removed -> c ∈ removed')
  /\ (forall lk,
        profile p = IamLinked lk ->
        has_sso m0 (ssoSession lk) = false ->
        exists c, fromString id = Some c /\ c ∈ removed').
Proof.
  intros Hp Hown Hinv. unfold sync_stored, delete_if, doomed. cbn [fst snd].
  assert (Hdel : auth_profiles w !! id = None -> inherited id = false).
  { intros Hnone. destruct Hown as [q Hq]. congruence. }
  destruct (profile p) as [s|lk|n] eqn:Hprof.
  - intros Hrun. injection Hrun as <- <-.
    repeat split; [exact Hinv | auto | intros lk Hlk; discriminate].
  - unfold bind. rewrite getProfile_eq, orphan_test.
    rewrite <- (has_sso_stable m0 (auth_profiles w) (ssoSession lk) Hinv).
    destruct (negb _) eqn:Horphan.
    + rewrite (deleteProfile_eq id w Hdel).
      destruct (fromString id) as [c|] eqn:Hc; [| discriminate].
      intros Hrun. injection Hrun as <- <-.
      cbn [auth_profiles push_event set_profiles].
      split; [reflexivity |]. split; [| split].
      * eapply only_iam_deleted_delete; [exact Hinv | exact Hp |]. rewrite Hprof. reflexivity.
      * intros c' Hin. apply elem_of_app. left. exact Hin.
      * intros lk' _ _. exists c. split; [reflexivity |].
        apply elem_of_app. right. apply list_elem_of_here.
    + intros Hrun. injection Hrun as <- <-.
      split; [reflexivity |]. split; [exact Hinv |]. split; [auto |].
      intros lk' Hlk Hno. injection Hlk as Heq. subst lk'.
      rewrite <- (has_sso_stable m0 (auth_profiles w) (ssoSession lk) Hinv) in Hno.
      rewrite Hno in Horphan. discriminate.
  - rewrite <- unlisted_test. destruct (js_get providers id) eqn:Hc.
    + intros Hrun. injection Hrun as <- <-.
      repeat split; [exact Hinv | auto | intros lk Hlk; discriminate].
    + intros Hrun. injection Hrun as <- <-.
      repeat split; [exact Hinv | auto | intros lk Hlk; discriminate].
    + unfold bind. rewrite (deleteProfile_eq id w Hdel). cbn [ret].
      intros Hrun. injection Hrun as <- <-.
      cbn [auth_profiles push_event set_profiles].
      split; [reflexivity |]. split; [| split; [auto | intros lk Hlk; discriminate]].
      eapply only_iam_deleted_delete; [exact Hinv | exact Hp |]. rewrite Hprof. reflexivity.
Qed.

(** The first loop runs over a snapshot of the entries: every id it meets is
    an own key that no earlier round has deleted. *)
Lemma sync_stored_loop (m0 : gmap string StoredProfile) (providers : gmap string CredentialsId)
    (l : list (string * StoredProfile)) :
  (forall id p, (id, p) ∈ l -> m0 !! id = Some p) ->
  NoDup l.*1 ->
  forall (removed removed' : list CredentialsId) (w w' : World),
    only_iam_deleted m0 (auth_profiles w) ->
    (forall id, id ∈ l.*1 -> is_Some (auth_profiles w !! id)) ->
    fold_of l (sync_stored providers) removed w = (Ok removed', w') ->
    auth_profiles w' = fold_left (delete_if (doomed m0 providers)) l (auth_profiles w)
    /\ (forall c, c ∈ removed -> c ∈ removed')
    /\ (forall id p lk,
          (id, p) ∈ l ->
          profile p = IamLinked lk ->
          has_sso m0 (ssoSession lk) = false ->
          exists c, fromString id = Some c /\ c ∈ removed').
Proof.
  induction l as [|[id p] l IH]; intros Hsnap Hnd removed removed' w w' Hinv Hown Hrun.
  - injection Hrun as <- <-. repeat split; [auto |].
    intros id p lk Hin. inversion Hin.
  - cbn [fmap list_fmap fst] in Hnd, Hown. apply NoDup_cons in Hnd as [Hfresh Hnd].
    cbn [fold_of fold_left] in *. unfold bind in Hrun.
    destruct (sync_stored providers removed (id, p) w) as [[r1|e] w1] eqn:Hstep;
      [| discriminate].
    destruct (sync_stored_step m0 providers removed r1 id p w w1
                (Hsnap id p (list_elem_of_here _ _)) (Hown id (list_elem_of_here _ _))
                Hinv Hstep)
      as (Hm1 & Hinv1 & Hsub1 & Hrem1).
    destruct (IH (fun k q Hin => Hsnap k q (list_elem_of_further _ _ _ Hin)) Hnd
                r1 removed' w1 w' Hinv1) as (Hm & Hsub & Hrem); [| exact Hrun |].
    { intros k Hk. rewrite Hm1, delete_if_other by (cbn; intros ->; contradiction).
      apply Hown, list_elem_of_further, Hk. }
    split; [rewrite Hm, Hm1; reflexivity |]. split; [auto |].
    intros k q lk Hin Hlk Hno. apply elem_of_cons in Hin as [Heq|Hin].
    + injection Heq as -> ->. destruct (Hrem1 lk Hlk Hno) as (c & Hc & Hin).
      exists c. split; [exact Hc | apply Hsub, Hin].
    + eapply Hrem; eassumption.
Qed.

(** What the entries of the store give the first loop. *)
Lemma entries_snapshot (m : gmap string StoredProfile) :
  (forall id p, (id, p) ∈ object_entries StoredProfile m -> m !! id = Some p)
  /\ NoDup (object_entries StoredProfile m).*1
  /\ (forall id, id ∈ (object_entries StoredProfile m).*1 -> is_Some (m !! id)).
Proof using object_entries_perm.
  split; [intros id p; apply object_entries_lookup |].
  split; [apply object_entries_NoDup |].
  intros id Hin. apply list_elem_of_fmap in Hin as ([k q] & -> & Hin).
  apply object_entries_lookup in Hin. eauto.
Qed.

Lemma sync_provider_loop (l : list (string * CredentialsId)) :
  NoDup l.*1 ->
  forall w, exists w',
    for_of l sync_provider w = (Ok tt, w')
    /\ (forall id x, auth_profiles w !! id = Some x -> auth_profiles w' !! id = Some x)
    /\ (forall id c,
          (id, c) ∈ l ->
          auth_profiles w !! id = None ->
          String.prefix "sso:" id = false ->
          inherited id = false ->
          auth_profiles w' !! id
          = Some (initMetadata (IamUnknown (mkUnknown (credentialTypeId c) None))))
    /\ (forall id x,
          auth_profiles w' !! id = Some x ->
          auth_profiles w !! id = Some x
          \/ exists c,
               (id, c) ∈ l /\ String.prefix "sso:" id = false /\ inherited id = false
               /\ x = initMetadata (IamUnknown (mkUnknown (credentialTypeId c) None))).
Proof.
  induction l as [|[k c] l IH]; intros Hnd w.
  - exists w. split; [reflexivity |]. split; [auto |]. split; [| auto].
    intros id c Hin. inversion Hin.
  - cbn [fmap list_fmap fst] in Hnd. apply NoDup_cons in Hnd as [Hk Hnd].
    cbn [for_of]. unfold bind, sync_provider at 1. unfold bind. rewrite getProfile_eq.
    assert (Hskip : forall w0,
              auth_profiles w0 = auth_profiles w ->
              (auth_profiles w !! k = None -> String.prefix "sso:" k = false ->
               inherited k = false -> False) ->
              forall w',
                for_of l sync_provider w0 = (Ok tt, w') ->
                (forall id x, auth_profiles w0 !! id = Some x -> auth_profiles w' !! id = Some x) ->
                (forall id c,
                    (id, c) ∈ l -> auth_profiles w0 !! id = None ->
                    String.prefix "sso:" id = false -> inherited id = false ->
                    auth_profiles w' !! id
                    = Some (initMetadata (IamUnknown (mkUnknown (credentialTypeId c) None)))) ->
                (forall id x,
                    auth_profiles w' !! id = Some x ->
                    auth_profiles w0 !! id = Some x
                    \/ exists c,
                         (id, c) ∈ l /\ String.prefix "sso:" id = false /\ inherited id = false
                         /\ x = initMetadata (IamUnknown (mkUnknown (credentialTypeId c) None))) ->
                (forall id x, auth_profiles w !! id = Some x -> auth_profiles w' !! id = Some x)
                /\ (forall id c',
                      (id, c') ∈ (k, c) :: l -> auth_profiles w !! id = None ->
                      String.prefix "sso:" id = false -> inherited id = false ->
                      auth_profiles w' !! id
                      = Some (initMetadata (IamUnknown (mkUnknown (credentialTypeId c') None))))
                /\ (forall id x,
                      auth_profiles w' !! id = Some x ->
                      auth_profiles w !! id = Some x
                      \/ exists c',
                           (id, c') ∈ (k, c) :: l /\ String.prefix "sso:" id = false
                           /\ inherited id = false
                           /\ x = initMetadata
                                    (IamUnknown (mkUnknown (credentialTypeId c') None)))).
    { intros w0 Hsame Hno w' Hrun Hkeep Hadd Hback. rewrite Hsame in *.
      split; [exact Hkeep |]. split.
      - intros id c' Hin Hnone Hp Hi. apply elem_of_cons in Hin as [Heq|Hin].
        + injection Heq as -> ->. destruct (Hno Hnone Hp Hi).
        + apply Hadd; assumption.
      - intros id x Hx. destruct (Hback id x Hx) as [H|(c' & Hin & Hp & Hi & ->)]; [auto |].
        right. exists c'. split; [apply list_elem_of_further, Hin | auto]. }
    unfold js_get.
    destruct (auth_profiles w !! k) as [x0|] eqn:Hx0;
      [| destruct (inherited k) eqn:Hik;
         [| destruct (String.prefix "sso:" k) eqn:Hpre]]; cbn [negb ret].
    + destruct (IH Hnd w) as (w' & Hrun & Hkeep & Hadd & Hback).
      exists w'. split; [exact Hrun |].
      apply (Hskip w eq_refl); [discriminate | assumption..].
    + destruct (IH Hnd w) as (w' & Hrun & Hkeep & Hadd & Hback).
      exists w'. split; [exact Hrun |].
      apply (Hskip w eq_refl); [discriminate | assumption..].
    + destruct (IH Hnd w) as (w' & Hrun & Hkeep & Hadd & Hback).
      exists w'. split; [exact Hrun |].
      apply (Hskip w eq_refl); [discriminate | assumption..].
    + clear Hskip. rewrite addProfile_eq.
      set (w1 := push_event _ _).
      assert (Hw1 : auth_profiles w1
                    = <[k := initMetadata (IamUnknown (mkUnknown (credentialTypeId c) None))]>
                        (auth_profiles w))
        by reflexivity.
      destruct (IH Hnd w1) as (w' & Hrun & Hkeep & Hadd & Hback).
      exists w'. split; [exact Hrun |]. split; [| split].
      * intros id x Hx. apply Hkeep. rewrite Hw1, lookup_insert_ne; [exact Hx | congruence].
      * intros id c' Hin Hnone Hp Hi. apply elem_of_cons in Hin as [Heq|Hin].
        -- injection Heq as -> ->. apply Hkeep. rewrite Hw1. apply lookup_insert_eq.
        -- apply Hadd; [exact Hin | | exact Hp | exact Hi].
           rewrite Hw1, lookup_insert_ne; [exact Hnone |].
           intros ->. apply Hk. apply list_elem_of_fmap. exists (id, c'). auto.
      * intros id x Hx. destruct (Hback id x Hx) as [H|(c' & Hin & Hp & Hi & ->)].
        -- rewrite Hw1, lookup_insert in H. case_decide as Hid.
           ++ subst id. injection H as <-. right. exists c.
              split; [apply list_elem_of_here | auto].
           ++ left. exact H.
        -- right. exists c'. split; [apply list_elem_of_further, Hin | auto].
Qed.

Lemma sync_stored_returns (providers : gmap string CredentialsId)
    (l : list (string * StoredProfile)) :
  (forall id, is_Some (fromString id)) ->
  NoDup l.*1 ->
  forall (removed : list CredentialsId) (w : World),
    (forall id, id ∈ l.*1 -> is_Some (auth_profiles w !! id)) ->
    exists removed' w', fold_of l (sync_stored providers) removed w = (Ok removed', w').
Proof.
  intros Htotal. induction l as [|[id p] l IH]; intros Hnd removed w Hown.
  - exists removed, w. reflexivity.
  - cbn [fmap list_fmap fst] in Hnd, Hown. apply NoDup_cons in Hnd as [Hfresh Hnd].
    cbn [fold_of]. unfold bind.
    assert (Hdel : auth_profiles w !! id = None -> inherited id = false).
    { intros Hnone. destruct (Hown id (list_elem_of_here _ _)) as [q Hq]. congruence. }
    assert (Hstep : exists r1 w1,
              sync_stored providers removed (id, p) w = (Ok r1, w1)
              /\ forall k, k ≠ id -> auth_profiles w1 !! k = auth_profiles w !! k).
    { unfold sync_stored. destruct (profile p) as [s|lk|n].
      - eexists _, _. split; reflexivity.
      - unfold bind. rewrite getProfile_eq, orphan_test.
        destruct (negb _).
        + rewrite (deleteProfile_eq id w Hdel). destruct (Htotal id) as [c ->].
          eexists _, _. split; [reflexivity |].
          intros k Hk. cbn [auth_profiles push_event set_profiles].
          apply lookup_delete_ne. congruence.
        + eexists _, _. split; reflexivity.
      - destruct (js_get providers id).
        + eexists _, _. split; reflexivity.
        + eexists _, _. split; reflexivity.
        + unfold bind. rewrite (deleteProfile_eq id w Hdel). eexists _, _.
          split; [reflexivity |].
          intros k Hk. cbn [auth_profiles push_event set_profiles].
          apply lookup_delete_ne. congruence. }
    destruct Hstep as (r1 & w1 & -> & Hframe). apply IH; [exact Hnd |].
    intros k Hk. rewrite Hframe by (intros ->; contradiction).
    apply Hown, list_elem_of_further, Hk.
Qed.

(** The sync returns whenever [fromString] does. *)
Lemma loadIamProfilesIntoStore_returns (providers : gmap string CredentialsId) (w : World) :
  (forall id, is_Some (fromString id)) ->
  exists removed w', loadIamProfilesIntoStore providers w = (Ok removed, w').
Proof using object_entries_perm.
  intros Htotal. unfold loadIamProfilesIntoStore, listProfiles, bind. cbn [getData gets ret].
  destruct (entries_snapshot (auth_profiles w)) as (_ & Hnd & Hown).
  destruct (sync_stored_returns providers (object_entries StoredProfile (auth_profiles w))
              Htotal Hnd [] w Hown) as (r1 & w1 & ->).
  destruct (sync_provider_loop (object_entries CredentialsId providers)
              (object_entries_NoDup providers) w1) as (w2 & -> & _).
  exists r1, w2. reflexivity.
Qed.

(** The stored profiles after a sync that returned: the entries the first
    loop keeps, and an unknown profile for every other enumerated id that
    has no [sso:] prefix and does not name an inherited member. *)
Lemma loadIamProfilesIntoStore_final (providers : gmap string CredentialsId)
    (w w' : World) (removed : list CredentialsId) :
  loadIamProfilesIntoStore providers w = (Ok removed, w') ->
  (forall id,
      auth_profiles w' !! id
      = match keep_unless (doomed (auth_profiles w) providers) (auth_profiles w) !! id with
        | Some p => Some p
        | None =>
            match providers !! id with
            | Some c =>
                if String.prefix "sso:" id || inherited id then None
                else Some (initMetadata (IamUnknown (mkUnknown (credentialTypeId c) None)))
            | None => None
            end
        end)
  /\ (forall id p lk,
        auth_profiles w !! id = Some p ->
        profile p = IamLinked lk ->
        has_sso (auth_profiles w) (ssoSession lk) = false ->
        exists c, fromString id = Some c /\ c ∈ removed).
Proof using object_entries_perm.
  unfold loadIamProfilesIntoStore, listProfiles, bind. cbn [getData gets ret].
  set (m0 := auth_profiles w).
  destruct (fold_of (object_entries StoredProfile m0) (sync_stored providers) [] w)
    as [[r1|e] w1] eqn:Hloop1; [| discriminate].
  destruct (entries_snapshot m0) as (Hsnap & Hnd & Hown).
  destruct (sync_stored_loop m0 providers (object_entries StoredProfile m0) Hsnap Hnd
              [] r1 w w1 (fun id => or_introl eq_refl) Hown Hloop1)
    as (Hm1 & _ & Hrem).
  fold m0 in Hm1. rewrite fold_delete_if_entries in Hm1.
  destruct (sync_provider_loop (object_entries CredentialsId providers)
              (object_entries_NoDup providers) w1)
    as (w2 & Hloop2 & Hkeep & Hadd & Hback).
  rewrite Hloop2. intros Hrun. injection Hrun as <- <-. split.
  - intros id. rewrite <- Hm1.
    destruct (auth_profiles w1 !! id) as [p|] eqn:Hp; [apply Hkeep, Hp |].
    destruct (providers !! id) as [c|] eqn:Hc.
    + destruct (String.prefix "sso:" id || inherited id) eqn:Hskip.
      * destruct (auth_profiles w2 !! id) as [x|] eqn:Hx; [| reflexivity].
        destruct (Hback id x Hx) as [H|(c' & _ & Hpre' & Hi' & _)]; [congruence |].
        rewrite Hpre', Hi' in Hskip. discriminate.
      * apply orb_false_iff in Hskip as [Hpre Hi].
        apply Hadd; [apply object_entries_lookup, Hc | exact Hp | exact Hpre | exact Hi].
    + destruct (auth_profiles w2 !! id) as [x|] eqn:Hx; [| reflexivity].
      destruct (Hback id x Hx) as [H|(c' & Hin & _)]; [congruence |].
      apply object_entries_lookup in Hin. congruence.
  - intros id p lk Hp Hlk Hno.
    eapply Hrem; [apply object_entries_lookup, Hp | exact Hlk | exact Hno].
Qed.

(** C8, where the code departs from it. The tests [providers[id] ===
    undefined] and [store.getProfile(id) === undefined] read plain objects,
    so an id that names a member of [Object.prototype] is never
    [undefined]: when the sync returns, an [iam/unknown] profile stored
    under such an id that the enumeration does not list is still stored,
    and such an id that is enumerated and not stored has not been added. *)
Theorem loadIamProfilesIntoStore_inherited (providers : gmap string CredentialsId)
    (w w' : World) (removed : list CredentialsId) :
  loadIamProfilesIntoStore providers w = (Ok removed, w') ->
  (forall id p n,
      auth_profiles w !! id = Some p ->
      profile p = IamUnknown n ->
      providers !! id = None ->
      id ∈ object_prototype_names ->
      auth_profiles w' !! id = Some p)
  /\ (forall id c,
        providers !! id = Some c ->
        auth_profiles w !! id = None ->
        String.prefix "sso:" id = false ->
        id ∈ object_prototype_names ->
        auth_profiles w' !! id = None).
Proof using object_entries_perm.
  intros Hrun.
  destruct (loadIamProfilesIntoStore_final providers w w' removed Hrun) as [Hfinal _].
  split.
  - intros id p n Hp Hn Hprov Hi. apply (bool_decide_eq_true_2 _) in Hi.
    fold (inherited id) in Hi. rewrite Hfinal, keep_unless_lookup, Hp.
    unfold doomed. rewrite Hn, Hi, andb_false_r. reflexivity.
  - intros id c Hc Hnone Hpre Hi. apply (bool_decide_eq_true_2 _) in Hi.
    fold (inherited id) in Hi.
    rewrite Hfinal, keep_unless_lookup, Hnone, Hc, Hi, orb_true_r. reflexivity.
Qed.

(** X28. When [loadIamProfilesIntoStore] returns: (1) for every linked
    profile that was stored under an [id] while no [sso] profile was stored
    under its [ssoSession], [removeProvider(fromString(id))] was called and
    the profile is gone: under [id] there is nothing, or the [iam/unknown]
    profile that step 3 adds when [id] is enumerated and has no [sso:]
    prefix; and no linked profile is left whose [ssoSession] is not a stored
    [sso] profile; (2) every [iam/unknown] profile that was stored under an
    id the enumeration does not list is gone, and (3) every enumerated id
    that was not stored and has no [sso:] prefix is stored as an
    [iam/unknown] profile named by its [credentialTypeId], with fresh
    metadata, in both cases when the id does not name a member of
    [Object.prototype]. *)
Theorem loadIamProfilesIntoStore_post (providers : gmap string CredentialsId)
    (w w' : World) (removed : list CredentialsId) :
  loadIamProfilesIntoStore providers w = (Ok removed, w') ->
  (forall id p lk,
      auth_profiles w !! id = Some p ->
      profile p = IamLinked lk ->
      has_sso (auth_profiles w) (ssoSession lk) = false ->
      (exists c, fromString id = Some c /\ c ∈ removed)
      /\ match auth_profiles w' !! id with
         | None => True
         | Some q =>
             exists c,
               providers !! id = Some c /\ String.prefix "sso:" id = false
               /\ q = initMetadata (IamUnknown (mkUnknown (credentialTypeId c) None))
         end)
  /\ (forall id p lk,
        auth_profiles w' !! id = Some p ->
        profile p = IamLinked lk ->
        has_sso (auth_profiles w') (ssoSession lk) = true)
  /\ (forall id p n,
        auth_profiles w !! id = Some p ->
        profile p = IamUnknown n ->
        providers !! id = None ->
        id ∉ object_prototype_names ->
        auth_profiles w' !! id = None)
  /\ (forall id c,
        providers !! id = Some c ->
        auth_profiles w !! id = None ->
        String.prefix "sso:" id = false ->
        id ∉ object_prototype_names ->
        auth_profiles w' !! id
        = Some (mkStored (IamUnknown (mkUnknown (credentialTypeId c) None))
                  (mkMetadata absent unauthenticated absent))).
Proof using object_entries_perm.
  intros Hrun.
  destruct (loadIamProfilesIntoStore_final providers w w' removed Hrun) as [Hfinal Hrem].
  set (m0 := auth_profiles w) in *.
  split; [| split; [| split]].
  - intros id p lk Hp Hlk Hno. split; [eapply Hrem; eassumption |].
    rewrite Hfinal, keep_unless_lookup, Hp. unfold doomed at 1. rewrite Hlk, Hno. cbn [negb].
    destruct (providers !! id) as [c|]; [| exact I].
    destruct (String.prefix "sso:" id); [exact I |]. cbn [orb].
    destruct (inherited id); [exact I |]. exists c. auto.
  - intros id p lk Hp Hlk. rewrite Hfinal, keep_unless_lookup in Hp.
    destruct (m0 !! id) as [p0|] eqn:Hp0.
    + destruct (doomed m0 providers id p0) eqn:Hd.
      * destruct (providers !! id) as [c|]; [| discriminate].
        destruct (String.prefix "sso:" id || inherited id); [discriminate |].
        injection Hp as <-. discriminate.
      * injection Hp as ->. unfold doomed in Hd. rewrite Hlk in Hd.
        apply negb_false_iff in Hd. unfold has_sso in Hd |- *.
        destruct (m0 !! ssoSession lk) as [s|] eqn:Hs; [| discriminate].
        rewrite Hfinal, keep_unless_lookup, Hs. unfold doomed.
        apply bool_decide_eq_true_1 in Hd.
        destruct (profile s) eqn:Hps; [| discriminate | discriminate].
        rewrite Hps. apply bool_decide_eq_true_2. reflexivity.
    + destruct (providers !! id) as [c|]; [| discriminate].
      destruct (String.prefix "sso:" id || inherited id); [discriminate |].
      injection Hp as <-. discriminate.
  - intros id p n Hp Hn Hprov Hi. rewrite Hfinal, keep_unless_lookup, Hp.
    unfold doomed. rewrite Hn, Hprov.
    rewrite bool_decide_eq_true_2 by reflexivity.
    unfold inherited. rewrite (bool_decide_eq_false_2 _ Hi). reflexivity.
  - intros id c Hc Hnone Hpre Hi.
    rewrite Hfinal, keep_unless_lookup, Hnone, Hc, Hpre.
    unfold inherited. rewrite (bool_decide_eq_false_2 _ Hi). reflexivity.
Qed.

(** ** More about the profile store *)

Lemma getProfileOrThrow_frame (id : string) (w : World) :
  auth_profiles (snd (getProfileOrThrow id w)) = auth_profiles w
  /\ auth_currentProfileId (snd (getProfileOrThrow id w)) = auth_currentProfileId w.
Proof.
  destruct (auth_profiles w !! id) as [p|] eqn:Hp.
  - rewrite (getProfileOrThrow_hit id p w Hp).
    destruct (deduplicated w id (connectionState (metadata p))); split; reflexivity.
  - destruct (inherited id) eqn:Hi.
    + rewrite (getProfileOrThrow_inherited id w Hp Hi). split; reflexivity.
    + rewrite (getProfileOrThrow_miss id w Hp Hi). split; reflexivity.
Qed.



Lemma updateProfile_hit_eq (id : string) (p : Profile) (old : StoredProfile) (w : World) :
  auth_profiles w !! id = Some old ->
  type (profile old) = type p ->
  updateProfile id p w
  = (Ok (merge_profile old p),
     push_event
       (mkEvent "updateProfile" id Succeeded
          (getTelemetryForProfile (Some (merge_profile old p))) None)
       (set_profiles (<[id := merge_profile old p]> (auth_profiles w))
          (snd (getProfileOrThrow id w)))).
Proof.
  intros Hold Hty. unfold updateProfile, run_span, bind.
  destruct (getProfileOrThrow_frame id w) as [Hframe _].
  rewrite (getProfileOrThrow_hit id old w Hold) in *.
  rewrite bool_decide_eq_false_2 by (intros Hne; apply Hne, Hty).
  rewrite putProfile_eq. cbn [ret snd] in *. rewrite Hframe. reflexivity.
Qed.

Lemma updateProfile_miss_eq (id : string) (p : Profile) (w : World) :
  auth_profiles w !! id = None ->
  inherited id = false ->
  updateProfile id p w
  = (Err (ProfileNotFoundError id),
     push_event
       (mkEvent "updateProfile" id Failed no_telemetry (Some (ProfileNotFoundError id)))
       (push_event
          (mkEvent "getProfile" id Failed no_telemetry (Some (ProfileNotFoundError id))) w)).
Proof.
  intros Hnone Hi. unfold updateProfile, run_span, bind.
  rewrite (getProfileOrThrow_miss id w Hnone Hi). reflexivity.
Qed.

Lemma updateProfile_inherited_eq (id : string) (p : Profile) (w : World) :
  auth_profiles w !! id = None ->
  inherited id = true ->
  updateProfile id p w
  = (Err TypeError,
     push_event (mkEvent "updateProfile" id Failed no_telemetry (Some TypeError)) w).
Proof.
  intros Hnone Hi. unfold updateProfile, run_span, bind.
  rewrite (getProfileOrThrow_inherited id w Hnone Hi). reflexivity.
Qed.

Lemma updateProfile_mismatch_eq (id : string) (p : Profile) (old : StoredProfile) (w : World) :
  auth_profiles w !! id = Some old ->
  type (profile old) ≠ type p ->
  updateProfile id p w
  = (Err (ProfileTypeMismatch (type (profile old)) (type p)),
     push_event
       (mkEvent "updateProfile" id Failed no_telemetry
          (Some (ProfileTypeMismatch (type (profile old)) (type p))))
       (snd (getProfileOrThrow id w))).
Proof.
  intros Hold Hty. unfold updateProfile, run_span, bind.
  rewrite (getProfileOrThrow_hit id old w Hold).
  rewrite bool_decide_eq_true_2 by assumption. reflexivity.
Qed.

(** X2. When a profile of the same discriminant type is stored under [id],
    [updateProfile(id, p)] returns and stores the new profile spread over
    the stored one, and no other record changes. The metadata is the stored
    one. An [sso] profile takes the region and start URL of [p]; its scopes
    are the stored ones when [p] leaves the key out, none when [p] has the
    key with the value [undefined], and those of [p] otherwise. A linked
    profile [p] replaces a stored [iam] profile. An unknown profile [p]
    gives its name, and the object keeps the properties [ssoSession],
    [ssoRoleName] and [ssoAccountId] the stored [iam] profile had, unless
    [p] brings its own. *)
Theorem updateProfile_merges (id : string) (p : Profile) (old : StoredProfile) (w : World) :
  auth_profiles w !! id = Some old ->
  type (profile old) = type p ->
  exists new w',
    updateProfile id p w = (Ok new, w')
    /\ auth_profiles w' = <[id := new]> (auth_profiles w)
    /\ metadata new = metadata old
    /\ match profile old, p with
       | Sso o, Sso n =>
           profile new
           = Sso (mkSso (ssoRegion n) (startUrl n)
                        (match scopes n with
                         | absent => scopes o
                         | undefined => undefined
                         | present s => present s
                         end))
       | IamLinked _, IamLinked n | IamUnknown _, IamLinked n => profile new = IamLinked n
       | IamLinked o, IamUnknown n =>
           profile new
           = IamUnknown
               (mkUnknown (unknown_name n)
                  (match sso_properties n with
                   | Some link => Some link
                   | None => Some (ssoSession o, ssoRoleName o, ssoAccountId o)
                   end))
       | IamUnknown o, IamUnknown n =>
           profile new
           = IamUnknown
               (mkUnknown (unknown_name n)
                  (match sso_properties n with
                   | Some link => Some link
                   | None => sso_properties o
                   end))
       | Sso _, (IamLinked _ | IamUnknown _) | (IamLinked _ | IamUnknown _), Sso _ => False
       end.
Proof.
  intros Hold Hty. exists (merge_profile old p). eexists.
  split; [apply (updateProfile_hit_eq id p old w Hold Hty) |].
  cbn [auth_profiles push_event set_profiles]. split; [reflexivity |].
  unfold merge_profile.
  destruct (profile old) as [o|lo|no] eqn:Ho, p as [n|ln|nn];
    cbn [type] in Hty; try discriminate; cbn [metadata profile sso_properties_of];
    split; try reflexivity.
  destruct (scopes n); reflexivity.
Qed.

(** X3. When nothing is stored under [id], [updateProfile(id, p)] throws and
    leaves the stored profiles and the de-duplication cell as they were. For
    an id that does not name a member of [Object.prototype] it throws
    [ProfileNotFoundError] and emits two [Failed] events: the one of the
    inner [getProfileOrThrow], then the one of its own span. For an id that
    names such a member it throws the [TypeError] of the inner call, which
    emits nothing, and only its own span emits a [Failed] event. *)
Theorem updateProfile_missing (id : string) (p : Profile) (w : World) :
  auth_profiles w !! id = None ->
  exists e w',
    updateProfile id p w = (Err e, w')
    /\ auth_profiles w' = auth_profiles w
    /\ prevGetProfile w' = prevGetProfile w
    /\ if bool_decide (id ∈ object_prototype_names)
       then e = TypeError
            /\ emitted w'
               = emitted w ++ [mkEvent "updateProfile" id Failed no_telemetry (Some TypeError)]
       else e = ProfileNotFoundError id
            /\ emitted w'
               = emitted w
                 ++ [mkEvent "getProfile" id Failed no_telemetry
                       (Some (ProfileNotFoundError id));
                     mkEvent "updateProfile" id Failed no_telemetry
                       (Some (ProfileNotFoundError id))].
Proof.
  intros Hnone. fold (inherited id). destruct (inherited id) eqn:Hi.
  - rewrite (updateProfile_inherited_eq id p w Hnone Hi).
    eexists _, _. split; [reflexivity |]. repeat split.
  - rewrite (updateProfile_miss_eq id p w Hnone Hi).
    eexists _, _. split; [reflexivity |].
    cbn [auth_profiles prevGetProfile emitted push_event].
    rewrite <- app_assoc. repeat split.
Qed.

(** X4. [updateProfile] and [updateMetadata], whether they return or throw,
    never add or remove an id and never change the discriminant type of a
    stored profile. *)
Theorem updates_preserve_types (id : string) (p : Profile) (md : ProfileMetadata)
    (w : World) (id' : string) :
  (fun s => type (profile s)) <$> (auth_profiles (snd (updateProfile id p w)) !! id')
  = (fun s => type (profile s)) <$> (auth_profiles w !! id')
  /\ (fun s => type (profile s)) <$> (auth_profiles (snd (updateMetadata id md w)) !! id')
     = (fun s => type (profile s)) <$> (auth_profiles w !! id').
Proof.
  destruct (auth_profiles w !! id) as [old|] eqn:Hold.
  - split.
    + destruct (decide (type (profile old) = type p)) as [Hty|Hty].
      * rewrite (updateProfile_hit_eq id p old w Hold Hty).
        cbn [snd auth_profiles push_event set_profiles].
        rewrite lookup_insert. case_decide as Hid; [| reflexivity].
        subst id'. rewrite Hold. cbn [fmap option_fmap option_map].
        f_equal. unfold merge_profile.
        destruct (profile old), p; cbn [type profile] in *; try discriminate; reflexivity.
      * rewrite (updateProfile_mismatch_eq id p old w Hold Hty).
        cbn [snd auth_profiles push_event].
        rewrite (proj1 (getProfileOrThrow_frame id w)). reflexivity.
    + unfold updateMetadata, bind. rewrite (getProfileOrThrow_hit id old w Hold).
      rewrite putProfile_eq. cbn [snd auth_profiles set_profiles].
      assert (Hsame : auth_profiles
                        (if deduplicated w id (connectionState (metadata old)) then w
                         else set_prevGetProfile (Some (id, connectionState (metadata old)))
                                (push_event
                                   (mkEvent "getProfile" id Succeeded
                                      (getTelemetryForProfile (Some old)) None) w))
                      = auth_profiles w)
        by (destruct (deduplicated w id (connectionState (metadata old))); reflexivity).
      rewrite Hsame, lookup_insert. case_decide as Hid; [| reflexivity].
      subst id'. rewrite Hold. reflexivity.
  - destruct (getProfileOrThrow_frame id w) as [Hframe _]. split.
    + destruct (inherited id) eqn:Hi.
      * rewrite (updateProfile_inherited_eq id p w Hold Hi). reflexivity.
      * rewrite (updateProfile_miss_eq id p w Hold Hi). reflexivity.
    + unfold updateMetadata, bind.
      destruct (getProfileOrThrow id w) as [[q|e] w1] eqn:Hrun; cbn [snd] in *.
      * destruct (inherited id) eqn:Hi.
        -- rewrite (getProfileOrThrow_inherited id w Hold Hi) in Hrun. discriminate.
        -- rewrite (getProfileOrThrow_miss id w Hold Hi) in Hrun. discriminate.
      * rewrite Hframe. reflexivity.
Qed.

Lemma updateMetadata_hit_eq (id : string) (md : ProfileMetadata) (old : StoredProfile) (w : World) :
  auth_profiles w !! id = Some old ->
  updateMetadata id md w
  = (Ok (mkStored (profile old) (merge_metadata (metadata old) md)),
     set_profiles
       (<[id := mkStored (profile old) (merge_metadata (metadata old) md)]> (auth_profiles w))
       (snd (getProfileOrThrow id w))).
Proof.
  intros Hold. unfold updateMetadata, bind.
  destruct (getProfileOrThrow_frame id w) as [Hframe _].
  rewrite (getProfileOrThrow_hit id old w Hold) in *.
  rewrite putProfile_eq. cbn [snd] in *. rewrite Hframe. reflexivity.
Qed.

Lemma merge_metadata_idemp (old md : ProfileMetadata) :
  merge_metadata (merge_metadata old md) md = merge_metadata old md.
Proof.
  unfold merge_metadata. cbn [label connectionState source].
  destruct (label md), (source md); reflexivity.
Qed.

(** X5. When a profile is stored under [id], [updateMetadata(id, m)] returns
    and stores it with the same profile body and the connection state of
    [m]. The label and the source are the stored ones when [m] leaves the
    key out, are erased when [m] has the key with the value [undefined], and
    are those of [m] otherwise. Repeating the call gives the same record and
    the same stored profiles. *)
Theorem updateMetadata_merges (id : string) (md : ProfileMetadata) (old : StoredProfile)
    (w : World) :
  auth_profiles w !! id = Some old ->
  exists new w',
    updateMetadata id md w = (Ok new, w')
    /\ auth_profiles w' = <[id := new]> (auth_profiles w)
    /\ profile new = profile old
    /\ connectionState (metadata new) = connectionState md
    /\ label (metadata new)
       = match label md with
         | absent => label (metadata old)
         | undefined => undefined
         | present l => present l
         end
    /\ source (metadata new)
       = match source md with
         | absent => source (metadata old)
         | undefined => undefined
         | present s => present s
         end
    /\ fst (updateMetadata id md w') = Ok new
    /\ auth_profiles (snd (updateMetadata id md w')) = auth_profiles w'.
Proof.
  intros Hold. eexists _, _. split; [apply (updateMetadata_hit_eq id md old w Hold) |].
  set (new := mkStored (profile old) (merge_metadata (metadata old) md)).
  set (w' := set_profiles (<[id := new]> (auth_profiles w)) (snd (getProfileOrThrow id w))).
  assert (Hnew : auth_profiles w' !! id = Some new) by apply lookup_insert_eq.
  rewrite (updateMetadata_hit_eq id md new w' Hnew).
  cbn [fst snd profile metadata new auth_profiles set_profiles].
  rewrite merge_metadata_idemp.
  split; [reflexivity |]. split; [reflexivity |]. split; [reflexivity |].
  split; [unfold merge_metadata; cbn [label]; destruct (label md); reflexivity |].
  split; [unfold merge_metadata; cbn [source]; destruct (source md); reflexivity |].
  split; [reflexivity |]. unfold w'. cbn [auth_profiles set_profiles].
  apply insert_insert_eq.
Qed.

Lemma updateProfile_pointer (id : string) (p : Profile) (w : World) :
  auth_currentProfileId (snd (updateProfile id p w)) = auth_currentProfileId w.
Proof.
  destruct (getProfileOrThrow_frame id w) as [_ Hptr].
  destruct (auth_profiles w !! id) as [old|] eqn:Hold.
  - destruct (decide (type (profile old) = type p)) as [Hty|Hty].
    + rewrite (updateProfile_hit_eq id p old w Hold Hty). exact Hptr.
    + rewrite (updateProfile_mismatch_eq id p old w Hold Hty). exact Hptr.
  - destruct (inherited id) eqn:Hi.
    + rewrite (updateProfile_inherited_eq id p w Hold Hi). reflexivity.
    + rewrite (updateProfile_miss_eq id p w Hold Hi). reflexivity.
Qed.

Lemma updateMetadata_pointer (id : string) (md : ProfileMetadata) (w : World) :
  auth_currentProfileId (snd (updateMetadata id md w)) = auth_currentProfileId w.
Proof.
  destruct (getProfileOrThrow_frame id w) as [_ Hptr].
  destruct (auth_profiles w !! id) as [old|] eqn:Hold.
  - rewrite (updateMetadata_hit_eq id md old w Hold). exact Hptr.
  - unfold updateMetadata, bind.
    destruct (getProfileOrThrow id w) as [[q|e] w1] eqn:Hrun; cbn [snd] in *; [| exact Hptr].
    destruct (inherited id) eqn:Hi.
    + rewrite (getProfileOrThrow_inherited id w Hold Hi) in Hrun. discriminate.
    + rewrite (getProfileOrThrow_miss id w Hold Hi) in Hrun. discriminate.
Qed.

Lemma deleteProfile_frame (id : string) (w : World) :
  auth_currentProfileId (snd (deleteProfile id w)) = auth_currentProfileId w
  /\ auth_profiles (snd (deleteProfile id w)) = delete id (auth_profiles w).
Proof.
  destruct (auth_profiles w !! id) as [p|] eqn:Hp.
  - rewrite deleteProfile_eq by (rewrite Hp; discriminate). split; reflexivity.
  - destruct (inherited id) eqn:Hi.
    + rewrite (deleteProfile_inherited id w Hp Hi).
      cbn [snd auth_profiles auth_currentProfileId push_event].
      rewrite (delete_id _ _ Hp). split; reflexivity.
    + rewrite deleteProfile_eq by (intros _; exact Hi). split; reflexivity.
Qed.

(** X6. The current-profile pointer: [getCurrentProfileId] returns what
    [setCurrentProfileId] stored, setting it changes no stored profile, and
    no operation on profiles changes it. In particular, after the pointer
    is set to [id] and [deleteProfile(id)] is called, the pointer still
    names [id], under which nothing is stored: [getProfile(id)] gives
    [undefined], or the inherited member when [id] names one. *)
Theorem current_profile_pointer (c : option string) (id : string) (p : Profile)
    (md : ProfileMetadata) (w : World) :
  getCurrentProfileId (snd (setCurrentProfileId c w))
  = (Ok c, snd (setCurrentProfileId c w))
  /\ auth_profiles (snd (setCurrentProfileId c w)) = auth_profiles w
  /\ auth_currentProfileId (snd (addProfile id p w)) = auth_currentProfileId w
  /\ auth_currentProfileId (snd (updateProfile id p w)) = auth_currentProfileId w
  /\ auth_currentProfileId (snd (updateMetadata id md w)) = auth_currentProfileId w
  /\ auth_currentProfileId (snd (deleteProfile id w)) = auth_currentProfileId w
  /\ auth_currentProfileId (snd (getProfileOrThrow id w)) = auth_currentProfileId w
  /\ fst (getCurrentProfileId
            (snd ((setCurrentProfileId (Some id) ;;; deleteProfile id) w)))
     = Ok (Some id)
  /\ auth_profiles (snd ((setCurrentProfileId (Some id) ;;; deleteProfile id) w)) !! id = None
  /\ fst (getProfile id (snd ((setCurrentProfileId (Some id) ;;; deleteProfile id) w)))
     = Ok (if bool_decide (id ∈ object_prototype_names) then Inherited else Missing).
Proof.
  split; [reflexivity |]. split; [reflexivity |]. split; [reflexivity |].
  split; [apply updateProfile_pointer |]. split; [apply updateMetadata_pointer |].
  split; [apply deleteProfile_frame |]. split; [apply getProfileOrThrow_frame |].
  set (w0 := set_currentProfileId (Some id) w).
  assert (Hrun : snd ((setCurrentProfileId (Some id) ;;; deleteProfile id) w)
                 = snd (deleteProfile id w0)).
  { unfold bind, w0. cbn [setCurrentProfileId modify].
    destruct (deleteProfile id _) as [[u|e] w1]; reflexivity. }
  rewrite Hrun. destruct (deleteProfile_frame id w0) as [Hptr Hmap].
  split; [cbn [getCurrentProfileId gets fst]; rewrite Hptr; reflexivity |].
  assert (Hgone : auth_profiles (snd (deleteProfile id w0)) !! id = None)
    by (rewrite Hmap; apply lookup_delete_eq).
  split; [exact Hgone |].
  rewrite getProfile_eq. cbn [fst]. unfold js_get. rewrite Hgone. reflexivity.
Qed.

(** What a successful [getProfileOrThrow] leaves behind. *)
Lemma getProfileOrThrow_after (id : string) (p : StoredProfile) (w : World) :
  auth_profiles w !! id = Some p ->
  fst (getProfileOrThrow id w) = Ok p
  /\ auth_profiles (snd (getProfileOrThrow id w)) = auth_profiles w
  /\ prevGetProfile (snd (getProfileOrThrow id w)) = Some (id, connectionState (metadata p))
  /\ emitted (snd (getProfileOrThrow id w))
     = emitted w
       ++ (if deduplicated w id (connectionState (metadata p)) then []
           else [mkEvent "getProfile" id Succeeded (getTelemetryForProfile (Some p)) None]).
Proof.
  intros Hp. rewrite (getProfileOrThrow_hit id p w Hp).
  destruct (deduplicated w id (connectionState (metadata p))) eqn:Hd; cbn [fst snd].
  - apply bool_decide_eq_true_1 in Hd. rewrite app_nil_r. repeat split. exact Hd.
  - repeat split.
Qed.

(** X7. The de-duplication of [getProfileOrThrow] remembers the last pair
    only. After a call for a stored id [a], a call for another stored id
    [b] emits a [Succeeded] event and so does the call for [a] after it; and
    after [updateMetadata(a, m)] a call for [a] emits again exactly when [m]
    changed the connection state. *)
Theorem getProfileOrThrow_reemits (a b : string) (pa pb : StoredProfile)
    (md : ProfileMetadata) (w : World) :
  a ≠ b ->
  auth_profiles w !! a = Some pa ->
  auth_profiles w !! b = Some pb ->
  emitted_by (getProfileOrThrow b ;;; getProfileOrThrow a) (snd (getProfileOrThrow a w))
  = [mkEvent "getProfile" b Succeeded (getTelemetryForProfile (Some pb)) None;
     mkEvent "getProfile" a Succeeded (getTelemetryForProfile (Some pa)) None]
  /\ emitted_by (updateMetadata a md ;;; getProfileOrThrow a) (snd (getProfileOrThrow a w))
     = if bool_decide (connectionState md = connectionState (metadata pa)) then []
       else [mkEvent "getProfile" a Succeeded
               (getTelemetryForProfile
                  (Some (mkStored (profile pa) (merge_metadata (metadata pa) md))))
               None].
Proof.
  intros Hab Ha Hb.
  destruct (getProfileOrThrow_after a pa w Ha) as (_ & Hm1 & Hprev1 & _).
  set (w1 := snd (getProfileOrThrow a w)) in *.
  assert (Ha1 : auth_profiles w1 !! a = Some pa) by (rewrite Hm1; exact Ha).
  assert (Hb1 : auth_profiles w1 !! b = Some pb) by (rewrite Hm1; exact Hb).
  split.
  - destruct (getProfileOrThrow_after b pb w1 Hb1) as (Hr2 & Hm2 & Hprev2 & He2).
    set (w2 := snd (getProfileOrThrow b w1)) in *.
    assert (Ha2 : auth_profiles w2 !! a = Some pa) by (rewrite Hm2; exact Ha1).
    destruct (getProfileOrThrow_after a pa w2 Ha2) as (_ & _ & _ & He3).
    assert (Hd2 : deduplicated w1 b (connectionState (metadata pb)) = false).
    { apply bool_decide_eq_false_2. rewrite Hprev1. congruence. }
    assert (Hd3 : deduplicated w2 a (connectionState (metadata pa)) = false).
    { apply bool_decide_eq_false_2. rewrite Hprev2. congruence. }
    rewrite Hd2 in He2. rewrite Hd3, He2 in He3.
    unfold emitted_by, bind.
    destruct (getProfileOrThrow b w1) as [[r|e] w2'] eqn:Hrun; cbn [fst snd] in *;
      [| discriminate].
    subst w2. rewrite He3, <- app_assoc, drop_app_length. reflexivity.
  - pose proof (updateMetadata_hit_eq a md pa w1 Ha1) as Hupd.
    destruct (getProfileOrThrow_after a pa w1 Ha1) as (_ & Hm1' & Hprev1' & He1').
    assert (Hd1 : deduplicated w1 a (connectionState (metadata pa)) = true).
    { apply bool_decide_eq_true_2. exact Hprev1. }
    rewrite Hd1, app_nil_r in He1'.
    set (new := mkStored (profile pa) (merge_metadata (metadata pa) md)) in *.
    set (w2 := set_profiles (<[a := new]> (auth_profiles w1)) (snd (getProfileOrThrow a w1))) in *.
    assert (Hnew : auth_profiles w2 !! a = Some new) by apply lookup_insert_eq.
    destruct (getProfileOrThrow_after a new w2 Hnew) as (_ & _ & _ & He3).
    assert (He2 : emitted w2 = emitted w1) by exact He1'.
    assert (Hprev2 : prevGetProfile w2 = Some (a, connectionState (metadata pa)))
      by exact Hprev1'.
    unfold emitted_by, bind. rewrite Hupd. cbn [snd]. rewrite He3, He2, drop_app_length.
    unfold deduplicated. rewrite Hprev2. cbn [new metadata merge_metadata connectionState].
    destruct (decide (connectionState md = connectionState (metadata pa))) as [Heq|Hne].
    + rewrite !bool_decide_eq_true_2; [reflexivity | exact Heq | congruence].
    + rewrite !bool_decide_eq_false_2; [reflexivity | exact Hne | congruence].
Qed.

(** X8. A miss of [getProfileOrThrow], for an id that is not stored and
    does not name a member of [Object.prototype], is never de-duplicated and
    does not disturb the de-duplication of hits: a second miss in a row
    emits its own [Failed] event, and after a hit for [a] and a miss for [b]
    the next call for [a] emits nothing. *)
Theorem getProfileOrThrow_failures (a b : string) (pa : StoredProfile) (w : World) :
  auth_profiles w !! a = Some pa ->
  auth_profiles w !! b = None ->
  b ∉ object_prototype_names ->
  emitted_by (getProfileOrThrow b) (snd (getProfileOrThrow b w))
  = [mkEvent "getProfile" b Failed no_telemetry (Some (ProfileNotFoundError b))]
  /\ fst (getProfileOrThrow b (snd (getProfileOrThrow a w))) = Err (ProfileNotFoundError b)
  /\ emitted_by (getProfileOrThrow a)
       (snd (getProfileOrThrow b (snd (getProfileOrThrow a w))))
     = [].
Proof.
  intros Ha Hb Hplain.
  assert (Hi : inherited b = false) by (apply bool_decide_eq_false_2, Hplain).
  split; [| split].
  - rewrite (getProfileOrThrow_miss b w Hb Hi). cbn [snd].
    apply emitted_by_one. rewrite getProfileOrThrow_miss; [reflexivity | exact Hb | exact Hi].
  - destruct (getProfileOrThrow_after a pa w Ha) as (_ & Hm1 & _).
    rewrite getProfileOrThrow_miss; [reflexivity | rewrite Hm1; exact Hb | exact Hi].
  - destruct (getProfileOrThrow_after a pa w Ha) as (_ & Hm1 & Hprev1 & _).
    set (w1 := snd (getProfileOrThrow a w)) in *.
    assert (Hb1 : auth_profiles w1 !! b = None) by (rewrite Hm1; exact Hb).
    rewrite (getProfileOrThrow_miss b w1 Hb1 Hi). cbn [snd].
    set (w2 := push_event _ w1).
    assert (Ha2 : auth_profiles w2 !! a = Some pa) by (unfold w2; cbn; rewrite Hm1; exact Ha).
    destruct (getProfileOrThrow_after a pa w2 Ha2) as (_ & _ & _ & He).
    apply emitted_by_nil. rewrite He.
    assert (Hd : deduplicated w2 a (connectionState (metadata pa)) = true)
      by (apply bool_decide_eq_true_2; exact Hprev1).
    rewrite Hd. apply app_nil_r.
Qed.

(** ** More about the linked-profile discovery *)

Lemma discover_map_origin (sourceId : string) (infos : list RoleInfo) :
  forall m id p,
    discover_map sourceId infos m !! id = Some p ->
    m !! id = Some p \/ (id, p) ∈ discover_yields sourceId infos m.
Proof.
  induction infos as [|i infos IH]; intros m id p Hp.
  - left. exact Hp.
  - destruct (m !! linkedId sourceId i) as [q|] eqn:Hq.
    + destruct (discover_map_stored sourceId i infos m q Hq) as [Em Ey].
      rewrite Em in Hp. rewrite Ey. apply IH, Hp.
    + destruct (discover_map_new sourceId i infos m Hq) as [Em Ey].
      rewrite Em in Hp. rewrite Ey. destruct (IH _ _ _ Hp) as [H|H].
      * rewrite lookup_insert in H. case_decide as Hid.
        -- subst id. injection H as <-. right. apply list_elem_of_here.
        -- left. exact H.
      * right. apply list_elem_of_further, H.
Qed.

(** X9. A discovery run for the session [sourceId], drained or abandoned
    after any number of items, never changes or deletes a stored profile
    that is not a linked profile of that session: [sso] profiles, unknown
    profiles and the linked profiles of other sessions are stored after the
    run as they were before. *)
Theorem discovery_keeps_others (sourceId : string) (ssoProfile : SsoProfile)
    (client : SsoClient) (w w' : World) (k : nat) (ys : list (string * StoredProfile))
    (fin : option (JsSet.t * JsSet.t)) (id : string) (p : StoredProfile) :
  consume k (loadLinkedProfilesIntoStore sourceId ssoProfile client) w = (Ok (ys, fin), w') ->
  auth_profiles w !! id = Some p ->
  (forall l, profile p = IamLinked l -> ssoSession l ≠ sourceId) ->
  auth_profiles w' !! id = Some p.
Proof using object_entries_perm.
  intros Hrun Hp Hother. apply consume_inv in Hrun.
  unfold consume_post, loadLinkedProfilesIntoStore in Hrun.
  cbn [g_sourceId g_ssoProfile g_pending g_accounts g_found] in Hrun.
  destruct fin as [[accounts found]|].
  - destruct Hrun as (_ & _ & _ & Hmap & _). rewrite Hmap, cleaned_lookup.
    rewrite (lookup_weaken _ _ _ _ Hp (discover_map_subseteq sourceId _ _)).
    destruct (stale sourceId found id p) eqn:Hs; [| reflexivity].
    apply stale_true in Hs as (l & Hl & Hsess & _). destruct (Hother l Hl Hsess).
  - destruct Hrun as [Hsub _]. eapply lookup_weaken; eassumption.
Qed.

(** X10. After a discovery run that reached the end of the generator, every
    linked profile of the session left in the store has an id derived from a
    role of the stream, and every stored record is one that was stored
    before the run or one that the run yielded. *)
Theorem discovery_leaves_no_stale (sourceId : string) (ssoProfile : SsoProfile)
    (client : SsoClient) (w w' : World) (k : nat) (ys : list (string * StoredProfile))
    (fin : JsSet.t * JsSet.t) (id : string) (p : StoredProfile) :
  consume k (loadLinkedProfilesIntoStore sourceId ssoProfile client) w
  = (Ok (ys, Some fin), w') ->
  auth_profiles w' !! id = Some p ->
  (auth_profiles w !! id = Some p \/ (id, p) ∈ ys)
  /\ (forall l,
        profile p = IamLinked l ->
        ssoSession l = sourceId ->
        exists info, Role info ∈ role_stream client /\ id = linkedId sourceId info).
Proof using object_entries_perm.
  intros Hrun Hp. destruct fin as [accounts found]. apply consume_inv in Hrun.
  unfold consume_post, loadLinkedProfilesIntoStore in Hrun.
  cbn [g_sourceId g_ssoProfile g_pending g_accounts g_found] in Hrun.
  destruct Hrun as (Hys & _ & Hfound & Hmap & _).
  rewrite Hmap, cleaned_lookup in Hp.
  destruct (discover_map sourceId (stream_roles (role_stream client)) (auth_profiles w) !! id)
    as [q|] eqn:Hq; [| discriminate].
  destruct (stale sourceId found id q) eqn:Hs; [discriminate |].
  injection Hp as ->. split.
  - rewrite Hys. apply discover_map_origin, Hq.
  - intros l Hl Hsess.
    destruct (decide (id ∈ found)) as [Hin|Hnin].
    + rewrite Hfound in Hin.
      apply elem_of_discover_found in Hin as [Hin|(info & Hin & ->)]; [inversion Hin |].
      exists info. split; [apply elem_of_stream_roles, Hin | reflexivity].
    + assert (Hstale : stale sourceId found id p = true)
        by (apply stale_true; exists l; auto).
      congruence.
Qed.

(** X11. A consumer that calls [next()] [k] times receives the first [k] of
    the pairs a drained run yields; the generator reaches its end (and runs
    the clean-up) exactly when [k] is greater than the number of new
    profiles; and when the consumer leaves before that, the stored profiles
    are the ones stored before with the yielded pairs added. *)
Theorem consume_yields_prefix (k : nat) :
  forall (g : Generator) (w w' : World) (ys : list (string * StoredProfile))
         (fin : option (JsSet.t * JsSet.t)),
    consume k g w = (Ok (ys, fin), w') ->
    ys = take k (discover_yields (g_sourceId g) (stream_roles (g_pending g)) (auth_profiles w))
    /\ (fin = None
        <-> k <= length (discover_yields (g_sourceId g) (stream_roles (g_pending g))
                           (auth_profiles w)))
    /\ (fin = None ->
        auth_profiles w' = fold_left (fun m kv => <[kv.1 := kv.2]> m) ys (auth_profiles w)).
Proof using object_entries_perm.
  induction k as [|k IH]; intros g w w' ys fin Hrun.
  - injection Hrun as <- <- <-. split; [reflexivity |].
    split; [split; [lia | reflexivity] | reflexivity].
  - cbn [consume] in Hrun. unfold bind, next in Hrun.
    destruct (resume_spec (g_sourceId g) (g_ssoProfile g) (g_pending g)
                (g_accounts g) (g_found g) w)
      as [(id & p & rest & w1 & Hstep & Hpost)|(accounts' & found' & w1 & Hstep & Hpost)];
      rewrite Hstep in Hrun.
    + destruct (consume k rest w1) as [[[ys' fin']|e] w2] eqn:Hrest; [| discriminate].
      cbn [ret fst snd] in Hrun. injection Hrun as <- <- <-.
      destruct (IH rest w1 w2 ys' fin' Hrest) as (Hys & Hfin & Hmap).
      destruct Hpost as (HS & _ & _ & _ & Hins & _ & Hall & _).
      rewrite HS in Hys, Hfin. rewrite Hall. cbn [take length fold_left fst snd].
      split; [rewrite <- Hys; reflexivity |].
      split; [rewrite Hfin; lia |].
      intros Hnone. rewrite (Hmap Hnone), Hins. reflexivity.
    + cbn [ret] in Hrun. injection Hrun as <- <- <-.
      destruct Hpost as (_ & _ & _ & Hall & _). rewrite Hall.
      split; [reflexivity |]. split; [| discriminate].
      split; [discriminate | cbn [length]; lia].
Qed.

(** ** More about the unmanaged-profile sync *)

(** X12. A sync that returns leaves every [sso] profile, every linked profile
    whose session is a stored [sso] profile and every unknown profile whose
    id is enumerated as it was, metadata included; it stores nothing under
    an id with [sso:] prefix that was not stored, and nothing under an id
    that was neither stored nor enumerated. *)
Theorem loadIamProfilesIntoStore_keeps (providers : gmap string CredentialsId)
    (w w' : World) (removed : list CredentialsId) :
  loadIamProfilesIntoStore providers w = (Ok removed, w') ->
  (forall id p,
      auth_profiles w !! id = Some p ->
      match profile p with
      | Sso _ => True
      | IamLinked l => has_sso (auth_profiles w) (ssoSession l) = true
      | IamUnknown _ => is_Some (providers !! id)
      end ->
      auth_profiles w' !! id = Some p)
  /\ (forall id,
        auth_profiles w !! id = None ->
        String.prefix "sso:" id = true \/ providers !! id = None ->
        auth_profiles w' !! id = None).
Proof using object_entries_perm.
  intros Hrun.
  pose proof (proj1 (loadIamProfilesIntoStore_final providers w w' removed Hrun)) as Hfinal.
  split.
  - intros id p Hp Hgood. rewrite Hfinal, keep_unless_lookup, Hp.
    assert (Hd : doomed (auth_profiles w) providers id p = false);
      [| rewrite Hd; reflexivity].
    unfold doomed. destruct (profile p) as [s|l|n].
    + reflexivity.
    + rewrite Hgood. reflexivity.
    + destruct Hgood as [c Hc]. rewrite bool_decide_eq_false_2 by congruence. reflexivity.
  - intros id Hnone Hwhy. rewrite Hfinal, keep_unless_lookup, Hnone.
    destruct (providers !! id) as [c|]; [| reflexivity].
    destruct Hwhy as [-> | Hc]; [reflexivity | discriminate].
Qed.

Lemma sync_stored_noop (providers : gmap string CredentialsId)
    (l : list (string * StoredProfile)) (removed : list CredentialsId) (w : World) :
  (forall id p, (id, p) ∈ l -> doomed (auth_profiles w) providers id p = false) ->
  fold_of l (sync_stored providers) removed w = (Ok removed, w).
Proof.
  induction l as [|[id p] l IH]; intros Hall; [reflexivity |].
  cbn [fold_of]. unfold bind.
  assert (Hstep : sync_stored providers removed (id, p) w = (Ok removed, w)).
  { pose proof (Hall id p (list_elem_of_here _ _)) as Hd.
    unfold sync_stored, doomed in *. destruct (profile p) as [s|lk|n].
    - reflexivity.
    - unfold bind. rewrite getProfile_eq, orphan_test, Hd. reflexivity.
    - rewrite <- unlisted_test in Hd.
      destruct (js_get providers id); [reflexivity | reflexivity | discriminate]. }
  rewrite Hstep. apply IH. intros k q Hin. apply Hall, list_elem_of_further, Hin.
Qed.

Lemma sync_provider_noop (l : list (string * CredentialsId)) (w : World) :
  (forall id c,
      (id, c) ∈ l ->
      is_Some (auth_profiles w !! id) \/ String.prefix "sso:" id || inherited id = true) ->
  for_of l sync_provider w = (Ok tt, w).
Proof.
  induction l as [|[id c] l IH]; intros Hall; [reflexivity |].
  cbn [for_of]. unfold bind.
  assert (Hstep : sync_provider (id, c) w = (Ok tt, w)).
  { unfold sync_provider, bind. rewrite getProfile_eq. unfold js_get.
    destruct (Hall id c (list_elem_of_here _ _)) as [[x ->]| Hskip]; [reflexivity |].
    destruct (auth_profiles w !! id); [reflexivity |].
    destruct (inherited id); [reflexivity |].
    rewrite orb_false_r in Hskip. rewrite Hskip. reflexivity. }
  rewrite Hstep. apply IH. intros k q Hin. apply (Hall k q), list_elem_of_further, Hin.
Qed.

(** X13. The sync is idempotent: run again with the same enumeration on the
    state a returned sync left, it returns, calls [removeProvider] for no
    id, and changes nothing at all, neither a stored profile nor the
    telemetry sink; it does not call [fromString] and so cannot fail there. *)
Theorem loadIamProfilesIntoStore_idempotent (providers : gmap string CredentialsId)
    (w w' : World) (removed : list CredentialsId) :
  loadIamProfilesIntoStore providers w = (Ok removed, w') ->
  loadIamProfilesIntoStore providers w' = (Ok [], w').
Proof using object_entries_perm.
  intros Hrun.
  pose proof (proj1 (loadIamProfilesIntoStore_final providers w w' removed Hrun)) as Hfinal.
  set (m0 := auth_profiles w) in *.
  assert (Hkept : forall id p,
            keep_unless (doomed m0 providers) m0 !! id = Some p ->
            m0 !! id = Some p /\ doomed m0 providers id p = false).
  { intros id p. rewrite keep_unless_lookup.
    destruct (m0 !! id) as [q|]; [| discriminate].
    destruct (doomed m0 providers id q) eqn:Hd; [discriminate |].
    intros Heq. injection Heq as <-. auto. }
  assert (Hhealthy : forall id p,
            auth_profiles w' !! id = Some p ->
            doomed (auth_profiles w') providers id p = false).
  { intros id p Hp. rewrite Hfinal in Hp.
    destruct (keep_unless (doomed m0 providers) m0 !! id) as [q|] eqn:Hq.
    - injection Hp as <-. destruct (Hkept id q Hq) as [Hq0 Hd].
      unfold doomed in Hd |- *. destruct (profile q) as [s|lk|n]; [reflexivity | | exact Hd].
      apply negb_false_iff in Hd. apply negb_false_iff.
      unfold has_sso in Hd |- *.
      destruct (m0 !! ssoSession lk) as [s|] eqn:Hs; [| discriminate].
      assert (Hs1 : keep_unless (doomed m0 providers) m0 !! ssoSession lk = Some s).
      { rewrite keep_unless_lookup, Hs. unfold doomed.
        apply bool_decide_eq_true_1 in Hd.
        destruct (profile s); [reflexivity | discriminate | discriminate]. }
      rewrite Hfinal, Hs1. exact Hd.
    - destruct (providers !! id) as [c|] eqn:Hc; [| discriminate].
      destruct (String.prefix "sso:" id || inherited id); [discriminate |].
      injection Hp as <-. unfold doomed. cbn [profile initMetadata].
      rewrite bool_decide_eq_false_2 by congruence. reflexivity. }
  unfold loadIamProfilesIntoStore, listProfiles, bind. cbn [getData gets ret].
  rewrite sync_stored_noop.
  - rewrite sync_provider_noop; [reflexivity |].
    intros id c Hin. apply object_entries_lookup in Hin.
    rewrite Hfinal, Hin.
    destruct (keep_unless (doomed m0 providers) m0 !! id); [left; eauto |].
    destruct (String.prefix "sso:" id || inherited id); [right; reflexivity | left; eauto].
  - intros id p Hin. apply Hhealthy, object_entries_lookup, Hin.
Qed.

Lemma sync_stored_step_err (m0 : gmap string StoredProfile)
    (providers : gmap string CredentialsId) (removed : list CredentialsId)
    (id : string) (p : StoredProfile) (w w' : World) (e : StoreError) :
  m0 !! id = Some p ->
  is_Some (auth_profiles w !! id) ->
  only_iam_deleted m0 (auth_profiles w) ->
  sync_stored providers removed (id, p) w = (Err e, w') ->
  e = CredentialsIdError id
  /\ fromString id = None
  /\ (exists lk, profile p = IamLinked lk /\ has_sso m0 (ssoSession lk) = false)
  /\ auth_profiles w' = delete id (auth_profiles w).
Proof.
  intros Hp Hown Hinv. unfold sync_stored.
  assert (Hdel : auth_profiles w !! id = None -> inherited id = false).
  { intros Hnone. destruct Hown as [q Hq]. congruence. }
  destruct (profile p) as [s|lk|n] eqn:Hprof.
  - discriminate.
  - unfold bind. rewrite getProfile_eq, orphan_test.
    destruct (negb _) eqn:Hcond; [| discriminate].
    rewrite (deleteProfile_eq id w Hdel).
    destruct (fromString id) as [c|] eqn:Hc; [discriminate |].
    intros Hrun. injection Hrun as <- <-.
    split; [reflexivity |]. split; [reflexivity |]. split; [| reflexivity].
    exists lk. split; [reflexivity |].
    rewrite <- (has_sso_stable m0 (auth_profiles w) (ssoSession lk) Hinv).
    apply negb_true_iff, Hcond.
  - destruct (js_get providers id); [discriminate | discriminate |].
    unfold bind. rewrite (deleteProfile_eq id w Hdel). discriminate.
Qed.

Lemma sync_stored_loop_err (m0 : gmap string StoredProfile)
    (providers : gmap string CredentialsId) (l : list (string * StoredProfile)) :
  (forall id p, (id, p) ∈ l -> m0 !! id = Some p) ->
  NoDup l.*1 ->
  forall (removed : list CredentialsId) (w w' : World) (e : StoreError),
    only_iam_deleted m0 (auth_profiles w) ->
    (forall id, id ∈ l.*1 -> is_Some (auth_profiles w !! id)) ->
    fold_of l (sync_stored providers) removed w = (Err e, w') ->
    only_iam_deleted m0 (auth_profiles w')
    /\ exists id p lk,
         (id, p) ∈ l /\ profile p = IamLinked lk /\ has_sso m0 (ssoSession lk) = false
         /\ fromString id = None /\ e = CredentialsIdError id
         /\ auth_profiles w' !! id = None.
Proof.
  induction l as [|[id p] l IH]; intros Hsnap Hnd removed w w' e Hinv Hown Hrun;
    [discriminate |].
  cbn [fmap list_fmap fst] in Hnd, Hown. apply NoDup_cons in Hnd as [Hfresh Hnd].
  cbn [fold_of] in Hrun. unfold bind in Hrun.
  pose proof (Hsnap id p (list_elem_of_here _ _)) as Hp.
  pose proof (Hown id (list_elem_of_here _ _)) as Hidown.
  destruct (sync_stored providers removed (id, p) w) as [[r1|e1] w1] eqn:Hstep.
  - destruct (sync_stored_step m0 providers removed r1 id p w w1 Hp Hidown Hinv Hstep)
      as (Hm1 & Hinv1 & _).
    destruct (IH (fun k q Hin => Hsnap k q (list_elem_of_further _ _ _ Hin)) Hnd
                r1 w1 w' e Hinv1)
      as (Hinv' & k & q & lk & Hin & Hrest); [| exact Hrun |].
    { intros k Hk. rewrite Hm1, delete_if_other by (cbn; intros ->; contradiction).
      apply Hown, list_elem_of_further, Hk. }
    split; [exact Hinv' |]. exists k, q, lk. split; [apply list_elem_of_further, Hin | exact Hrest].
  - injection Hrun as <- <-.
    destruct (sync_stored_step_err m0 providers removed id p w w1 e1 Hp Hidown Hinv Hstep)
      as (-> & Hnone & (lk & Hlk & Hno) & Hmap).
    split.
    + rewrite Hmap. eapply only_iam_deleted_delete; [exact Hinv | exact Hp |].
      rewrite Hlk. reflexivity.
    + exists id, p, lk. rewrite Hmap, lookup_delete_eq.
      repeat split; try assumption. apply list_elem_of_here.
Qed.

(** X14. A sync can only fail in [fromString]: when it throws, it does so
    for the id of a stored linked profile whose session is not a stored
    [sso] profile, that profile has already been deleted from the store,
    and nothing has been added: every record then stored was stored
    before. *)
Theorem loadIamProfilesIntoStore_throws (providers : gmap string CredentialsId)
    (w w' : World) (e : StoreError) :
  loadIamProfilesIntoStore providers w = (Err e, w') ->
  (exists id p lk,
      auth_profiles w !! id = Some p
      /\ profile p = IamLinked lk
      /\ has_sso (auth_profiles w) (ssoSession lk) = false
      /\ fromString id = None
      /\ e = CredentialsIdError id
      /\ auth_profiles w' !! id = None)
  /\ (forall id q, auth_profiles w' !! id = Some q -> auth_profiles w !! id = Some q).
Proof using object_entries_perm.
  unfold loadIamProfilesIntoStore, listProfiles, bind. cbn [getData gets ret].
  set (m0 := auth_profiles w).
  destruct (fold_of (object_entries StoredProfile m0) (sync_stored providers) [] w)
    as [[r1|e1] w1] eqn:Hloop1.
  - destruct (sync_provider_loop (object_entries CredentialsId providers)
                (object_entries_NoDup providers) w1) as (w2 & -> & _).
    discriminate.
  - intros Hrun. injection Hrun as <- <-.
    destruct (entries_snapshot m0) as (Hsnap & Hnd & Hown).
    destruct (sync_stored_loop_err m0 providers (object_entries StoredProfile m0) Hsnap Hnd
                [] w w1 e1 (fun id => or_introl eq_refl) Hown Hloop1)
      as (Hinv & id & p & lk & Hin & Hrest).
    split.
    + exists id, p, lk. split; [apply object_entries_lookup, Hin | exact Hrest].
    + intros k q Hq. destruct (Hinv k) as [Heq|[Hnone _]]; congruence.
Qed.

(** ** Connections and scopes *)

(** X15. The classification of connections: no connection and an [iam]
    connection are no kind of [sso] connection; an [sso] connection is of
    kind [any] and of exactly one of the kinds [idc] and [builderId], the
    latter exactly when its start URL is the builder-ID URL; and a
    connection is a valid CodeCatalyst connection exactly when it is an
    [sso] connection whose scopes include [codecatalyst:read_write]. *)
Theorem connection_kinds (builderIdStartUrl : string) (conn : option Connection) :
  isAnySsoConnection builderIdStartUrl conn
  = xorb (isIdcSsoConnection builderIdStartUrl conn) (isBuilderIdConnection builderIdStartUrl conn)
  /\ isIdcSsoConnection builderIdStartUrl conn
     = isAnySsoConnection builderIdStartUrl conn
       && negb (isBuilderIdConnection builderIdStartUrl conn)
  /\ isIamConnection conn && isAnySsoConnection builderIdStartUrl conn = false
  /\ isIamConnection conn || isAnySsoConnection builderIdStartUrl conn
     = bool_decide (is_Some conn)
  /\ (isBuilderIdConnection builderIdStartUrl conn = true
      <-> exists c, conn = Some (SsoConn c) /\ startUrl (sso_profile c) = builderIdStartUrl)
  /\ (isValidCodeCatalystConnection builderIdStartUrl conn = true
      <-> exists c,
            conn = Some (SsoConn c)
            /\ "codecatalyst:read_write" ∈ default [] (read (scopes (sso_profile c)))).
Proof.
  unfold isAnySsoConnection, isIdcSsoConnection, isBuilderIdConnection,
    isValidCodeCatalystConnection, isSsoConnection, isIamConnection.
  destruct conn as [[c|c]|].
  - repeat split; try reflexivity; try discriminate;
      intros (c' & Heq & _); discriminate.
  - destruct (bool_decide (startUrl (sso_profile c) = builderIdStartUrl)) eqn:Hb;
      (split; [reflexivity |]); (split; [reflexivity |]); (split; [reflexivity |]);
      (split; [reflexivity |]); split.
    + apply bool_decide_eq_true_1 in Hb. split; [eauto | reflexivity].
    + cbn [andb]. rewrite hasScopes_subset. split.
      * intros Hall. exists c. split; [reflexivity |]. apply Hall, list_elem_of_here.
      * intros (c' & Heq & Hin) s Hs. injection Heq as <-.
        apply list_elem_of_singleton in Hs. subst s. exact Hin.
    + apply bool_decide_eq_false_1 in Hb. split; [discriminate |].
      intros (c' & Heq & Hurl). injection Heq as <-. contradiction.
    + cbn [andb]. rewrite hasScopes_subset. split.
      * intros Hall. exists c. split; [reflexivity |]. apply Hall, list_elem_of_here.
      * intros (c' & Heq & Hin) s Hs. injection Heq as <-.
        apply list_elem_of_singleton in Hs. subst s. exact Hin.
  - repeat split; try reflexivity; try discriminate;
      intros (c' & Heq & _); discriminate.
Qed.

Lemma hasExactScopes_refl (p : SsoProfile) (l : list string) :
  scopes p = present l -> hasExactScopes (TargetProfile p) l = true.
Proof.
  intros Hl. unfold hasExactScopes, target_scopes. rewrite Hl. cbn [default].
  rewrite Nat.eqb_refl. cbn [andb]. apply every_includes. auto.
Qed.

(** X16. Profiles made by the two constructors: a connection carrying
    [createBuilderIdProfile(scopes)] is a builder-ID connection whatever the
    scopes; one carrying [createSsoProfile(startUrl, region, scopes)] is an
    Identity Center connection exactly when [startUrl] is not the builder-ID
    URL; both carry exactly the scopes given, or exactly the account-access
    scope when none are given, and in that case neither is a valid
    CodeCatalyst connection. *)
Theorem created_profiles (builderIdStartUrl id label url : string) (region : option string)
    (given : option (list string)) :
  isBuilderIdConnection builderIdStartUrl
    (Some (SsoConn (mkSsoConnection id label (createBuilderIdProfile builderIdStartUrl given))))
  = true
  /\ isIdcSsoConnection builderIdStartUrl
       (Some (SsoConn (mkSsoConnection id label (createSsoProfile url region given))))
     = negb (bool_decide (url = builderIdStartUrl))
  /\ hasExactScopes (TargetProfile (createBuilderIdProfile builderIdStartUrl given))
       (default scopesSsoAccountAccess given) = true
  /\ hasExactScopes (TargetProfile (createSsoProfile url region given))
       (default scopesSsoAccountAccess given) = true
  /\ isValidCodeCatalystConnection builderIdStartUrl
       (Some (SsoConn (mkSsoConnection id label (createSsoProfile url region None))))
     = false
  /\ isValidCodeCatalystConnection builderIdStartUrl
       (Some (SsoConn (mkSsoConnection id label (createBuilderIdProfile builderIdStartUrl None))))
     = false.
Proof.
  split; [apply bool_decide_eq_true_2; reflexivity |].
  split; [reflexivity |].
  split; [apply hasExactScopes_refl; reflexivity |].
  split; [apply hasExactScopes_refl; reflexivity |].
  split; reflexivity.
Qed.

(** X17. When the required scopes have no duplicates, [hasExactScopes] is
    equality of the two collections up to order: it is true exactly when
    the target's scopes are a permutation of the required ones. Whenever
    [hasExactScopes] is true so is [hasScopes]. Without the condition the
    test is not exact: for two different scopes [a] and [b], a target
    [[a, b]] has exactly the scopes [[a, a]]. *)
Theorem hasExactScopes_permutation (target : ScopeTarget) (required : list string) :
  NoDup required ->
  (hasExactScopes target required = true
   <-> required ≡ₚ default [] (target_scopes target))
  /\ (hasExactScopes target required = true -> hasScopes target required = true)
  /\ (forall a b : string, a ≠ b -> hasExactScopes (TargetArray [a; b]) [a; a] = true).
Proof.
  intros Hnd.
  pose proof (hasExactScopes_char target required) as Hchar.
  split; [| split].
  - rewrite Hchar. split.
    + intros [Hlen Hsub]. apply submseteq_length_Permutation.
      * apply NoDup_submseteq; assumption.
      * rewrite Hlen. reflexivity.
    + intros Hperm. split.
      * apply Permutation_length, Hperm.
      * intros s Hs. rewrite <- Hperm. exact Hs.
  - rewrite Hchar, hasScopes_subset. intros [_ Hsub]. exact Hsub.
  - intros a b Hab. unfold hasExactScopes. cbn [target_scopes default length Nat.eqb andb].
    apply every_includes. intros s Hs.
    apply elem_of_cons in Hs as [->|Hs]; [apply list_elem_of_here |].
    apply list_elem_of_singleton in Hs. subst s. apply list_elem_of_here.
Qed.

(** ** The pop-up cell *)

Lemma no_repeat_snoc (l : list (string * string)) (x : string * string) :
  no_repeat_in_a_row l -> last l ≠ Some x -> no_repeat_in_a_row (l ++ [x]).
Proof.
  induction l as [|a l IH]; intros Hl Hlast; [exact I |].
  destruct l as [|b l].
  - cbn. split; [| exact I]. intros ->. apply Hlast. reflexivity.
  - destruct Hl as [Hab Hrest]. cbn [app no_repeat_in_a_row]. split; [exact Hab |].
    apply IH; [exact Hrest |]. rewrite last_cons_cons in Hlast. exact Hlast.
Qed.

Lemma popups_consistent_step (due : bool) (popup : string * string) (w w' : World) :
  popups_consistent w ->
  shown w' = shown_after due popup w ->
  warnOnce_prev w' = warnOnce_prev_after due popup w ->
  popups_consistent w'.
Proof.
  intros [Hprev Hrow] Hshown Hcell. unfold popups_consistent.
  rewrite Hshown, Hcell. unfold shown_after, warnOnce_prev_after.
  destruct due; cbn [andb]; [| split; assumption].
  destruct (bool_decide (warnOnce_prev w = Some popup)) eqn:Hd; cbn [negb].
  - apply bool_decide_eq_true_1 in Hd. split; [congruence | exact Hrow].
  - apply bool_decide_eq_false_1 in Hd. split; [symmetry; apply last_snoc |].
    apply no_repeat_snoc; [exact Hrow | congruence].
Qed.

(** X26. The pop-up warning is never shown twice in a row. In a state where
    the [warnOnce] cell holds the message shown last and no message was
    shown twice in a row, as in a fresh one, both stay true after any call
    of [warnOnce] and after any discovery run, drained or abandoned. *)
Theorem popups_never_repeat (sourceId : string) (ssoProfile : SsoProfile)
    (client : SsoClient) (k : nat) (msg url : string) (w : World) :
  popups_consistent fresh_world
  /\ (popups_consistent w -> popups_consistent (snd (warnOnce msg url w)))
  /\ (popups_consistent w ->
      popups_consistent
        (snd (consume k (loadLinkedProfilesIntoStore sourceId ssoProfile client) w))).
Proof using object_entries_perm.
  split; [split; [reflexivity | exact I] |]. split.
  - intros Hw. destruct (warnOnce_after msg url w w eq_refl eq_refl) as [Hs Hp].
    exact (popups_consistent_step true (msg, url) w _ Hw Hs Hp).
  - intros Hw.
    destruct (consume_spec k (loadLinkedProfilesIntoStore sourceId ssoProfile client) w)
      as (ys & fin & w' & Hrun & Hpost & _).
    rewrite Hrun. cbn [snd]. unfold consume_post in Hpost.
    destruct fin as [[accounts found]|].
    + destruct Hpost as (_ & _ & _ & _ & _ & Hs & Hp).
      exact (popups_consistent_step _ _ w w' Hw Hs Hp).
    + destruct Hpost as (_ & _ & Hs & Hp). destruct Hw as [Hprev Hrow].
      split; [rewrite Hp, Hs; exact Hprev | rewrite Hs; exact Hrow].
Qed.

End Reconcilers.

(** ** Paginated listings *)

Lemma paginate_pages {A} (request : option string -> option (Page A))
    (pages : list (Page A)) (last : Page A) :
  forall (marker : option string) (fuel : nat),
    pages_from request marker pages last ->
    paginate fuel request marker
    = if decide (length pages < fuel) then Listed (items_of (pages ++ [last]))
      else Unfinished (items_of (take fuel pages)).
Proof.
  induction pages as [|p pages IH]; intros marker fuel Hfrom.
  - destruct Hfrom as [Hreq Hlast]. destruct fuel as [|fuel]; [reflexivity |].
    cbn [paginate]. rewrite Hreq, Hlast. unfold items_of. cbn. rewrite app_nil_r.
    reflexivity.
  - destruct Hfrom as (Hreq & Hnext & Hrest). destruct fuel as [|fuel]; [reflexivity |].
    cbn [paginate]. rewrite Hreq, Hnext. cbv zeta. rewrite (IH _ fuel Hrest).
    cbn [length]. destruct (decide (length pages < fuel)) as [Hlt|Hge].
    + rewrite decide_True by lia. reflexivity.
    + rewrite decide_False by lia. reflexivity.
Qed.

(** X18. [listFunctions] and [listLayerVersions] over a service that answers
    with a chain of pages, each naming the next by a non-empty [NextMarker]
    and the last naming none (or the empty string): the listing takes one
    request per page; with enough requests it ends and yields the items of
    all pages in order, a page without items contributing none, and with
    fewer it has yielded the items of the pages requested so far. *)
Theorem listFunctions_pages {A} (client : option string -> option (Page A))
    (layers : string -> option string -> option (Page A)) (name : string)
    (pages : list (Page A)) (last : Page A) (fuel : nat) :
  (pages_from client None pages last ->
   listFunctions fuel client
   = if decide (length pages < fuel) then Listed (items_of (pages ++ [last]))
     else Unfinished (items_of (take fuel pages)))
  /\ (pages_from (layers name) None pages last ->
      listLayerVersions fuel layers name
      = if decide (length pages < fuel) then Listed (items_of (pages ++ [last]))
        else Unfinished (items_of (take fuel pages))).
Proof.
  split; intros Hfrom; apply paginate_pages, Hfrom.
Qed.

(** X19. The listing trusts the service to end: when every response names a
    next page, as a service that keeps answering with the same marker does,
    no number of requests ends it, and a rejected request ends it at once
    with what was yielded before. *)
Theorem paginate_unending {A} (request : option string -> option (Page A)) (fuel : nat) :
  forall marker : option string,
    ((forall m, exists p, request m = Some p /\ truthy (NextMarker p) = true) ->
     exists yielded, paginate fuel request marker = Unfinished yielded)
    /\ (request marker = None -> paginate (S fuel) request marker = Rejected [])
    /\ (forall p,
          request marker = Some p ->
          truthy (NextMarker p) = true ->
          request (NextMarker p) = None ->
          paginate (S (S fuel)) request marker = Rejected (default [] (page_items p))).
Proof.
  intros marker. split; [| split].
  - intros Hnext. revert marker. induction fuel as [|fuel IH]; intros marker.
    + exists []. reflexivity.
    + destruct (Hnext marker) as (p & Hreq & Htruthy).
      destruct (IH (NextMarker p)) as [l Hl].
      exists (default [] (page_items p) ++ l).
      cbn [paginate]. rewrite Hreq, Htruthy. cbv zeta. rewrite Hl. reflexivity.
  - intros Hreq. cbn [paginate]. rewrite Hreq. reflexivity.
  - intros p Hreq Htruthy Hnone. cbn [paginate]. rewrite Hreq, Htruthy, Hnone.
    cbn [yielded_before]. rewrite app_nil_r. reflexivity.
Qed.

(** ** The State Machine Graph cache *)

Lemma writeToLocalStorage_eq (paths : GraphCachePaths) (env : CacheEnv)
    (dest data : string) (w : CacheWorld) :
  writeToLocalStorage paths env dest data w
  = if makeDir_fatal (mkdir_error env (dirPath paths))
    then (Some (MakeDirError (default None (mkdir_error env (dirPath paths)))), w)
    else if write_rejects env dest
         then (Some WriteFileError,
               mkCacheWorld (globalState w) (files w) (fetched w)
                 (cache_errors w ++ [LogWriteFailed]))
         else (None,
               mkCacheWorld (globalState w) (<[dest := data]> (files w))
                 (fetched w) (cache_errors w)).
Proof.
  unfold writeToLocalStorage, makeDir_fatal.
  destruct (mkdir_error env (dirPath paths)) as [code|]; [| reflexivity].
  destruct (truthy code && negb (bool_decide (code = Some "EEXIST"))); reflexivity.
Qed.

Lemma updateCachedFile_not_due (paths : GraphCachePaths) (env : CacheEnv)
    (options : UpdateCachedScriptOptions) (w : CacheWorld) :
  update_due options w = false -> updateCachedFile paths env options w = (None, w).
Proof.
  unfold updateCachedFile, update_due. cbv zeta. intros ->. reflexivity.
Qed.

Lemma updateCachedFile_due (paths : GraphCachePaths) (env : CacheEnv)
    (options : UpdateCachedScriptOptions) (w : CacheWorld) :
  update_due options w = true ->
  updateCachedFile paths env options w
  = match fetch env (currentURL options) with
    | None =>
        (Some NoContent,
         mkCacheWorld (globalState w) (files w) (fetched w ++ [currentURL options])
           (cache_errors w))
    | Some val =>
        if bool_decide (val = EmptyString)
        then (Some NoContent,
              mkCacheWorld (globalState w) (files w) (fetched w ++ [currentURL options])
                (cache_errors w))
        else if makeDir_fatal (mkdir_error env (dirPath paths))
        then (Some (MakeDirError (default None (mkdir_error env (dirPath paths)))),
              mkCacheWorld (globalState w) (files w) (fetched w ++ [currentURL options])
                (cache_errors w))
        else if write_rejects env (filePath options)
        then (Some WriteFileError,
              mkCacheWorld (globalState w) (files w) (fetched w ++ [currentURL options])
                (cache_errors w ++ [LogWriteFailed]))
        else (None,
              mkCacheWorld
                (<[lastDownloadedURLKey options := currentURL options]> (globalState w))
                (<[filePath options := val]> (files w))
                (fetched w ++ [currentURL options]) (cache_errors w))
    end.
Proof.
  unfold updateCachedFile, update_due. cbv zeta. intros ->.
  unfold httpsGetRequestWrapper.
  destruct (fetch env (currentURL options)) as [val|]; [| reflexivity].
  destruct (bool_decide (val = EmptyString)); [reflexivity |].
  rewrite writeToLocalStorage_eq.
  destruct (makeDir_fatal (mkdir_error env (dirPath paths))); [reflexivity |].
  destruct (write_rejects env (filePath options)); reflexivity.
Qed.

Lemma update_due_false (options : UpdateCachedScriptOptions) (w : CacheWorld) :
  update_due options w = false
  <-> globalState w !! lastDownloadedURLKey options = Some (currentURL options)
      /\ fileExists (filePath options) w = true.
Proof.
  unfold update_due. rewrite orb_false_iff, negb_false_iff, bool_decide_eq_false.
  split; intros [Hurl Hex]; (split; [| exact Hex]).
  - destruct (decide (globalState w !! lastDownloadedURLKey options
                      = Some (currentURL options))) as [H|H]; [exact H | destruct (Hurl H)].
  - intros Hne. apply Hne, Hurl.
Qed.

(** X20. [updateCachedFile] records the URL only after the file is written.
    When it returns, the recorded URL is the current one and the file
    exists: either nothing was to do and nothing changed, or the text
    fetched from the current URL, which is not empty, was written to the
    file and the URL recorded. When it throws, a fetch was made but neither
    the recorded URLs nor the files changed. *)
Theorem updateCachedFile_outcome (paths : GraphCachePaths) (env : CacheEnv)
    (options : UpdateCachedScriptOptions) (w : CacheWorld) :
  match updateCachedFile paths env options w with
  | (None, w') =>
      globalState w' !! lastDownloadedURLKey options = Some (currentURL options)
      /\ fileExists (filePath options) w' = true
      /\ (w' = w
          \/ exists data,
               fetch env (currentURL options) = Some data
               /\ data ≠ EmptyString
               /\ files w' = <[filePath options := data]> (files w)
               /\ globalState w'
                  = <[lastDownloadedURLKey options := currentURL options]> (globalState w)
               /\ fetched w' = fetched w ++ [currentURL options])
  | (Some e, w') =>
      globalState w' = globalState w
      /\ files w' = files w
      /\ fetched w' = fetched w ++ [currentURL options]
  end.
Proof.
  destruct (update_due options w) eqn:Hdue.
  - rewrite (updateCachedFile_due paths env options w Hdue).
    destruct (fetch env (currentURL options)) as [val|] eqn:Hfetch; [| repeat split].
    destruct (bool_decide (val = EmptyString)) eqn:Hval; [repeat split |].
    destruct (makeDir_fatal (mkdir_error env (dirPath paths))); [repeat split |].
    destruct (write_rejects env (filePath options)); [repeat split |].
    cbn [globalState files fetched]. split; [apply lookup_insert_eq |]. split.
    + unfold fileExists. cbn [files]. apply bool_decide_eq_true_2.
      rewrite lookup_insert_eq. eexists. reflexivity.
    + right. exists val. apply bool_decide_eq_false_1 in Hval. repeat split. exact Hval.
  - rewrite (updateCachedFile_not_due paths env options w Hdue).
    apply update_due_false in Hdue as [Hurl Hex].
    split; [exact Hurl |]. split; [exact Hex | left; reflexivity].
Qed.

(** X21. After an [updateCachedFile] that returned, the same call again does
    nothing: it returns at once, without a fetch and without a write. After
    one that threw, the same call fetches again. *)
Theorem updateCachedFile_again (paths : GraphCachePaths) (env : CacheEnv)
    (options : UpdateCachedScriptOptions) (w : CacheWorld) :
  match updateCachedFile paths env options w with
  | (None, w') => updateCachedFile paths env options w' = (None, w')
  | (Some e, w') =>
      fetched (snd (updateCachedFile paths env options w'))
      = fetched w' ++ [currentURL options]
  end.
Proof.
  assert (Hfetch : forall w0,
            update_due options w0 = true ->
            fetched (snd (updateCachedFile paths env options w0))
            = fetched w0 ++ [currentURL options]).
  { intros w0 Hdue0. rewrite (updateCachedFile_due paths env options w0 Hdue0).
    destruct (fetch env (currentURL options)) as [val|]; [| reflexivity].
    destruct (bool_decide (val = EmptyString)); [reflexivity |].
    destruct (makeDir_fatal (mkdir_error env (dirPath paths))); [reflexivity |].
    destruct (write_rejects env (filePath options)); reflexivity. }
  destruct (update_due options w) eqn:Hdue.
  - rewrite (updateCachedFile_due paths env options w Hdue).
    destruct (fetch env (currentURL options)) as [val|] eqn:Hval;
      [| apply Hfetch; exact Hdue].
    destruct (bool_decide (val = EmptyString)); [apply Hfetch; exact Hdue |].
    destruct (makeDir_fatal (mkdir_error env (dirPath paths))); [apply Hfetch; exact Hdue |].
    destruct (write_rejects env (filePath options)); [apply Hfetch; exact Hdue |].
    apply updateCachedFile_not_due, update_due_false.
    cbn [globalState files]. split; [apply lookup_insert_eq |].
    unfold fileExists. cbn [files]. apply bool_decide_eq_true_2.
    rewrite lookup_insert_eq. eexists. reflexivity.
  - rewrite (updateCachedFile_not_due paths env options w Hdue).
    apply updateCachedFile_not_due, Hdue.
Qed.

(** X22. Which [makeDir] errors stop an update that has to download. When
    the fetch gives a non-empty text and [writeFile] resolves, the update
    throws exactly when [makeDir] rejects with an error that carries a
    non-empty [code] other than [EEXIST], and then no file is written; when
    [makeDir] resolves, or rejects with [EEXIST], with an empty code or
    with no code at all, the text is written and the update returns. *)
Theorem updateCachedFile_makeDir (paths : GraphCachePaths) (env : CacheEnv)
    (options : UpdateCachedScriptOptions) (w : CacheWorld) (data : string) :
  update_due options w = true ->
  fetch env (currentURL options) = Some data ->
  data ≠ EmptyString ->
  write_rejects env (filePath options) = false ->
  (makeDir_fatal (mkdir_error env (dirPath paths)) = true
   <-> exists code,
         mkdir_error env (dirPath paths) = Some (Some code)
         /\ code ≠ EmptyString /\ code ≠ "EEXIST")
  /\ if makeDir_fatal (mkdir_error env (dirPath paths))
     then fst (updateCachedFile paths env options w)
          = Some (MakeDirError (default None (mkdir_error env (dirPath paths))))
          /\ files (snd (updateCachedFile paths env options w)) = files w
     else fst (updateCachedFile paths env options w) = None
          /\ files (snd (updateCachedFile paths env options w)) !! filePath options
             = Some data.
Proof.
  intros Hdue Hfetch Hdata Hwrite. split.
  - unfold makeDir_fatal, truthy.
    destruct (mkdir_error env (dirPath paths)) as [[code|]|].
    + rewrite andb_true_iff, !negb_true_iff, !bool_decide_eq_false. split.
      * intros [H1 H2]. exists code. split; [reflexivity |]. split; [exact H1 | congruence].
      * intros (c & Heq & H1 & H2). injection Heq as ->. split; [exact H1 | congruence].
    + split; [discriminate | intros (c & Heq & _); discriminate].
    + split; [discriminate | intros (c & Heq & _); discriminate].
  - rewrite (updateCachedFile_due paths env options w Hdue), Hfetch.
    rewrite bool_decide_eq_false_2 by exact Hdata.
    destruct (makeDir_fatal (mkdir_error env (dirPath paths))); [split; reflexivity |].
    rewrite Hwrite. cbn [fst snd files]. split; [reflexivity | apply lookup_insert_eq].
Qed.

Lemma updateCachedFile_keeps_files (paths : GraphCachePaths) (env : CacheEnv)
    (options : UpdateCachedScriptOptions) (w : CacheWorld) (path : string) :
  fileExists path w = true ->
  fileExists path (snd (updateCachedFile paths env options w)) = true.
Proof.
  intros Hex. destruct (update_due options w) eqn:Hdue.
  - rewrite (updateCachedFile_due paths env options w Hdue).
    destruct (fetch env (currentURL options)) as [val|]; [| exact Hex].
    destruct (bool_decide (val = EmptyString)); [exact Hex |].
    destruct (makeDir_fatal (mkdir_error env (dirPath paths))); [exact Hex |].
    destruct (write_rejects env (filePath options)); [exact Hex |].
    unfold fileExists in *. cbn [snd files].
    apply bool_decide_eq_true_1 in Hex. apply bool_decide_eq_true_2.
    rewrite lookup_insert. case_decide; [eexists; reflexivity | exact Hex].
  - rewrite (updateCachedFile_not_due paths env options w Hdue). exact Hex.
Qed.

Lemma updateCachedFile_returned (paths : GraphCachePaths) (env : CacheEnv)
    (options : UpdateCachedScriptOptions) (w w' : CacheWorld) :
  updateCachedFile paths env options w = (None, w') ->
  fileExists (filePath options) w' = true.
Proof.
  destruct (update_due options w) eqn:Hdue.
  - rewrite (updateCachedFile_due paths env options w Hdue).
    destruct (fetch env (currentURL options)) as [val|]; [| discriminate].
    destruct (bool_decide (val = EmptyString)); [discriminate |].
    destruct (makeDir_fatal (mkdir_error env (dirPath paths))); [discriminate |].
    destruct (write_rejects env (filePath options)); [discriminate |].
    intros Hrun. injection Hrun as <-. unfold fileExists. cbn [files].
    apply bool_decide_eq_true_2. rewrite lookup_insert_eq. eexists. reflexivity.
  - rewrite (updateCachedFile_not_due paths env options w Hdue).
    intros Hrun. injection Hrun as <-. apply update_due_false in Hdue. apply Hdue.
Qed.

(** X23. [confirmCacheExists] returns [true] or throws, never [false]: it
    returns [true], logging nothing, exactly when both files exist. In
    particular it returns [true] after [updateCachedFile] returned for the
    script file and then for the css file of the cache. *)
Theorem confirmCacheExists_after_update (paths : GraphCachePaths) (env : CacheEnv)
    (scriptKey scriptUrl cssKey cssUrl : string) (w : CacheWorld) :
  (confirmCacheExists paths w = (inr true, w)
   <-> fileExists (cssFilePath paths) w = true /\ fileExists (jsFilePath paths) w = true)
  /\ (confirmCacheExists paths w = (inr true, w)
      \/ fst (confirmCacheExists paths w) = inl AssetsMissing)
  /\ forall w1 w2,
       updateCachedFile paths env (mkUpdateOptions scriptKey scriptUrl (jsFilePath paths)) w
       = (None, w1) ->
       updateCachedFile paths env (mkUpdateOptions cssKey cssUrl (cssFilePath paths)) w1
       = (None, w2) ->
       confirmCacheExists paths w2 = (inr true, w2).
Proof.
  assert (Hiff : forall w0,
            confirmCacheExists paths w0 = (inr true, w0)
            <-> fileExists (cssFilePath paths) w0 = true
                /\ fileExists (jsFilePath paths) w0 = true).
  { intros w0. unfold confirmCacheExists. cbv zeta.
    destruct (fileExists (cssFilePath paths) w0), (fileExists (jsFilePath paths) w0);
      cbn [andb]; split; try (intros [? ?]); try discriminate; auto. }
  split; [apply Hiff |]. split.
  - unfold confirmCacheExists. cbv zeta.
    destruct (fileExists (cssFilePath paths) w && fileExists (jsFilePath paths) w);
      [left | right]; reflexivity.
  - intros w1 w2 Hjs Hcss. apply Hiff. split.
    + apply (updateCachedFile_returned paths env _ w1 w2 Hcss).
    + pose proof (updateCachedFile_keeps_files paths env
                    (mkUpdateOptions cssKey cssUrl (cssFilePath paths)) w1 (jsFilePath paths)
                    (updateCachedFile_returned paths env _ w w1 Hjs)) as Hkept.
      rewrite Hcss in Hkept. exact Hkept.
Qed.

(** ** Round trips and ids *)

(** X24. Adding a profile and deleting it again: [deleteProfile(id)] after
    [addProfile(id, p)] always returns and leaves the stored profiles
    without [id], which are the ones before the two calls when [id] was not
    stored. [addProfile(id, p)] after [deleteProfile(id)] stores [p] with
    fresh metadata, whatever was stored under [id], unless the delete
    throws, which it does when [id] is not stored and names a member of
    [Object.prototype]: then nothing is added. *)
Theorem addProfile_deleteProfile (id : string) (p : Profile) (w : World) :
  fst ((addProfile id p ;;; deleteProfile id) w) = Ok tt
  /\ auth_profiles (snd ((addProfile id p ;;; deleteProfile id) w)) = delete id (auth_profiles w)
  /\ (auth_profiles w !! id = None ->
      auth_profiles (snd ((addProfile id p ;;; deleteProfile id) w)) = auth_profiles w)
  /\ match auth_profiles w !! id, bool_decide (id ∈ object_prototype_names) with
     | None, true =>
         fst ((deleteProfile id ;;; addProfile id p) w) = Err TypeError
         /\ auth_profiles (snd ((deleteProfile id ;;; addProfile id p) w)) = auth_profiles w
     | _, _ =>
         getProfile id (snd ((deleteProfile id ;;; addProfile id p) w))
         = (Ok (Own (initMetadata p)), snd ((deleteProfile id ;;; addProfile id p) w))
     end.
Proof.
  assert (Hadd : (addProfile id p ;;; deleteProfile id) w
                 = deleteProfile id (snd (addProfile id p w)))
    by (unfold bind; rewrite addProfile_eq; reflexivity).
  rewrite Hadd, addProfile_eq. cbn [snd].
  rewrite deleteProfile_eq
    by (cbn [auth_profiles push_event set_profiles]; rewrite lookup_insert_eq; discriminate).
  cbn [fst snd auth_profiles push_event set_profiles].
  split; [reflexivity |]. split; [apply delete_insert_eq |]. split.
  - intros Hnone. rewrite delete_insert_eq. apply delete_id, Hnone.
  - assert (Hok : (auth_profiles w !! id = None -> inherited id = false) ->
                  getProfile id (snd ((deleteProfile id ;;; addProfile id p) w))
                  = (Ok (Own (initMetadata p)),
                     snd ((deleteProfile id ;;; addProfile id p) w))).
    { intros Hdel. unfold bind. rewrite (deleteProfile_eq id w Hdel), addProfile_eq.
      rewrite getProfile_eq. cbn [snd auth_profiles push_event set_profiles].
      erewrite js_get_own by apply lookup_insert_eq. reflexivity. }
    fold (inherited id). destruct (auth_profiles w !! id) as [q|] eqn:Hq.
    + destruct (inherited id); apply Hok; discriminate.
    + destruct (inherited id) eqn:Hi; [| apply Hok; reflexivity].
      unfold bind. rewrite (deleteProfile_inherited id w Hq Hi). split; reflexivity.
Qed.

Lemma append_cons (c : Ascii.ascii) (a b : string) :
  String c a +:+ b = String c (a +:+ b).
Proof. reflexivity. Qed.

Lemma append_assoc3 (a b c : string) : (a +:+ b) +:+ c = a +:+ b +:+ c.
Proof.
  induction a as [|x a IH]; [reflexivity |]. rewrite !append_cons, IH. reflexivity.
Qed.

Lemma append_cancel_l (a x y : string) : a +:+ x = a +:+ y -> x = y.
Proof.
  induction a as [|c a IH]; [auto |]. rewrite !append_cons. intros H. injection H as H.
  apply IH, H.
Qed.

Lemma hyphen_inside (x y : string) : hyphen_free (x +:+ "-" +:+ y) = false.
Proof.
  induction x as [|c x IH]; [reflexivity |].
  rewrite append_cons. cbn [hyphen_free]. rewrite IH. apply andb_false_r.
Qed.

Lemma linkedName_injective (r1 r2 a1 a2 : string) :
  hyphen_free a1 = true ->
  hyphen_free a2 = true ->
  r1 +:+ "-" +:+ a1 = r2 +:+ "-" +:+ a2 ->
  r1 = r2 /\ a1 = a2.
Proof.
  intros H1 H2. revert r2. induction r1 as [|c r1 IH]; intros [|c' r2] Heq.
  - apply (append_cancel_l "-") in Heq. subst a2. split; reflexivity.
  - change (String (Ascii.ascii_of_nat 45) a1 = String c' (r2 +:+ "-" +:+ a2)) in Heq.
    injection Heq as _ ->. rewrite hyphen_inside in H1. discriminate.
  - change (String c (r1 +:+ "-" +:+ a1) = String (Ascii.ascii_of_nat 45) a2) in Heq.
    injection Heq as _ <-. rewrite hyphen_inside in H2. discriminate.
  - rewrite !append_cons in Heq. injection Heq as -> Heq.
    destruct (IH r2 Heq) as [-> ->]. split; reflexivity.
Qed.

(** X25. The ids of linked profiles. For one session, two roles whose
    account ids contain no [-] have the same id only when they are the same
    role of the same account. Without the condition different roles can
    share an id, since a role [r-x] of account [a] and a role [r] of account
    [x-a] are both named [r-x-a]; the discovery then skips the second. *)
Theorem linkedId_injective (sourceId : string) (i1 i2 : RoleInfo) :
  (hyphen_free (accountId i1) = true ->
   hyphen_free (accountId i2) = true ->
   linkedId sourceId i1 = linkedId sourceId i2 ->
   i1 = i2)
  /\ (forall r x a : string,
        linkedId sourceId (mkRole (r +:+ "-" +:+ x) a)
        = linkedId sourceId (mkRole r (x +:+ "-" +:+ a)))
  /\ (forall (r x a : string) (m : gmap string StoredProfile),
        m !! linkedId sourceId (mkRole (r +:+ "-" +:+ x) a) = None ->
        discover_yields sourceId [mkRole (r +:+ "-" +:+ x) a; mkRole r (x +:+ "-" +:+ a)] m
        = [(linkedId sourceId (mkRole (r +:+ "-" +:+ x) a),
            initMetadata (linkedProfile sourceId (mkRole (r +:+ "-" +:+ x) a)))]).
Proof.
  assert (Hsame : forall r x a : string,
            linkedId sourceId (mkRole (r +:+ "-" +:+ x) a)
            = linkedId sourceId (mkRole r (x +:+ "-" +:+ a))).
  { intros r x a. unfold linkedId, linkedName. cbn [roleName accountId].
    rewrite append_assoc3. reflexivity. }
  split; [| split; [exact Hsame |]].
  - intros H1 H2 Heq. unfold linkedId, linkedName in Heq.
    apply (append_cancel_l "sso:"), (append_cancel_l sourceId), (append_cancel_l "#") in Heq.
    destruct (linkedName_injective _ _ _ _ H1 H2 Heq) as [Hr Ha].
    destruct i1, i2. cbn in Hr, Ha. subst. reflexivity.
  - intros r x a m Hnone. cbn [discover_yields]. rewrite Hnone.
    rewrite <- Hsame, lookup_insert_eq. reflexivity.
Qed.

(** ** Examples

    The theorems above at the sample data, with [Object.entries] read as
    [entries_by_key]. *)

Lemma entries_by_key_perm (A : Type) (m : gmap string A) :
  entries_by_key A m ≡ₚ map_to_list m.
Proof. reflexivity. Defined.

(** The scenario of the specification: discovery over one account with one
    role yields the linked profile [sso:sso:1#Admin-111]. *)
Example discovery_scenario :
  fst (drain entries_by_key whole_url
         (loadLinkedProfilesIntoStore "sso:1" sample_sso sample_client)
         (snd (addProfile "sso:1" (Sso sample_sso) fresh_world)))
  = Ok ([("sso:sso:1#Admin-111",
          initMetadata (IamLinked (mkLinked "Admin-111" "sso:1" "Admin" "111")))],
        Some (["111"], ["sso:sso:1#Admin-111"])).
Proof. vm_compute. reflexivity. Qed.

(** [stale_cleanup] at [sample_world]: the catalog has the role [Admin] only,
    so a drained run deletes the linked profile of the role [Old], and a
    consumer that leaves after the first yielded profile keeps it. *)
Lemma stale_cleanup_witness :
  auth_profiles sample_world !! "sso:sso:1#Old-222" = Some old_linked
  /\ auth_profiles
       (snd (drain entries_by_key whole_url
               (loadLinkedProfilesIntoStore "sso:1" sample_sso sample_client) sample_world))
     !! "sso:sso:1#Old-222" = None
  /\ auth_profiles
       (snd (consume entries_by_key whole_url 1
               (loadLinkedProfilesIntoStore "sso:1" sample_sso sample_client) sample_world))
     !! "sso:sso:1#Old-222" = Some old_linked.
Proof.
  assert (Hstored : auth_profiles sample_world !! "sso:sso:1#Old-222" = Some old_linked)
    by (vm_compute; reflexivity).
  assert (Hfresh : "sso:sso:1#Old-222"
                   ∉ map (linkedId "sso:1") (stream_roles (role_stream sample_client)))
    by (apply (bool_decide_unpack _); vm_compute; exact I).
  destruct (stale_cleanup entries_by_key entries_by_key_perm whole_url
              "sso:1" sample_sso sample_client sample_world "sso:sso:1#Old-222" old_linked
              (mkLinked "Old-222" "sso:1" "Old" "222")
              Hstored eq_refl eq_refl Hfresh)
    as (_ & Hend & Hearly).
  split; [exact Hstored |]. split.
  - eapply (Hend 2). vm_compute. reflexivity.
  - eapply (Hearly 1); [vm_compute; reflexivity | exact Hstored].
Defined.

(** C1 as the specification words it fails at [hyphen_world]: a linked
    profile of the session [s] for the role [r] of the account [x-a] is
    stored, the stream yields the role [r-x] of the account [a] only, and
    the profile is still stored after a drained run, because both roles
    have the id [sso:s#r-x-a] and the clean-up goes by ids. *)
Lemma stale_role_survives :
  let run :=
    drain entries_by_key whole_url
      (loadLinkedProfilesIntoStore "s" sample_sso hyphen_client) hyphen_world in
  auth_profiles hyphen_world !! "sso:s#r-x-a" = Some hyphen_linked
  /\ profile hyphen_linked = IamLinked (mkLinked "r-x-a" "s" "r" "x-a")
  /\ stream_roles (role_stream hyphen_client) = [mkRole "r-x" "a"]
  /\ (mkRole "r" "x-a" ∉ stream_roles (role_stream hyphen_client))
  /\ fst run = Ok ([], Some (["a"], ["sso:s#r-x-a"]))
  /\ auth_profiles (snd run) !! "sso:s#r-x-a" = Some hyphen_linked.
Proof.
  cbv zeta. split; [vm_compute; reflexivity |]. split; [reflexivity |].
  split; [reflexivity |]. split; [| split; vm_compute; reflexivity].
  intros Hin. apply list_elem_of_singleton in Hin. discriminate Hin.
Qed.

(** [discovery_idempotent] at [sample_world]: the first run yields the
    profile of [Admin], the second run yields nothing and leaves the store
    of the first. *)
Lemma discovery_idempotent_witness :
  let g := loadLinkedProfilesIntoStore "sso:1" sample_sso sample_client in
  let w1 := snd (consume entries_by_key whole_url 2 g sample_world) in
  let w2 := snd (consume entries_by_key whole_url 1 g w1) in
  fst (consume entries_by_key whole_url 2 g sample_world)
  = Ok ([("sso:sso:1#Admin-111",
          initMetadata (IamLinked (mkLinked "Admin-111" "sso:1" "Admin" "111")))],
        Some (["111"], ["sso:sso:1#Admin-111"]))
  /\ fst (consume entries_by_key whole_url 1 g w1)
     = Ok ([], Some (["111"], ["sso:sso:1#Admin-111"]))
  /\ auth_profiles w2 = auth_profiles w1.
Proof.
  intros g w1 w2.
  assert (Hrun1 : consume entries_by_key whole_url 2 g sample_world
                  = (Ok ([("sso:sso:1#Admin-111",
                           initMetadata (IamLinked (mkLinked "Admin-111" "sso:1" "Admin" "111")))],
                         Some (["111"], ["sso:sso:1#Admin-111"])), w1))
    by (vm_compute; reflexivity).
  assert (Hrun2 : consume entries_by_key whole_url 1 g w1
                  = (Ok ([], Some (["111"], ["sso:sso:1#Admin-111"])), w2))
    by (vm_compute; reflexivity).
  destruct (discovery_idempotent entries_by_key entries_by_key_perm whole_url
              "sso:1" sample_sso sample_client sample_world w1 w2 2 1 _ _ _ _ Hrun1 Hrun2)
    as (_ & _ & _ & _ & _ & _ & _ & Hsame).
  split; [rewrite Hrun1; reflexivity |]. split; [rewrite Hrun2; reflexivity | exact Hsame].
Defined.

(** [addProfile_overwrites] at [sample_world]: adding over [old_linked]
    succeeds and its label, state and source are gone. *)
Lemma addProfile_overwrites_witness :
  auth_profiles sample_world !! "sso:sso:1#Old-222" = Some old_linked
  /\ exists w',
       addProfile "sso:sso:1#Old-222" (IamUnknown (mkUnknown "x" None)) sample_world
       = (Ok (initMetadata (IamUnknown (mkUnknown "x" None))), w')
       /\ auth_profiles w' !! "sso:sso:1#Old-222"
          = Some (mkStored (IamUnknown (mkUnknown "x" None)) (mkMetadata absent unauthenticated absent)).
Proof.
  assert (Hstored : auth_profiles sample_world !! "sso:sso:1#Old-222" = Some old_linked)
    by (vm_compute; reflexivity).
  split; [exact Hstored |].
  destruct (addProfile_overwrites "sso:sso:1#Old-222" (IamUnknown (mkUnknown "x" None)) old_linked
              sample_world Hstored)
    as (w' & Hrun & Hnew & _).
  exists w'. split; [exact Hrun | exact Hnew].
Defined.

(** [updateProfile_type_mismatch] at [sample_world]: an [sso] profile cannot
    replace the linked profile. *)
Lemma updateProfile_type_mismatch_witness :
  auth_profiles sample_world !! "sso:sso:1#Old-222" = Some old_linked
  /\ type (profile old_linked) ≠ type (Sso sample_sso)
  /\ exists w',
       updateProfile "sso:sso:1#Old-222" (Sso sample_sso) sample_world
       = (Err (ProfileTypeMismatch type_iam type_sso), w')
       /\ auth_profiles w' = auth_profiles sample_world.
Proof.
  assert (Hstored : auth_profiles sample_world !! "sso:sso:1#Old-222" = Some old_linked)
    by (vm_compute; reflexivity).
  assert (Hty : type (profile old_linked) ≠ type (Sso sample_sso))
    by (cbn; discriminate).
  split; [exact Hstored |]. split; [exact Hty |].
  destruct (updateProfile_type_mismatch "sso:sso:1#Old-222" (Sso sample_sso) old_linked
              sample_world Hstored Hty)
    as (w' & Hrun & Hsame & _).
  exists w'. split; [exact Hrun | exact Hsame].
Defined.

(** [profile_not_found_inherited] at the id [constructor] in a store
    without profiles. *)
Lemma profile_not_found_inherited_witness :
  auth_profiles fresh_world !! "constructor" = None
  /\ "constructor" ∈ object_prototype_names
  /\ getProfileOrThrow "constructor" fresh_world = (Err TypeError, fresh_world)
  /\ updateMetadata "constructor" now_valid fresh_world = (Err TypeError, fresh_world)
  /\ emitted_by (getProfileOrThrow "constructor") fresh_world = [].
Proof.
  assert (Hnone : auth_profiles fresh_world !! "constructor" = None) by reflexivity.
  assert (Hnamed : "constructor" ∈ object_prototype_names) by apply list_elem_of_here.
  split; [exact Hnone |]. split; [exact Hnamed |].
  destruct (profile_not_found_inherited "constructor" now_valid fresh_world Hnone Hnamed)
    as (Hget & Hupdate & Hsilent & _).
  split; [exact Hget |]. split; [exact Hupdate | exact Hsilent].
Defined.

(** [getProfileOrThrow_twice] at [sample_world], where nothing was emitted
    before: the two calls emit one [Succeeded] event. *)
Lemma getProfileOrThrow_twice_witness :
  auth_profiles sample_world !! "sso:1" = Some (initMetadata (Sso sample_sso))
  /\ succeeded_count
       (emitted_by (getProfileOrThrow "sso:1" ;;; getProfileOrThrow "sso:1") sample_world)
     = 1.
Proof.
  assert (Hstored : auth_profiles sample_world !! "sso:1" = Some (initMetadata (Sso sample_sso)))
    by (vm_compute; reflexivity).
  split; [exact Hstored |].
  destruct (getProfileOrThrow_twice "sso:1" (initMetadata (Sso sample_sso)) sample_world Hstored)
    as (_ & _ & Hcount & _).
  exact Hcount.
Defined.

(** C6 as the specification words it fails in [seen_world]: a profile is stored under
    [sso:1], its connection state does not change, and two calls of
    [getProfileOrThrow("sso:1")] in succession emit no [Succeeded] event,
    because the call before them emitted it. *)
Lemma getProfileOrThrow_twice_silent :
  auth_profiles seen_world !! "sso:1" = Some (initMetadata (Sso sample_sso))
  /\ fst ((getProfileOrThrow "sso:1" ;;; getProfileOrThrow "sso:1") seen_world)
     = Ok (initMetadata (Sso sample_sso))
  /\ emitted_by (getProfileOrThrow "sso:1" ;;; getProfileOrThrow "sso:1") seen_world = []
  /\ succeeded_count
       (emitted_by (getProfileOrThrow "sso:1" ;;; getProfileOrThrow "sso:1") seen_world)
     = 0.
Proof. vm_compute. repeat split; reflexivity. Qed.

(** [loadIamProfilesIntoStore_inherited] at [named_world] and
    [named_providers], with credential ids that are their own strings: the
    sync returns, the unknown profile [constructor], which the enumeration
    does not list, is still stored, and the enumerated id [toString] has
    not been added. *)
Lemma loadIamProfilesIntoStore_inherited_witness :
  let run :=
    loadIamProfilesIntoStore entries_by_key string (fun c => c) Some
      named_providers named_world in
  fst run = Ok []
  /\ named_providers !! "constructor" = None
  /\ auth_profiles named_world !! "toString" = None
  /\ auth_profiles (snd run) !! "constructor"
     = Some (initMetadata (IamUnknown (mkUnknown "c" None)))
  /\ auth_profiles (snd run) !! "toString" = None.
Proof.
  intros run.
  assert (Hrun : loadIamProfilesIntoStore entries_by_key string (fun c => c) Some
                   named_providers named_world
                 = (Ok [], snd run))
    by (vm_compute; reflexivity).
  destruct (loadIamProfilesIntoStore_inherited entries_by_key entries_by_key_perm
              string (fun c => c) Some named_providers named_world (snd run) [] Hrun)
    as [Hkept Hskipped].
  split; [unfold run; rewrite Hrun; reflexivity |].
  split; [vm_compute; reflexivity |]. split; [vm_compute; reflexivity |]. split.
  - apply (Hkept "constructor" _ (mkUnknown "c" None));
      [vm_compute; reflexivity | reflexivity | vm_compute; reflexivity |].
    apply list_elem_of_here.
  - apply (Hskipped "toString" "t");
      [vm_compute; reflexivity | vm_compute; reflexivity | vm_compute; reflexivity |].
    apply (bool_decide_unpack _). vm_compute. exact I.
Defined.

(** [loadIamProfilesIntoStore_post] at [sync_world] and [sample_providers],
    with credential ids that are their own strings: the linked profile of
    the missing session is deleted and its provider removed, the unknown
    profile [profile:b] is deleted and [profile:new] is added. *)
Lemma loadIamProfilesIntoStore_post_witness :
  let run :=
    loadIamProfilesIntoStore entries_by_key string (fun c => c) Some
      sample_providers sync_world in
  fst run = Ok ["sso:gone#Dev-333"]
  /\ auth_profiles (snd run) !! "sso:gone#Dev-333" = None
  /\ auth_profiles (snd run) !! "profile:b" = None
  /\ auth_profiles (snd run) !! "profile:new" = Some (initMetadata (IamUnknown (mkUnknown "new" None))).
Proof.
  intros run.
  assert (Hrun : loadIamProfilesIntoStore entries_by_key string (fun c => c) Some
                   sample_providers sync_world
                 = (Ok ["sso:gone#Dev-333"], snd run))
    by (vm_compute; reflexivity).
  destruct (loadIamProfilesIntoStore_post entries_by_key entries_by_key_perm
              string (fun c => c) Some sample_providers sync_world (snd run)
              ["sso:gone#Dev-333"] Hrun)
    as (Horphan & _ & Hunknown & Hnew).
  split; [unfold run; rewrite Hrun; reflexivity |]. split; [| split].
  - assert (Hstored : auth_profiles sync_world !! "sso:gone#Dev-333"
                      = Some (initMetadata (IamLinked (mkLinked "Dev-333" "gone" "Dev" "333"))))
      by (vm_compute; reflexivity).
    assert (Hno : has_sso (auth_profiles sync_world) "gone" = false)
      by (vm_compute; reflexivity).
    destruct (Horphan "sso:gone#Dev-333" _ _ Hstored eq_refl Hno) as [_ Hgone].
    destruct (auth_profiles (snd run) !! "sso:gone#Dev-333") as [q|]; [| reflexivity].
    destruct Hgone as (c & _ & Hprefix & _). vm_compute in Hprefix. discriminate.
  - apply (Hunknown "profile:b" (initMetadata (IamUnknown (mkUnknown "b" None)))
             (mkUnknown "b" None));
      [vm_compute; reflexivity | reflexivity | vm_compute; reflexivity |].
    apply (bool_decide_unpack _). vm_compute. exact I.
  - apply (Hnew "profile:new" "new");
      [vm_compute; reflexivity | vm_compute; reflexivity | vm_compute; reflexivity |].
    apply (bool_decide_unpack _). vm_compute. exact I.
Defined.

(** [zero_result_diagnostic] at [sample_world] and a catalog without
    accounts: the run logs that the organisation returned no accounts and
    shows the pop-up. *)
Lemma zero_result_diagnostic_witness :
  let run :=
    consume entries_by_key whole_url 1
      (loadLinkedProfilesIntoStore "sso:1" sample_sso empty_client) sample_world in
  fst run = Ok ([], Some ([], []))
  /\ logged (snd run) = [WarnNoAccounts "https://x"]
  /\ shown (snd run) = [(no_roles_message "https://x", getting_started_url)].
Proof.
  intros run.
  assert (Hrun : consume entries_by_key whole_url 1
                   (loadLinkedProfilesIntoStore "sso:1" sample_sso empty_client) sample_world
                 = (Ok ([], Some ([], [])), snd run))
    by (vm_compute; reflexivity).
  pose proof (zero_result_diagnostic entries_by_key entries_by_key_perm whole_url
                "sso:1" sample_sso empty_client sample_world (snd run) 1 [] (Some ([], []))
                Hrun) as Hpost.
  cbv zeta in Hpost. destruct Hpost as (_ & _ & _ & Hlog & Hshown & _).
  split; [unfold run; rewrite Hrun; reflexivity |]. split; [exact Hlog | exact Hshown].
Defined.

(** C9 as the specification words it fails on three drained runs over a catalog
    without accounts, for the sessions [https://x], [https://y] and
    [https://x] again: the pop-up of [https://x] is shown twice, because
    [warnOnce] compares a message with the last one shown only. *)
Lemma warning_shown_twice :
  let gx := loadLinkedProfilesIntoStore "sso:1" sample_sso empty_client in
  let gy := loadLinkedProfilesIntoStore "sso:2" other_sso empty_client in
  let w1 := snd (drain entries_by_key whole_url gx fresh_world) in
  let w2 := snd (drain entries_by_key whole_url gy w1) in
  let w3 := snd (drain entries_by_key whole_url gx w2) in
  shown w3
  = [(no_roles_message "https://x", getting_started_url);
     (no_roles_message "https://y", getting_started_url);
     (no_roles_message "https://x", getting_started_url)]
  /\ ~ NoDup (shown w3).
Proof.
  intros gx gy w1 w2 w3.
  assert (Hshown : shown w3
                   = [(no_roles_message "https://x", getting_started_url);
                      (no_roles_message "https://y", getting_started_url);
                      (no_roles_message "https://x", getting_started_url)])
    by (vm_compute; reflexivity).
  split; [exact Hshown |]. rewrite Hshown. intros Hnd.
  apply NoDup_cons in Hnd as [Hnot _]. apply Hnot.
  apply list_elem_of_further, list_elem_of_here.
Qed.

(** [updateProfile_merges] at [sample_world]: the session [sso:1] takes a new
    region and new scopes and keeps its metadata; and an unknown profile
    written over the linked profile [old_linked] keeps the three [sso...]
    properties of the latter. *)
Lemma updateProfile_merges_witness :
  (auth_profiles sample_world !! "sso:1" = Some (initMetadata (Sso sample_sso))
   /\ fst (updateProfile "sso:1" (Sso scoped_sso) sample_world)
      = Ok (mkStored (Sso scoped_sso) (mkMetadata absent unauthenticated absent)))
  /\ (auth_profiles sample_world !! "sso:sso:1#Old-222" = Some old_linked
      /\ fst (updateProfile "sso:sso:1#Old-222" (IamUnknown (mkUnknown "x" None)) sample_world)
         = Ok (mkStored (IamUnknown (mkUnknown "x" (Some ("sso:1", "Old", "222"))))
                 (mkMetadata (present "old role") valid (present toolkit)))).
Proof.
  assert (Hsso : auth_profiles sample_world !! "sso:1" = Some (initMetadata (Sso sample_sso)))
    by (vm_compute; reflexivity).
  assert (Hold : auth_profiles sample_world !! "sso:sso:1#Old-222" = Some old_linked)
    by (vm_compute; reflexivity).
  split; (split; [assumption |]).
  - destruct (updateProfile_merges "sso:1" (Sso scoped_sso) (initMetadata (Sso sample_sso))
                sample_world Hsso eq_refl)
      as (new & w' & Hrun & _ & Hmeta & Hbody).
    rewrite Hrun. cbn [fst]. f_equal. destruct new as [body md]. cbn in Hmeta, Hbody.
    subst body md. reflexivity.
  - destruct (updateProfile_merges "sso:sso:1#Old-222" (IamUnknown (mkUnknown "x" None))
                old_linked sample_world Hold eq_refl)
      as (new & w' & Hrun & _ & Hmeta & Hbody).
    rewrite Hrun. cbn [fst]. f_equal. destruct new as [body md]. cbn in Hmeta, Hbody.
    subst body md. reflexivity.
Defined.

(** [updateProfile_missing] at [sample_world], for an id that is not stored
    and for the id [toString]. *)
Lemma updateProfile_missing_witness :
  (auth_profiles sample_world !! "profile:none" = None
   /\ fst (updateProfile "profile:none" (IamUnknown (mkUnknown "x" None)) sample_world)
      = Err (ProfileNotFoundError "profile:none"))
  /\ (auth_profiles sample_world !! "toString" = None
      /\ fst (updateProfile "toString" (IamUnknown (mkUnknown "x" None)) sample_world)
         = Err TypeError).
Proof.
  assert (Hnone : auth_profiles sample_world !! "profile:none" = None)
    by (vm_compute; reflexivity).
  assert (Hnamed : auth_profiles sample_world !! "toString" = None)
    by (vm_compute; reflexivity).
  split; (split; [assumption |]).
  - destruct (updateProfile_missing "profile:none" (IamUnknown (mkUnknown "x" None))
                sample_world Hnone)
      as (e & w' & Hrun & _ & _ & Hcase).
    rewrite Hrun. cbn [fst]. vm_compute in Hcase. destruct Hcase as [-> _]. reflexivity.
  - destruct (updateProfile_missing "toString" (IamUnknown (mkUnknown "x" None))
                sample_world Hnamed)
      as (e & w' & Hrun & _ & _ & Hcase).
    rewrite Hrun. cbn [fst]. vm_compute in Hcase. destruct Hcase as [-> _]. reflexivity.
Defined.

(** [updateMetadata_merges] at [sample_world]: setting the connection state
    of [old_linked] keeps its label and source when the argument leaves
    the two keys out, and erases the label when the argument has the key
    [label] with the value [undefined]. *)
Lemma updateMetadata_merges_witness :
  auth_profiles sample_world !! "sso:sso:1#Old-222" = Some old_linked
  /\ (exists new w',
        updateMetadata "sso:sso:1#Old-222" (mkMetadata absent invalid absent) sample_world
        = (Ok new, w')
        /\ connectionState (metadata new) = invalid
        /\ label (metadata new) = present "old role"
        /\ source (metadata new) = present toolkit)
  /\ (exists new w',
        updateMetadata "sso:sso:1#Old-222" (mkMetadata undefined invalid absent) sample_world
        = (Ok new, w')
        /\ label (metadata new) = undefined
        /\ source (metadata new) = present toolkit).
Proof.
  assert (Hstored : auth_profiles sample_world !! "sso:sso:1#Old-222" = Some old_linked)
    by (vm_compute; reflexivity).
  split; [exact Hstored |]. split.
  - destruct (updateMetadata_merges "sso:sso:1#Old-222" (mkMetadata absent invalid absent)
                old_linked sample_world Hstored)
      as (new & w' & Hrun & _ & _ & Hstate & Hlabel & Hsource & _).
    exists new, w'. split; [exact Hrun |]. split; [exact Hstate |].
    split; [exact Hlabel | exact Hsource].
  - destruct (updateMetadata_merges "sso:sso:1#Old-222" (mkMetadata undefined invalid absent)
                old_linked sample_world Hstored)
      as (new & w' & Hrun & _ & _ & _ & Hlabel & Hsource & _).
    exists new, w'. split; [exact Hrun |]. split; [exact Hlabel | exact Hsource].
Defined.

(** [getProfileOrThrow_reemits] at [sample_world] and its two profiles. *)
Lemma getProfileOrThrow_reemits_witness :
  "sso:1" ≠ "sso:sso:1#Old-222"
  /\ succeeded_count
       (emitted_by (getProfileOrThrow "sso:sso:1#Old-222" ;;; getProfileOrThrow "sso:1")
          (snd (getProfileOrThrow "sso:1" sample_world)))
     = 2
  /\ succeeded_count
       (emitted_by (updateMetadata "sso:1" now_valid ;;; getProfileOrThrow "sso:1")
          (snd (getProfileOrThrow "sso:1" sample_world)))
     = 1.
Proof.
  assert (Hne : "sso:1" ≠ "sso:sso:1#Old-222") by discriminate.
  destruct (getProfileOrThrow_reemits "sso:1" "sso:sso:1#Old-222"
              (initMetadata (Sso sample_sso)) old_linked now_valid sample_world Hne)
    as [Hother Hstate]; [vm_compute; reflexivity | vm_compute; reflexivity |].
  split; [exact Hne |]. split.
  - rewrite Hother. reflexivity.
  - rewrite Hstate. reflexivity.
Defined.

(** [getProfileOrThrow_failures] at [sample_world]. *)
Lemma getProfileOrThrow_failures_witness :
  auth_profiles sample_world !! "profile:none" = None
  /\ emitted_by (getProfileOrThrow "sso:1")
       (snd (getProfileOrThrow "profile:none" (snd (getProfileOrThrow "sso:1" sample_world))))
     = [].
Proof.
  assert (Hnone : auth_profiles sample_world !! "profile:none" = None)
    by (vm_compute; reflexivity).
  split; [exact Hnone |].
  refine (proj2 (proj2 (getProfileOrThrow_failures "sso:1" "profile:none"
                          (initMetadata (Sso sample_sso)) sample_world _ Hnone _))).
  - vm_compute. reflexivity.
  - apply (bool_decide_unpack _). vm_compute. exact I.
Defined.

(** [discovery_keeps_others] at [sample_world]: the drained run deletes the
    stale linked profile and keeps the session itself. *)
Lemma discovery_keeps_others_witness :
  auth_profiles
    (snd (drain entries_by_key whole_url
            (loadLinkedProfilesIntoStore "sso:1" sample_sso sample_client) sample_world))
  !! "sso:1" = Some (initMetadata (Sso sample_sso)).
Proof.
  apply (discovery_keeps_others entries_by_key entries_by_key_perm whole_url
           "sso:1" sample_sso sample_client sample_world _ 2
           [("sso:sso:1#Admin-111", admin_linked)]
           (Some (["111"], ["sso:sso:1#Admin-111"])) "sso:1" (initMetadata (Sso sample_sso))).
  - vm_compute. reflexivity.
  - vm_compute. reflexivity.
  - intros l Hl. discriminate.
Defined.

(** [discovery_leaves_no_stale] at [sample_world]: the linked profile left
    after the drained run is the one of a role of the stream. *)
Lemma discovery_leaves_no_stale_witness :
  exists info,
    Role info ∈ role_stream sample_client
    /\ "sso:sso:1#Admin-111" = linkedId "sso:1" info.
Proof.
  refine (proj2 (discovery_leaves_no_stale entries_by_key entries_by_key_perm whole_url
                   "sso:1" sample_sso sample_client sample_world
                   (snd (consume entries_by_key whole_url 2
                           (loadLinkedProfilesIntoStore "sso:1" sample_sso sample_client)
                           sample_world))
                   2 [("sso:sso:1#Admin-111", admin_linked)]
                   (["111"], ["sso:sso:1#Admin-111"]) "sso:sso:1#Admin-111" admin_linked
                   _ _)
            (mkLinked "Admin-111" "sso:1" "Admin" "111") eq_refl eq_refl);
    vm_compute; reflexivity.
Defined.

(** [consume_yields_prefix] at [sample_world]: one [next()] yields the one
    new profile and does not reach the clean-up, so the stale profile is
    still stored. *)
Lemma consume_yields_prefix_witness :
  let run :=
    consume entries_by_key whole_url 1
      (loadLinkedProfilesIntoStore "sso:1" sample_sso sample_client) sample_world in
  fst run = Ok ([("sso:sso:1#Admin-111", admin_linked)], None)
  /\ auth_profiles (snd run)
     = <["sso:sso:1#Admin-111" := admin_linked]> (auth_profiles sample_world).
Proof.
  intros run.
  assert (Hrun : consume entries_by_key whole_url 1
                   (loadLinkedProfilesIntoStore "sso:1" sample_sso sample_client) sample_world
                 = (Ok ([("sso:sso:1#Admin-111", admin_linked)], None), snd run))
    by (vm_compute; reflexivity).
  destruct (consume_yields_prefix entries_by_key entries_by_key_perm whole_url 1
              _ _ _ _ _ Hrun) as (_ & _ & Hmap).
  split; [unfold run; rewrite Hrun; reflexivity |]. exact (Hmap eq_refl).
Defined.

(** [loadIamProfilesIntoStore_keeps] at [sync_world]: the session, its linked
    profile and the enumerated unknown profile stay. *)
Lemma loadIamProfilesIntoStore_keeps_witness :
  let run :=
    loadIamProfilesIntoStore entries_by_key string (fun c => c) Some
      sample_providers sync_world in
  auth_profiles (snd run) !! "sso:sso:1#Admin-111" = Some admin_linked
  /\ auth_profiles (snd run) !! "profile:a" = Some (initMetadata (IamUnknown (mkUnknown "a" None)))
  /\ auth_profiles (snd run) !! "sso:other" = None.
Proof.
  intros run.
  assert (Hrun : loadIamProfilesIntoStore entries_by_key string (fun c => c) Some
                   sample_providers sync_world
                 = (Ok ["sso:gone#Dev-333"], snd run))
    by (vm_compute; reflexivity).
  destruct (loadIamProfilesIntoStore_keeps entries_by_key entries_by_key_perm
              string (fun c => c) Some sample_providers sync_world (snd run) _ Hrun)
    as [Hkeep Hnone].
  split; [| split].
  - apply Hkeep; vm_compute; reflexivity.
  - apply Hkeep; [vm_compute; reflexivity | vm_compute; eexists; reflexivity].
  - apply Hnone; [vm_compute; reflexivity | left; vm_compute; reflexivity].
Defined.

(** [loadIamProfilesIntoStore_idempotent] at [sync_world]. *)
Lemma loadIamProfilesIntoStore_idempotent_witness :
  let w' :=
    snd (loadIamProfilesIntoStore entries_by_key string (fun c => c) Some
           sample_providers sync_world) in
  loadIamProfilesIntoStore entries_by_key string (fun c => c) Some sample_providers w'
  = (Ok [], w').
Proof.
  intros w'.
  apply (loadIamProfilesIntoStore_idempotent entries_by_key entries_by_key_perm
           string (fun c => c) Some sample_providers sync_world w' ["sso:gone#Dev-333"]).
  vm_compute. reflexivity.
Defined.

(** [loadIamProfilesIntoStore_throws] at [sync_world] with a [fromString]
    that always throws: the sync fails for the orphaned linked profile, which
    is deleted all the same. *)
Lemma loadIamProfilesIntoStore_throws_witness :
  let run :=
    loadIamProfilesIntoStore entries_by_key string (fun c => c) (fun _ => None)
      sample_providers sync_world in
  fst run = Err (CredentialsIdError "sso:gone#Dev-333")
  /\ (forall id q,
        auth_profiles (snd run) !! id = Some q -> auth_profiles sync_world !! id = Some q).
Proof.
  intros run.
  assert (Hrun : loadIamProfilesIntoStore entries_by_key string (fun c => c) (fun _ => None)
                   sample_providers sync_world
                 = (Err (CredentialsIdError "sso:gone#Dev-333"), snd run))
    by (vm_compute; reflexivity).
  split; [unfold run; rewrite Hrun; reflexivity |].
  exact (proj2 (loadIamProfilesIntoStore_throws entries_by_key entries_by_key_perm
                  string (fun c => c) (fun _ => None) sample_providers sync_world
                  (snd run) _ Hrun)).
Defined.

(** [hasExactScopes_permutation] at two scopes in two orders. *)
Lemma hasExactScopes_permutation_witness :
  NoDup ["b"; "a"]
  /\ hasExactScopes (TargetArray ["a"; "b"]) ["b"; "a"] = true.
Proof.
  assert (Hnd : NoDup ["b"; "a"]) by (apply (bool_decide_unpack _); vm_compute; exact I).
  split; [exact Hnd |].
  apply (proj1 (hasExactScopes_permutation (TargetArray ["a"; "b"]) ["b"; "a"] Hnd)).
  apply perm_swap.
Defined.

(** [listFunctions_pages] at a service with three pages. *)
Lemma listFunctions_pages_witness :
  pages_from two_pages None
    [mkPage (Some ["f1"; "f2"]) (Some "m1"); mkPage (Some ["f3"]) (Some "m2")]
    (mkPage None None)
  /\ listFunctions 3 two_pages = Listed ["f1"; "f2"; "f3"]
  /\ listFunctions 2 two_pages = Unfinished ["f1"; "f2"; "f3"]
  /\ listFunctions 1 two_pages = Unfinished ["f1"; "f2"].
Proof.
  assert (Hpages : pages_from two_pages None
                     [mkPage (Some ["f1"; "f2"]) (Some "m1"); mkPage (Some ["f3"]) (Some "m2")]
                     (mkPage None None))
    by (cbn; repeat split).
  split; [exact Hpages |].
  split; [| split].
  - exact (proj1 (listFunctions_pages two_pages (fun _ => two_pages) "layer" _ _ 3) Hpages).
  - exact (proj1 (listFunctions_pages two_pages (fun _ => two_pages) "layer" _ _ 2) Hpages).
  - exact (proj1 (listFunctions_pages two_pages (fun _ => two_pages) "layer" _ _ 1) Hpages).
Defined.

(** [paginate_unending] at a service that repeats its marker. *)
Lemma paginate_unending_witness :
  exists yielded, listFunctions 5 same_marker = Unfinished yielded.
Proof.
  apply (proj1 (paginate_unending same_marker 5 None)).
  intros m. eexists. split; reflexivity.
Defined.

(** [updateCachedFile_makeDir] at an empty cache: [EEXIST] does not stop the
    update, [EACCES] does. *)
Lemma updateCachedFile_makeDir_witness :
  (fst (updateCachedFile sample_paths sample_env script_options empty_cache) = None
   /\ files (snd (updateCachedFile sample_paths sample_env script_options empty_cache))
      !! "cache/sfn.js" = Some "content of https://cdn/sfn.js")
  /\ (fst (updateCachedFile sample_paths readonly_env script_options empty_cache)
      = Some (MakeDirError (Some "EACCES"))
      /\ files (snd (updateCachedFile sample_paths readonly_env script_options empty_cache))
         = ∅).
Proof.
  split.
  - exact (proj2 (updateCachedFile_makeDir sample_paths sample_env script_options empty_cache
                    "content of https://cdn/sfn.js" eq_refl eq_refl
                    ltac:(discriminate) eq_refl)).
  - exact (proj2 (updateCachedFile_makeDir sample_paths readonly_env script_options empty_cache
                    "content of https://cdn/sfn.js" eq_refl eq_refl
                    ltac:(discriminate) eq_refl)).
Defined.

(** [confirmCacheExists_after_update] at an empty cache: after the two
    updates both files are confirmed. *)
Lemma confirmCacheExists_after_update_witness :
  let w1 := snd (updateCachedFile sample_paths sample_env script_options empty_cache) in
  let w2 := snd (updateCachedFile sample_paths sample_env css_options w1) in
  fst (confirmCacheExists sample_paths empty_cache) = inl AssetsMissing
  /\ confirmCacheExists sample_paths w2 = (inr true, w2).
Proof.
  intros w1 w2.
  destruct (confirmCacheExists_after_update sample_paths sample_env
              "SCRIPT_LAST_DOWNLOADED_URL" "https://cdn/sfn.js"
              "CSS_LAST_DOWNLOADED_URL" "https://cdn/graph.css" empty_cache)
    as (_ & _ & Hboth).
  split; [reflexivity |].
  apply (Hboth w1 w2); vm_compute; reflexivity.
Defined.

(** [addProfile_deleteProfile] at [sample_world] and a fresh id. *)
Lemma addProfile_deleteProfile_witness :
  auth_profiles sample_world !! "profile:none" = None
  /\ auth_profiles
       (snd ((addProfile "profile:none" (IamUnknown (mkUnknown "x" None)) ;;; deleteProfile "profile:none")
               sample_world))
     = auth_profiles sample_world.
Proof.
  assert (Hnone : auth_profiles sample_world !! "profile:none" = None)
    by (vm_compute; reflexivity).
  split; [exact Hnone |].
  exact (proj1 (proj2 (proj2 (addProfile_deleteProfile "profile:none"
                                (IamUnknown (mkUnknown "x" None)) sample_world)))
           Hnone).
Defined.

(** [linkedId_injective] at two roles of the account [111]. *)
Lemma linkedId_injective_witness :
  hyphen_free "111" = true
  /\ linkedId "sso:1" (mkRole "Admin" "111") ≠ linkedId "sso:1" (mkRole "Dev" "111").
Proof.
  split; [reflexivity |]. intros Heq.
  pose proof (proj1 (linkedId_injective "sso:1" (mkRole "Admin" "111") (mkRole "Dev" "111"))
                eq_refl eq_refl Heq) as Hsame.
  discriminate Hsame.
Defined.

(** [popups_never_repeat] at a drained run from the fresh state. *)
Lemma popups_never_repeat_witness :
  popups_consistent
    (snd (consume entries_by_key whole_url 1
            (loadLinkedProfilesIntoStore "sso:1" sample_sso empty_client) fresh_world)).
Proof.
  destruct (popups_never_repeat entries_by_key entries_by_key_perm whole_url
              "sso:1" sample_sso empty_client 1 "m" "u" fresh_world)
    as (Hfresh & _ & Hrun).
  exact (Hrun Hfresh).
Defined.
